(** * Device-resident particle arrays: [pysph/base/opencl.py]

    A shallow embedding of the two classes of [pysph/base/opencl.py],
    [DeviceArray] (a resizable device buffer) and [DeviceHelper] (the store of
    the property and constant buffers of one particle array), together with
    the properties of them that the specification states.

    Conventions of the embedding.
    - A device array ([cl.array.Array]) is a [list Z]: the operations of this
      file only move element values around, so one element type stands for
      every dtype; index arrays are [list nat].
    - Python slices are written out with [take] and [drop]; the bound [-k] of
      [a[-k:]] and [a[:-k]] is normalised as Python does it ([-0] is [0]).
    - [cl.array.empty] returns uninitialised memory: cell [i] of a fresh
      allocation holds [junk i], for a function [junk] that every definition
      takes as a parameter; the theorems hold for every [junk].
    - A Python exception is the [Raise] case of [result]; a comparison
      [a > b] of the source is written [b < a].
    - An elementwise kernel is the sequential loop over its work items in
      ascending order; a device read or write outside an array (undefined on
      the device, never an exception) reads [0] and writes nothing. *)

From stdpp Require Import gmap strings list fin_maps.

Abbreviation len := List.length (only parsing).

(** ** Exceptions *)

Inductive exn : Set := ValueError | KeyError | IndexError | AttributeError.

Inductive result (A : Type) : Type :=
  | Ok (a : A)
  | Raise (e : exn).
Arguments Ok {A} a.
Arguments Raise {A} e.

Global Instance result_ret : MRet result := λ A a, Ok a.
Global Instance result_bind : MBind result := λ A B f m,
  match m with
  | Ok a => f a
  | Raise e => Raise e
  end.

Definition is_Ok {A} (r : result A) : Prop := ∃ a, r = Ok a.
Definition raises {A} (r : result A) : Prop := ∃ e, r = Raise e.

(** ** Arrays on the device *)

(** [-k] as a slice bound of an array of [n] cells. *)
Definition neg_bound (n k : nat) : nat :=
  if decide (k = 0) then 0 else n - k.

(** [a[start:stop] = v] for an array [v]: pyopencl refuses arrays of another
    shape than the slice. *)
Definition setitem_slice (a : list Z) (start stop : nat) (v : list Z)
  : result (list Z) :=
  let stop := stop `min` len a in
  let start := start `min` stop in
  if decide (len v = stop - start)
  then Ok (take start a ++ v ++ drop stop a)
  else Raise ValueError.

(** [a[start:stop] = x] for a scalar [x]: the slice is filled. *)
Definition fill_slice (a : list Z) (start stop : nat) (x : Z) : list Z :=
  let stop := stop `min` len a in
  let start := start `min` stop in
  take start a ++ replicate (stop - start) x ++ drop stop a.

(** [cl.array.take(a, indices)] *)
Definition cl_take (a : list Z) (indices : list nat) : list Z :=
  (λ i, a !!! i) <$> indices.

(** [cl.array.arange(queue, 0, n, 1)] *)
Definition arange (n : nat) : list nat := seq 0 n.

Module DeviceArray.

Record t : Type := mk { _data : list Z; length : nat; alloc : nat }.

(** [self.array], the view [self._data[:self.length]] that
    [_update_array_ref] rebinds after every change of [_data] or [length]. *)
Definition array (d : t) : list Z := take (length d) (_data d).

Section WithJunk.
Variable junk : nat → Z.

(** [cl.array.empty(queue, n, dtype)] *)
Definition empty (n : nat) : list Z := junk <$> seq 0 n.

Definition set_data (data : list Z) : t :=
  {| _data := data; length := len data; alloc := len data |}.

Definition __init__ (n : nat) : t :=
  let length0 := n in
  let n := if decide (n = 0) then 16 else n in
  let d := set_data (empty n) in
  {| _data := _data d; length := length0; alloc := alloc d |}.

Definition reserve (d : t) (size : nat) : result t :=
  if decide (alloc d < size) then
    new_data ← setitem_slice (empty size) 0 (alloc d) (_data d);
    Ok {| _data := new_data; length := length d; alloc := size |}
  else Ok d.

Definition resize (d : t) (size : nat) : result t :=
  d ← reserve d size;
  Ok {| _data := _data d; length := size; alloc := alloc d |}.

Definition copy (d : t) : t := set_data (array d).

(** [self.array.fill(value)] *)
Definition fill (d : t) (value : Z) : t :=
  {| _data := fill_slice (_data d) 0 (length d) value;
     length := length d; alloc := alloc d |}.

Definition append (d : t) (value : Z) : result t :=
  d ← (if decide (alloc d ≤ length d) then reserve d (2 * length d) else Ok d);
  if decide (length d < len (_data d)) then
    Ok {| _data := <[length d := value]> (_data d);
          length := length d + 1; alloc := alloc d |}
  else Raise IndexError.

Definition extend (d : t) (cl_arr : list Z) : result t :=
  d ← (if decide (alloc d < length d + len cl_arr)
       then reserve d (length d + len cl_arr) else Ok d);
  data ← setitem_slice (_data d)
            (neg_bound (len (_data d)) (len cl_arr)) (len (_data d)) cl_arr;
  Ok {| _data := data; length := length d + len cl_arr; alloc := alloc d |}.

(** The kernel ["if_remove[indices[i]] = 1;"] over the work items of
    [indices]. *)
Definition fill_if_remove_knl (indices : list nat) (if_remove : list Z)
  : list Z :=
  foldl (λ m i, <[i := 1%Z]> m) if_remove indices.

(** The inclusive prefix sums that [GenericScanKernel] hands to the output
    statement as [item] (scan operator [a+b], neutral element [0]). *)
Fixpoint scan_from (acc : Z) (l : list Z) : list Z :=
  match l with
  | [] => []
  | x :: l => (acc + x)%Z :: scan_from (acc + x)%Z l
  end.
Definition inclusive_scan (l : list Z) : list Z := scan_from 0 l.

(** The scan kernel of [remove]: output statement
    ["if(!if_remove[i]) new_array[i - item] = array[i];"]. *)
Definition remove_knl (if_remove array new_array : list Z) : list Z :=
  let item := inclusive_scan if_remove in
  foldl (λ out i,
           if decide (if_remove !!! i = 0%Z)
           then <[i - Z.to_nat (item !!! i) := array !!! i]> out
           else out)
        new_array (seq 0 (len if_remove)).

Definition remove (d : t) (indices : list nat) : result t :=
  if decide (length d < len indices) then Raise ValueError
  else
    let if_remove := fill (__init__ (length d)) 0 in
    let new_array := copy d in
    let mask := fill_if_remove_knl indices (array if_remove) in
    let out := remove_knl mask (array d) (array new_array) in
    Ok (set_data (take (neg_bound (len out) (len indices)) out)).

Definition align (d : t) (indices : list nat) : t :=
  set_data (cl_take (array d) indices).

Definition squeeze (d : t) : t := set_data (take (length d) (_data d)).

(** [copy_values(indices, dest)] with the view [dest] given as its cells; the
    caller stores the result back through the view. *)
Definition copy_values (d : t) (indices : list nat) (dest : list Z)
  : result (list Z) :=
  setitem_slice dest 0 (len indices) (cl_take (array d) indices).

(** Writing the cells [v] of the view [self.array] back to [_data]. *)
Definition store_array (d : t) (v : list Z) : t :=
  {| _data := v ++ drop (length d) (_data d);
     length := length d; alloc := alloc d |}.

(** [self.array[start:] = x] for a scalar [x]. *)
Definition fill_array_from (d : t) (start : nat) (x : Z) : t :=
  store_array d (fill_slice (array d) start (len (array d)) x).

(** [self.array[start:] = v] for an array [v]. *)
Definition set_array_from (d : t) (start : nat) (v : list Z) : result t :=
  a ← setitem_slice (array d) start (len (array d)) v;
  Ok (store_array d a).

End WithJunk.

(** The class invariant: [alloc] is the size of [_data] and the logical
    length fits in it. *)
Definition wf (d : t) : Prop :=
  alloc d = len (_data d) ∧ length d ≤ alloc d.

End DeviceArray.

(** [for x in l: body], with the loop's state threaded through. *)
Fixpoint for_each {A S : Type} (l : list A) (body : A → S → result S) (s : S)
  : result S :=
  match l with
  | [] => Ok s
  | x :: l => s ← body x s; for_each l body s
  end.

(** ** The host particle array *)

Module ParticleArray.

(** Modelled from the spec: the class [ParticleArray] of
    [pysph/base/particle_array.py] is not among the sources. Section 6 of the
    specification gives what the host container supplies: per property a name,
    its host values and a default value, the set of output properties, and
    the constants; [opencl.py] reads exactly these attributes. *)
Record t : Type := mk {
  name : string;
  properties : list (string * list Z);
  constants : list (string * list Z);
  default_values : gmap string Z;
  output_property_arrays : list string
}.

(** Modelled from the spec: [add_property(name, type, default)], of which
    [extract_particles] uses that the result records the property's default
    value (the result has its own default-value metadata derived from the
    source). *)
Definition add_property (pa : t) (prop : string) (default : Z) : t :=
  {| name := name pa;
     properties := properties pa;
     constants := constants pa;
     default_values := <[prop := default]> (default_values pa);
     output_property_arrays := output_property_arrays pa |}.

(** Modelled from the spec: [set_name] and [set_output_arrays] store their
    argument. *)
Definition set_name (pa : t) (n : string) : t :=
  {| name := n;
     properties := properties pa;
     constants := constants pa;
     default_values := default_values pa;
     output_property_arrays := output_property_arrays pa |}.

Definition set_output_arrays (pa : t) (out : list string) : t :=
  {| name := name pa;
     properties := properties pa;
     constants := constants pa;
     default_values := default_values pa;
     output_property_arrays := out |}.

End ParticleArray.

(** ** The store of device arrays of one particle array *)

(** [d[key]] on a Python dict. *)
Definition getitem {V} (d : gmap string V) (key : string) : result V :=
  match d !! key with
  | Some v => Ok v
  | None => Raise KeyError
  end.

(** [kwargs[key]] on the keyword arguments, kept in call order. *)
Fixpoint kw_lookup {V} (key : string) (kw : list (string * V)) : option V :=
  match kw with
  | [] => None
  | (k, v) :: kw => if decide (k = key) then Some v else kw_lookup key kw
  end.

Module DeviceHelper.

(** [num_real_particles] is an attribute that only [align_particles] sets:
    [None] until then. The attribute that [setattr(self, name, ...)] binds
    for a property is the view [self._data[name].array]; every method rebinds
    it after changing the buffer, so [self.tag] is read from [_data]. *)
Record t : Type := mk {
  _particle_array : ParticleArray.t;
  _data : gmap string DeviceArray.t;
  properties : list string;
  constants : list string;
  num_real_particles : option nat
}.

(** An in-place change of the buffer object [self._data[name]]. *)
Definition set_buffer (st : t) (name : string) (arr : DeviceArray.t) : t :=
  {| _particle_array := _particle_array st;
     _data := <[name := arr]> (_data st);
     properties := properties st;
     constants := constants st;
     num_real_particles := num_real_particles st |}.

Definition _check_property (st : t) (prop : string) : result unit :=
  if decide (prop ∈ properties st) then Ok tt else Raise AttributeError.

Definition get_number_of_particles (st : t) : result nat :=
  match properties st with
  | prop0 :: _ =>
      prop0 ← getitem (_data st) prop0;
      Ok (len (DeviceArray.array prop0))
  | [] => Ok 0
  end.

Definition align (st : t) (indices : list nat) : result t :=
  for_each (properties st)
    (λ prop st,
       arr ← getitem (_data st) prop;
       Ok (set_buffer st prop (DeviceArray.align arr indices)))
    st.

Definition update_prop (st : t) (name : string) (dev_array : DeviceArray.t)
  : t :=
  {| _particle_array := _particle_array st;
     _data := <[name := dev_array]> (_data st);
     properties := if decide (name ∈ properties st) then properties st
                   else properties st ++ [name];
     constants := constants st;
     num_real_particles := num_real_particles st |}.

Definition update_const (st : t) (name : string) (dev_array : DeviceArray.t)
  : t :=
  {| _particle_array := _particle_array st;
     _data := <[name := dev_array]> (_data st);
     properties := properties st;
     constants := if decide (name ∈ constants st) then constants st
                  else constants st ++ [name];
     num_real_particles := num_real_particles st |}.

Definition get_device_array (st : t) (prop : string)
  : result (option DeviceArray.t) :=
  if decide (prop ∈ properties st ∨ prop ∈ constants st)
  then arr ← getitem (_data st) prop; Ok (Some arr)
  else Ok None.

(** [source.array] for what [get_device_array] returned: no attribute
    [array] on [None]. *)
Definition array_of (source : option DeviceArray.t) : result (list Z) :=
  match source with
  | Some arr => Ok (DeviceArray.array arr)
  | None => Raise AttributeError
  end.

Definition remove_prop (st : t) (name : string) : t :=
  {| _particle_array := _particle_array st;
     _data := delete name (_data st);
     properties := match list_find (λ p, p = name) (properties st) with
                   | Some (i, _) => delete i (properties st)
                   | None => properties st
                   end;
     constants := constants st;
     num_real_particles := num_real_particles st |}.

(** [RadixSort] with [key_expr="tags[i]"] and [sort_arg_names=["indices"]],
    called with [key_bits=2]: with the class's two bits at a time this is one
    stable pass on the digit [tags[i] & 3] of work item [i], which moves the
    entry [indices[i]]. *)
Definition radix_sort (indices : list nat) (tags : list Z) : list nat :=
  let items := zip (seq 0 (len indices)) indices in
  mjoin ((λ digit : Z,
            snd <$> filter (λ it, Z.land (tags !!! it.1) 3 = digit) items)
         <$> [0; 1; 2; 3]%Z).

(** The kernel [NUM_REAL_PARTICLES_KNL] over the work items of [tag_array],
    on the one-cell output [num_real_particles]. *)
Definition get_num_real_particles (tag_array : list Z)
  (num_real_particles : nat) : nat :=
  foldl (λ out i,
           if decide (i ≠ 0 ∧ tag_array !!! i ≠ tag_array !!! (i - 1)
                      ∧ tag_array !!! (i - 1) = 0%Z)
           then i else out)
        num_real_particles (seq 0 (len tag_array)).

Definition align_particles (st : t) : result t :=
  tag ← getitem (_data st) "tag";
  let tag_arr := DeviceArray.array tag in
  num_particles ← get_number_of_particles st;
  let indices := arange num_particles in
  let sorted_indices := radix_sort indices tag_arr in
  st ← align st sorted_indices;
  tag ← getitem (_data st) "tag";
  let tag_arr := DeviceArray.array tag in
  let num_real_particles := get_num_real_particles tag_arr 0 in
  Ok {| _particle_array := _particle_array st;
        _data := _data st;
        properties := properties st;
        constants := constants st;
        num_real_particles := Some num_real_particles |}.

Section WithJunk.
Variable junk : nat → Z.

Definition _add_prop_or_const (st : t) (name : string) (carray : list Z)
  : result t :=
  let g_ary := DeviceArray.__init__ junk (len carray) in
  (* g_ary.array.set(np_array) *)
  g_ary ← DeviceArray.set_array_from g_ary 0 carray;
  Ok (set_buffer st name g_ary).

Definition add_prop (st : t) (name : string) (carray : list Z) : result t :=
  st ← _add_prop_or_const st name carray;
  if decide (name ∈ (ParticleArray.properties (_particle_array st)).*1)
  then Ok {| _particle_array := _particle_array st;
             _data := _data st;
             properties := properties st ++ [name];
             constants := constants st;
             num_real_particles := num_real_particles st |}
  else Ok st.

Definition add_const (st : t) (name : string) (carray : list Z) : result t :=
  st ← _add_prop_or_const st name carray;
  if decide (name ∈ (ParticleArray.constants (_particle_array st)).*1)
  then Ok {| _particle_array := _particle_array st;
             _data := _data st;
             properties := properties st;
             constants := constants st ++ [name];
             num_real_particles := num_real_particles st |}
  else Ok st.

Definition __init__ (particle_array : ParticleArray.t) : result t :=
  let st := {| _particle_array := particle_array;
               _data := ∅;
               properties := [];
               constants := [];
               num_real_particles := None |} in
  st ← for_each (ParticleArray.properties particle_array)
         (λ '(prop, ary) st, add_prop st prop ary) st;
  for_each (ParticleArray.constants particle_array)
    (λ '(prop, ary) st, add_const st prop ary) st.

Definition resize (st : t) (new_size : nat) : result t :=
  for_each (properties st)
    (λ prop st,
       arr ← getitem (_data st) prop;
       arr ← DeviceArray.resize junk arr new_size;
       Ok (set_buffer st prop arr))
    st.

(** The scan kernel of [remove_particles]: output statement
    ["if(!if_remove[i]) new_indices[i - item] = i;"]. *)
Definition remove_knl (if_remove new_indices : list Z) : list Z :=
  let item := DeviceArray.inclusive_scan if_remove in
  foldl (λ out i,
           if decide (if_remove !!! i = 0%Z)
           then <[i - Z.to_nat (item !!! i) := Z.of_nat i]> out
           else out)
        new_indices (seq 0 (len if_remove)).

(** The index array [new_indices.array[:-len(indices)]] that
    [remove_particles] builds for a store of [num_particles] particles. *)
Definition kept_indices (num_particles : nat) (indices : list nat)
  : list nat :=
  let if_remove :=
    DeviceArray.fill (DeviceArray.__init__ junk num_particles) 0 in
  let new_indices := DeviceArray.__init__ junk num_particles in
  let mask :=
    DeviceArray.fill_if_remove_knl indices (DeviceArray.array if_remove) in
  (* the cells of the view [new_indices.array] once the kernel has run *)
  let new_indices := remove_knl mask (DeviceArray.array new_indices) in
  Z.to_nat <$> take (neg_bound (len new_indices) (len indices)) new_indices.

Definition remove_particles (st : t) (indices : list nat) : result t :=
  num_particles ← get_number_of_particles st;
  if decide (num_particles < len indices) then Raise ValueError
  else
    let kept := kept_indices num_particles indices in
    st ← for_each (properties st)
           (λ prop st,
              arr ← getitem (_data st) prop;
              Ok (set_buffer st prop (DeviceArray.align arr kept)))
           st;
    if decide (0 < len indices) then align_particles st else Ok st.

(** The kernel [REMOVE_INDICES_KNL] over the work items of [tag_array]; the
    slots that [atomic_inc] hands out are taken in ascending order of the
    work items ([remove_particles] uses [indices] only through the mask it
    builds from them and through their number). *)
Definition remove_indices (tag_array : list Z) (tag : Z)
  (indices : list nat) (head : nat) : list nat :=
  (foldl (λ '(indices, head) i,
            if decide (tag_array !!! i = tag)
            then (<[head := i]> indices, head + 1)
            else (indices, head))
         (indices, head) (seq 0 (len tag_array))).1.

Definition remove_tagged_particles (st : t) (tag : Z) : result t :=
  match _data st !! "tag" with
  | None => Raise AttributeError
  | Some tag_buffer =>
      let tag_array := DeviceArray.array tag_buffer in
      let remove_places := (λ x, bool_decide (x = tag)) <$> tag_array in
      let num_indices := len (filter (λ b, b = true) remove_places) in
      if decide (num_indices = 0) then Ok st
      else
        let indices := Z.to_nat <$> DeviceArray.empty junk num_indices in
        let indices := remove_indices tag_array tag indices 0 in
        remove_particles st indices
  end.

Definition add_particles (st : t) (particle_props : list (string * list Z))
  : result t :=
  let pa := _particle_array st in
  match particle_props with
  | [] => Ok st
  | (_, first_values) :: _ =>
      _ ← for_each particle_props.*1
            (λ prop _, _check_property st prop) tt;
      let num_extra_particles := len first_values in
      old_num_particles ← get_number_of_particles st;
      let new_num_particles := num_extra_particles + old_num_particles in
      st ← for_each (properties st)
             (λ prop st,
                arr ← getitem (_data st) prop;
                arr ← match kw_lookup prop particle_props with
                      | Some s_arr => DeviceArray.extend junk arr s_arr
                      | None =>
                          arr ← DeviceArray.resize junk arr new_num_particles;
                          default ← getitem (ParticleArray.default_values pa) prop;
                          Ok (DeviceArray.fill_array_from arr old_num_particles
                                default)
                      end;
                Ok (update_prop st prop arr))
             st;
      if decide (0 < num_extra_particles) then align_particles st else Ok st
  end.

Definition extend (st : t) (num_particles : Z) : result t :=
  if decide (num_particles ≤ 0)%Z then Ok st
  else
    old_size ← get_number_of_particles st;
    let new_size := old_size + Z.to_nat num_particles in
    for_each (properties st)
      (λ prop st,
         arr ← getitem (_data st) prop;
         arr ← DeviceArray.resize junk arr new_size;
         default ←
           getitem (ParticleArray.default_values (_particle_array st)) prop;
         let arr := DeviceArray.fill_array_from arr old_size default in
         Ok (update_prop st prop arr))
      st.

(** The argument of [append_parray]: a host particle array and its attribute
    [gpu], the store on the device if it has one. The two stores are distinct
    objects. *)
Record parray : Type := mk_parray {
  host : ParticleArray.t;
  gpu : option t
}.

Definition append_parray (st : t) (parray : parray) : result t :=
  parray_gpu ← match gpu parray with
               | Some g => Ok g
               | None => __init__ (host parray)
               end;
  num_extra_particles ← get_number_of_particles parray_gpu;
  if decide (num_extra_particles = 0) then Ok st
  else
    old_num_particles ← get_number_of_particles st;
    let new_num_particles := num_extra_particles + old_num_particles in
    st ← extend st (Z.of_nat num_extra_particles);
    st ← for_each (properties parray_gpu)
           (λ prop_name st,
              if decide (prop_name ∈ properties st) then
                arr ← getitem (_data st) prop_name;
                source ← get_device_array parray_gpu prop_name;
                source_array ← array_of source;
                arr ← DeviceArray.set_array_from arr old_num_particles
                        source_array;
                Ok (set_buffer st prop_name arr)
              else
                (* dtype = self._data[prop_name].dtype *)
                _ ← getitem (_data st) prop_name;
                let arr := DeviceArray.__init__ junk new_num_particles in
                default ←
                  getitem (ParticleArray.default_values
                             (_particle_array parray_gpu)) prop_name;
                let arr := DeviceArray.fill arr default in
                let st := update_prop st prop_name arr in
                dest ← getitem (_data st) prop_name;
                source ← get_device_array parray_gpu prop_name;
                source_array ← array_of source;
                dest ← DeviceArray.set_array_from dest old_num_particles
                         source_array;
                Ok (set_buffer st prop_name dest))
           st;
    st ← for_each (constants parray_gpu)
           (λ const st,
              if decide (const ∈ constants st) then Ok st
              else
                arr ← get_device_array parray_gpu const;
                match arr with
                | Some arr => Ok (update_const st const (DeviceArray.copy arr))
                | None => Raise AttributeError
                end)
           st;
    if decide (0 < num_extra_particles) then align_particles st else Ok st.

(** [extract_particles(indices, props)]; [props=None] is [None]. The
    constructor [ParticleArray()] is not among the sources: [fresh] is the
    container it returns. The result is the store [result_array.gpu], which
    holds the container [result_array] as its [_particle_array]. *)
Definition extract_particles (fresh : ParticleArray.t) (st : t)
  (indices : list nat) (props : option (list string)) : result t :=
  result_gpu ← __init__ fresh;
  let prop_names := match props with
                    | None => properties st
                    | Some props => props
                    end in
  if decide (len indices = 0) then Ok result_gpu
  else
    result_gpu ← for_each prop_names
      (λ prop_name result_gpu,
         src_arr ← getitem (_data st) prop_name;
         let dst_arr := DeviceArray.__init__ junk (len indices) in
         dst ← DeviceArray.copy_values src_arr indices
                 (DeviceArray.array dst_arr);
         let dst_arr := DeviceArray.store_array dst_arr dst in
         prop_default ←
           getitem (ParticleArray.default_values (_particle_array st))
             prop_name;
         let result_gpu :=
           {| _particle_array :=
                ParticleArray.add_property (_particle_array result_gpu)
                  prop_name prop_default;
              _data := _data result_gpu;
              properties := properties result_gpu;
              constants := constants result_gpu;
              num_real_particles := num_real_particles result_gpu |} in
         Ok (update_prop result_gpu prop_name dst_arr))
      result_gpu;
    result_gpu ← for_each (constants st)
      (λ const result_gpu,
         arr ← getitem (_data st) const;
         Ok (update_const result_gpu const (DeviceArray.copy arr)))
      result_gpu;
    result_gpu ← align_particles result_gpu;
    let output_arrays :=
      match props with
      | None => ParticleArray.output_property_arrays (_particle_array st)
      | Some props =>
          filter (λ p, p ∈ ParticleArray.output_property_arrays
                             (_particle_array st))
                 (remove_dups props)
      end in
    Ok {| _particle_array :=
            ParticleArray.set_output_arrays
              (ParticleArray.set_name (_particle_array result_gpu)
                 (ParticleArray.name (_particle_array st)))
              output_arrays;
          _data := _data result_gpu;
          properties := properties result_gpu;
          constants := constants result_gpu;
          num_real_particles := num_real_particles result_gpu |}.

End WithJunk.

End DeviceHelper.

(** The attribute [self.<name>] of a store: the view of the buffer
    registered under [name]. *)
Definition getattr (st : DeviceHelper.t) (name : string) : option (list Z) :=
  DeviceArray.array <$> DeviceHelper._data st !! name.

(** * Properties *)

(** ** Exceptions and loops *)

Lemma is_Ok_not_raises {A} (r : result A) : is_Ok r ↔ ¬ raises r.
Proof.
  unfold is_Ok, raises. destruct r as [a|e]; split.
  - intros _ [e' He]. discriminate He.
  - intros _. by exists a.
  - intros [a Ha]. discriminate Ha.
  - intros Hn. destruct Hn. by exists e.
Qed.

Lemma bind_Ok {A B} (m : result A) (f : A → result B) (b : B) :
  m ≫= f = Ok b ↔ ∃ a, m = Ok a ∧ f a = Ok b.
Proof.
  destruct m as [a|e]; simpl; split.
  - intros Hf. by exists a.
  - by intros (a' & [= <-] & Hf).
  - discriminate.
  - by intros (a' & [=] & _).
Qed.

(** A loop keeps an invariant that may mention the items already handled. *)
Lemma for_each_inv {A S} (I : list A → S → Prop) (body : A → S → result S)
    (l : list A) (s s' : S) :
  I [] s →
  (∀ done x rest s1 s2,
     l = done ++ x :: rest → I done s1 → body x s1 = Ok s2 →
     I (done ++ [x]) s2) →
  for_each l body s = Ok s' →
  I l s'.
Proof.
  intros H0 Hstep.
  assert (Hgen : ∀ todo done s1,
             l = done ++ todo → I done s1 →
             for_each todo body s1 = Ok s' → I l s').
  { induction todo as [|x todo IH]; intros done s1 Hl Hd Hrun.
    - simpl in Hrun. injection Hrun as <-. by rewrite Hl, app_nil_r.
    - simpl in Hrun. apply bind_Ok in Hrun as (s2 & Hb & Hrun).
      apply (IH (done ++ [x]) s2); [|by eapply Hstep|done].
      by rewrite <- app_assoc. }
  intros Hrun. by apply (Hgen l [] s).
Qed.

(** A loop whose body succeeds under the invariant runs to its end. *)
Lemma for_each_ok {A S} (I : list A → S → Prop) (body : A → S → result S)
    (l : list A) (s : S) :
  I [] s →
  (∀ done x rest s1,
     l = done ++ x :: rest → I done s1 →
     ∃ s2, body x s1 = Ok s2 ∧ I (done ++ [x]) s2) →
  ∃ s', for_each l body s = Ok s' ∧ I l s'.
Proof.
  intros H0 Hstep.
  assert (Hgen : ∀ todo done s1,
             l = done ++ todo → I done s1 →
             ∃ s', for_each todo body s1 = Ok s' ∧ I l s').
  { induction todo as [|x todo IH]; intros done s1 Hl Hd.
    - exists s1. by rewrite Hl, app_nil_r.
    - destruct (Hstep done x todo s1) as (s2 & Hb & Hd2); [done..|].
      destruct (IH (done ++ [x]) s2) as (s' & Hrun & Hs'); [|done|].
      { by rewrite <- app_assoc. }
      exists s'. simpl. by rewrite Hb. }
  by apply (Hgen l [] s).
Qed.

(** ** Slices *)

Lemma setitem_slice_length a start stop v a' :
  setitem_slice a start stop v = Ok a' → length a' = length a.
Proof.
  unfold setitem_slice. case_decide as Hv; [|discriminate].
  intros [= <-]. rewrite !length_app, length_take, length_drop. lia.
Qed.

Lemma setitem_slice_from a start v :
  start ≤ length a → length v = length a - start →
  setitem_slice a start (length a) v = Ok (take start a ++ v).
Proof.
  intros Hs Hv. unfold setitem_slice.
  rewrite Nat.min_id, (Nat.min_l start) by done.
  rewrite decide_True by done. by rewrite drop_all, app_nil_r.
Qed.

Lemma setitem_slice_upto a stop v :
  stop ≤ length a → length v = stop →
  setitem_slice a 0 stop v = Ok (v ++ drop stop a).
Proof.
  intros Hs Hv. unfold setitem_slice.
  rewrite (Nat.min_l stop) by done. rewrite Nat.min_0_l, Nat.sub_0_r.
  by rewrite decide_True by done.
Qed.

Lemma fill_slice_length a start stop x :
  length (fill_slice a start stop x) = length a.
Proof.
  unfold fill_slice.
  rewrite !length_app, length_take, length_replicate, length_drop. lia.
Qed.

Lemma fill_slice_from a start x :
  start ≤ length a →
  fill_slice a start (length a) x
  = take start a ++ replicate (length a - start) x.
Proof.
  intros Hs. unfold fill_slice.
  rewrite Nat.min_id, (Nat.min_l start) by done.
  by rewrite drop_all, app_nil_r.
Qed.

Lemma length_cl_take a indices : length (cl_take a indices) = length indices.
Proof. unfold cl_take. by rewrite length_fmap. Qed.

(** ** Buffers: the class invariant *)

Section DeviceArrayFacts.
Variable junk : nat → Z.

Lemma length_empty n : length (DeviceArray.empty junk n) = n.
Proof. unfold DeviceArray.empty. by rewrite length_fmap, length_seq. Qed.

Lemma length_array d :
  DeviceArray.wf d → length (DeviceArray.array d) = DeviceArray.length d.
Proof.
  intros [Ha Hl]. unfold DeviceArray.array. rewrite length_take. lia.
Qed.

Lemma wf_set_data l : DeviceArray.wf (DeviceArray.set_data l).
Proof. by split. Qed.

Lemma array_set_data l : DeviceArray.array (DeviceArray.set_data l) = l.
Proof. unfold DeviceArray.array. simpl. by rewrite take_ge. Qed.

Lemma wf_init n : DeviceArray.wf (DeviceArray.__init__ junk n).
Proof.
  unfold DeviceArray.__init__, DeviceArray.wf. simpl.
  rewrite length_empty. split; [done|]. case_decide; lia.
Qed.

Lemma wf_align d indices : DeviceArray.wf (DeviceArray.align d indices).
Proof. apply wf_set_data. Qed.

Lemma length_align d indices :
  DeviceArray.length (DeviceArray.align d indices) = length indices.
Proof. simpl. apply length_cl_take. Qed.

Lemma wf_fill d x : DeviceArray.wf d → DeviceArray.wf (DeviceArray.fill d x).
Proof.
  intros [Ha Hl]. unfold DeviceArray.fill, DeviceArray.wf. simpl.
  by rewrite fill_slice_length.
Qed.

Lemma reserve_spec d size :
  DeviceArray.wf d →
  ∃ d', DeviceArray.reserve junk d size = Ok d' ∧
        DeviceArray.wf d' ∧
        DeviceArray.length d' = DeviceArray.length d ∧
        DeviceArray.alloc d' = DeviceArray.alloc d `max` size ∧
        DeviceArray._data d'
        = DeviceArray._data d
            ++ drop (DeviceArray.alloc d) (DeviceArray.empty junk size).
Proof.
  intros [Ha Hl]. unfold DeviceArray.reserve. case_decide as Hs.
  - rewrite setitem_slice_upto by (rewrite ?length_empty; lia). simpl.
    eexists. split; [done|]. unfold DeviceArray.wf. simpl.
    rewrite length_app, length_drop, length_empty. repeat split; lia.
  - exists d. rewrite drop_ge by (rewrite length_empty; lia).
    rewrite app_nil_r. repeat split; [done|done|lia].
Qed.

Lemma resize_spec d size :
  DeviceArray.wf d →
  ∃ d', DeviceArray.resize junk d size = Ok d' ∧
        DeviceArray.wf d' ∧
        DeviceArray.length d' = size ∧
        DeviceArray.alloc d' = DeviceArray.alloc d `max` size ∧
        DeviceArray._data d'
        = DeviceArray._data d
            ++ drop (DeviceArray.alloc d) (DeviceArray.empty junk size).
Proof.
  intros Hwf. destruct (reserve_spec d size Hwf) as (d1 & Hr & [Ha Hl] & ? & Hc & Hd).
  unfold DeviceArray.resize. rewrite Hr. simpl. eexists. split; [done|].
  unfold DeviceArray.wf. simpl. repeat split; [done|lia|done|done].
Qed.

Lemma wf_store_array d v :
  DeviceArray.wf d → length v = DeviceArray.length d →
  DeviceArray.wf (DeviceArray.store_array d v).
Proof.
  intros [Ha Hl] Hv. unfold DeviceArray.store_array, DeviceArray.wf. simpl.
  rewrite length_app, length_drop. lia.
Qed.

Lemma array_store_array d v :
  length v = DeviceArray.length d →
  DeviceArray.array (DeviceArray.store_array d v) = v.
Proof.
  intros Hv. unfold DeviceArray.array, DeviceArray.store_array. simpl.
  by rewrite <- Hv, take_app_length.
Qed.

Lemma fill_array_from_spec d start x :
  DeviceArray.wf d → start ≤ DeviceArray.length d →
  DeviceArray.wf (DeviceArray.fill_array_from d start x) ∧
  DeviceArray.length (DeviceArray.fill_array_from d start x)
  = DeviceArray.length d ∧
  DeviceArray.array (DeviceArray.fill_array_from d start x)
  = take start (DeviceArray.array d)
      ++ replicate (DeviceArray.length d - start) x.
Proof.
  intros Hwf Hs. pose proof (length_array d Hwf) as Hlen.
  unfold DeviceArray.fill_array_from. split; [|split; [done|]].
  - apply wf_store_array; [done|]. by rewrite fill_slice_length.
  - rewrite array_store_array by (by rewrite fill_slice_length).
    rewrite fill_slice_from by lia. by rewrite Hlen.
Qed.

Lemma wf_fill_array_from d start x :
  DeviceArray.wf d → DeviceArray.wf (DeviceArray.fill_array_from d start x).
Proof.
  intros Hwf. apply wf_store_array; [done|].
  rewrite fill_slice_length. by apply length_array.
Qed.

Lemma set_array_from_wf d start v d' :
  DeviceArray.wf d → DeviceArray.set_array_from d start v = Ok d' →
  DeviceArray.wf d' ∧ DeviceArray.length d' = DeviceArray.length d.
Proof.
  intros Hwf. unfold DeviceArray.set_array_from.
  intros (a & Ha & [= <-])%bind_Ok. split; [|done].
  apply wf_store_array; [done|].
  rewrite (setitem_slice_length _ _ _ _ _ Ha). by apply length_array.
Qed.

Lemma set_array_from_spec d start v :
  DeviceArray.wf d → start ≤ DeviceArray.length d →
  length v = DeviceArray.length d - start →
  ∃ d', DeviceArray.set_array_from d start v = Ok d' ∧
        DeviceArray.wf d' ∧
        DeviceArray.length d' = DeviceArray.length d ∧
        DeviceArray.array d' = take start (DeviceArray.array d) ++ v.
Proof.
  intros Hwf Hs Hv. pose proof (length_array d Hwf) as Hlen.
  unfold DeviceArray.set_array_from.
  rewrite setitem_slice_from by lia. simpl. eexists. split; [done|].
  assert (length (take start (DeviceArray.array d) ++ v)
          = DeviceArray.length d) as Hl.
  { rewrite length_app, length_take. lia. }
  split; [by apply wf_store_array|]. split; [done|].
  by apply array_store_array.
Qed.

End DeviceArrayFacts.

(** ** Buffers: [append], [extend] and [resize] *)

Section Growth.
Variable junk : nat → Z.

Lemma append_spec d value :
  DeviceArray.wf d → 0 < DeviceArray.alloc d →
  ∃ d', DeviceArray.append junk d value = Ok d' ∧
        DeviceArray.wf d' ∧
        DeviceArray.length d' = DeviceArray.length d + 1 ∧
        DeviceArray.alloc d'
        = (if decide (DeviceArray.alloc d ≤ DeviceArray.length d)
           then 2 * DeviceArray.length d else DeviceArray.alloc d) ∧
        DeviceArray.array d' = DeviceArray.array d ++ [value].
Proof.
  intros Hwf Hpos. unfold DeviceArray.append.
  assert (∃ d1, (if decide (DeviceArray.alloc d ≤ DeviceArray.length d)
                 then DeviceArray.reserve junk d (2 * DeviceArray.length d)
                 else Ok d) = Ok d1 ∧
                DeviceArray.wf d1 ∧
                DeviceArray.length d1 = DeviceArray.length d ∧
                DeviceArray.length d1 < DeviceArray.alloc d1 ∧
                DeviceArray.alloc d1
                = (if decide (DeviceArray.alloc d ≤ DeviceArray.length d)
                   then 2 * DeviceArray.length d else DeviceArray.alloc d) ∧
                take (DeviceArray.length d) (DeviceArray._data d1)
                = DeviceArray.array d) as (d1 & -> & Hwf1 & Hl1 & Hlt & Hal & Htk).
  { destruct Hwf as [Ha Hl]. case_decide as Hfull.
    - destruct (reserve_spec junk d (2 * DeviceArray.length d))
        as (d1 & Hr & Hwf1 & Hl1 & Ha1 & Hd1); [done|].
      destruct Hwf1 as [Hwa Hwl].
      exists d1. split_and!; [done|by split|done|lia|lia|].
      rewrite Hd1, take_app_le by lia. done.
    - exists d. split_and!; [done|by split|done|lia|done|done]. }
  simpl. destruct Hwf1 as [Ha1 Hle1].
  rewrite decide_True by lia. eexists. split; [done|].
  unfold DeviceArray.wf, DeviceArray.array. simpl.
  rewrite length_insert. repeat split; [done|lia|lia|done|].
  rewrite Hl1, Nat.add_1_r.
  rewrite (take_S_r _ _ value)
    by (apply list_lookup_insert_eq; lia).
  by rewrite take_insert_ge, Htk by done.
Qed.

Lemma extend_spec d cl_arr :
  DeviceArray.wf d → cl_arr ≠ [] →
  ∃ d', DeviceArray.extend junk d cl_arr = Ok d' ∧
        DeviceArray.wf d' ∧
        DeviceArray.length d' = DeviceArray.length d + length cl_arr ∧
        (DeviceArray.alloc d ≤ DeviceArray.length d + length cl_arr →
         DeviceArray.alloc d' = DeviceArray.length d' ∧
         DeviceArray.array d' = DeviceArray.array d ++ cl_arr) ∧
        (DeviceArray.length d + length cl_arr < DeviceArray.alloc d →
         DeviceArray.array d'
         = take (DeviceArray.length d + length cl_arr)
             (take (DeviceArray.alloc d - length cl_arr) (DeviceArray._data d)
                ++ cl_arr)).
Proof.
  intros Hwf Hne. set (k := length cl_arr).
  assert (0 < k) as Hk by (destruct cl_arr; [done|simpl in k; lia]).
  unfold DeviceArray.extend. fold k.
  destruct (reserve_spec junk d (DeviceArray.length d + k))
    as (d1 & Hr & [Ha1 Hle1] & Hl1 & Hal1 & Hd1); [done|].
  destruct Hwf as [Ha Hl].
  assert (∃ d2, (if decide (DeviceArray.alloc d < DeviceArray.length d + k)
                 then DeviceArray.reserve junk d (DeviceArray.length d + k)
                 else Ok d) = Ok d2 ∧
                DeviceArray.length d2 = DeviceArray.length d ∧
                DeviceArray.alloc d2 = length (DeviceArray._data d2) ∧
                DeviceArray.alloc d2
                = DeviceArray.alloc d `max` (DeviceArray.length d + k) ∧
                take (DeviceArray.alloc d) (DeviceArray._data d2)
                = DeviceArray._data d)
    as (d2 & -> & Hl2 & Ha2 & Hal2 & Htk).
  { case_decide.
    - exists d1. split_and!; [done..|].
      by rewrite Hd1, Ha, take_app_length.
    - exists d. split_and!; [done|done|done|lia|]. by rewrite Ha, take_ge. }
  simpl. unfold neg_bound. rewrite decide_False by lia.
  rewrite setitem_slice_from by lia. simpl. eexists. split; [done|].
  unfold DeviceArray.wf, DeviceArray.array. simpl.
  rewrite length_app, length_take. fold k.
  split_and!; [lia|lia|lia|..].
  - intros Hfit. split; [lia|]. rewrite Hl2.
    replace (length (DeviceArray._data d2) - k) with (DeviceArray.length d)
      by lia.
    rewrite take_app_ge; rewrite length_take; [|lia].
    replace (DeviceArray.length d + k
             - DeviceArray.length d `min` length (DeviceArray._data d2))
      with k by lia.
    unfold k. rewrite firstn_all. f_equal.
    rewrite <- Htk, take_take. f_equal. lia.
  - intros Hspare. rewrite Hl2. do 2 f_equal.
    rewrite <- Htk, take_take. f_equal. lia.
Qed.

Lemma extend_wf d cl_arr d' :
  DeviceArray.wf d → DeviceArray.extend junk d cl_arr = Ok d' →
  DeviceArray.wf d' ∧
  DeviceArray.length d' = DeviceArray.length d + length cl_arr ∧
  DeviceArray.alloc d ≤ DeviceArray.alloc d'.
Proof.
  intros Hwf. unfold DeviceArray.extend.
  destruct (reserve_spec junk d (DeviceArray.length d + length cl_arr))
    as (d1 & Hr & [Ha1 Hle1] & Hl1 & Hal1 & _); [done|].
  destruct Hwf as [Ha Hl].
  intros (d2 & Hd2 & (data & Hset & [= <-])%bind_Ok)%bind_Ok.
  apply setitem_slice_length in Hset.
  unfold DeviceArray.wf. simpl. rewrite Hset.
  rewrite Hr in Hd2. case_decide; simplify_eq; lia.
Qed.

(** The calls of the capacity invariant. *)
Inductive buffer_call : Type :=
  | Append (value : Z)
  | Extend (cl_arr : list Z)
  | Resize (size : nat).

Definition call (c : buffer_call) (d : DeviceArray.t) : result DeviceArray.t :=
  match c with
  | Append value => DeviceArray.append junk d value
  | Extend cl_arr => DeviceArray.extend junk d cl_arr
  | Resize size => DeviceArray.resize junk d size
  end.

Lemma call_wf c d d' :
  DeviceArray.wf d → call c d = Ok d' →
  DeviceArray.wf d' ∧ DeviceArray.alloc d ≤ DeviceArray.alloc d'.
Proof.
  intros Hwf. destruct c as [value|cl_arr|size]; simpl.
  - destruct (decide (0 < DeviceArray.alloc d)) as [Hpos|Hzero].
    + destruct (append_spec d value Hwf Hpos) as (d1 & -> & Hwf1 & Hl & Hal & _).
      intros [= <-]. split; [done|]. rewrite Hal. destruct Hwf.
      case_decide; lia.
    + unfold DeviceArray.append. destruct Hwf as [Ha Hl].
      rewrite decide_True by lia. unfold DeviceArray.reserve.
      rewrite decide_False by lia. simpl. rewrite decide_False by lia. done.
  - intros Hrun. destruct (extend_wf d cl_arr d' Hwf Hrun) as (? & ? & ?).
    done.
  - destruct (resize_spec junk d size Hwf) as (d1 & -> & Hwf1 & _ & Hal & _).
    intros [= <-]. split; [done|]. lia.
Qed.

(** After any sequence of [append], [extend] and [resize] calls that ran to
    the end, [0 ≤ length ≤ alloc] holds and the capacity did not shrink. *)
Lemma capacity_invariant calls d d' :
  DeviceArray.wf d → for_each calls call d = Ok d' →
  DeviceArray.wf d' ∧ DeviceArray.alloc d ≤ DeviceArray.alloc d'.
Proof.
  intros Hwf Hrun.
  apply (for_each_inv
           (λ _ d1, DeviceArray.wf d1
                    ∧ DeviceArray.alloc d ≤ DeviceArray.alloc d1)
           call calls d d'); [done| |done].
  intros _ c _ d1 d2 _ [Hwf1 Hle] Hc.
  destruct (call_wf c d1 d2 Hwf1 Hc). split; [done|lia].
Qed.

(** On a buffer made by the constructor, and after any calls on it, [append]
    succeeds: the constructor never allocates less than one cell. *)
Lemma append_after_init n calls d value :
  for_each calls call (DeviceArray.__init__ junk n) = Ok d →
  ∃ d', DeviceArray.append junk d value = Ok d' ∧
        DeviceArray.length d' = DeviceArray.length d + 1 ∧
        DeviceArray.array d' = DeviceArray.array d ++ [value].
Proof.
  intros Hrun.
  destruct (capacity_invariant calls _ d (wf_init junk n) Hrun) as [Hwf Hal].
  assert (0 < DeviceArray.alloc d) as Hpos.
  { revert Hal. unfold DeviceArray.__init__. simpl. rewrite length_empty.
    case_decide; lia. }
  destruct (append_spec d value Hwf Hpos) as (d' & ? & ? & ? & ? & ?).
  by exists d'.
Qed.

End Growth.

(** ** Buffers: the claims on [append], [extend] and [remove] *)

(** C9. The specification lets [append] always succeed, growing from a
    nonzero floor when the capacity is zero. [append] has no such floor: it
    reserves [2 * length], which is [0] on a buffer of capacity zero, and then
    writes at index [0] of an array without cells. The copy of a freshly
    constructed empty buffer is such a buffer (only the constructor rounds a
    zero size up to 16 cells); it satisfies [0 ≤ length ≤ alloc], and
    [append] on it raises [IndexError]. *)
Theorem append_zero_capacity (junk : nat → Z) (value : Z) :
  let d := DeviceArray.copy (DeviceArray.__init__ junk 0) in
  DeviceArray.wf d ∧
  DeviceArray.length d = 0 ∧
  DeviceArray.alloc d = 0 ∧
  DeviceArray.append junk d value = Raise IndexError.
Proof. simpl. split_and!; done. Qed.

(** The same after [remove] has taken the only element of a buffer. *)
Lemma append_after_removing_all (junk : nat → Z) (value : Z) :
  ∃ d,
    DeviceArray.remove junk (DeviceArray.set_data [1%Z]) [0] = Ok d ∧
    DeviceArray.alloc d = 0 ∧
    DeviceArray.append junk d value = Raise IndexError.
Proof. eexists. split_and!; reflexivity. Qed.

(** C3. When the buffer has more spare capacity than the new values need,
    [extend] writes the values at the end of the allocation
    ([self._data[-len(cl_arr):]]), not after the logical end. A buffer of four
    cells filled with 7 and resized to length 1 shows [7]; after
    [extend([1, 2])] it has length 3 and shows [7; 7; 1], where the claim
    has [7; 1; 2]. *)
Theorem extend_spare_capacity (junk : nat → Z) :
  ∃ d d',
    DeviceArray.resize junk
      (DeviceArray.fill (DeviceArray.__init__ junk 4) 7) 1 = Ok d ∧
    DeviceArray.array d = [7%Z] ∧
    DeviceArray.alloc d = 4 ∧
    DeviceArray.extend junk d [1; 2]%Z = Ok d' ∧
    DeviceArray.length d' = 3 ∧
    DeviceArray.array d' = [7; 7; 1]%Z ∧
    DeviceArray.array d' ≠ (DeviceArray.array d ++ [1; 2])%Z.
Proof. do 2 eexists. split_and!; try reflexivity. discriminate. Qed.

(** The same on a freshly constructed empty buffer, which has 16 cells: the
    two values land in the cells 14 and 15, and the buffer shows its first
    two, uninitialised, cells. *)
Lemma extend_fresh_buffer (junk : nat → Z) :
  ∃ d',
    DeviceArray.extend junk (DeviceArray.__init__ junk 0) [1; 2]%Z = Ok d' ∧
    DeviceArray.length d' = 2 ∧
    DeviceArray.array d' = [junk 0; junk 1] ∧
    drop 14 (DeviceArray._data d') = [1; 2]%Z.
Proof. eexists. split_and!; reflexivity. Qed.

(** C2. With no index to remove, [remove] keeps
    [new_array.array[:-len(indices)]], which is [new_array.array[:0]]: every
    element is dropped, whatever the buffer held, where the claim keeps the
    buffer as it was. *)
Theorem remove_no_indices (junk : nat → Z) (d : DeviceArray.t) :
  DeviceArray.remove junk d [] = Ok (DeviceArray.set_data []).
Proof.
  unfold DeviceArray.remove. rewrite decide_False by (simpl; lia). done.
Qed.

Example remove_nothing_from_123 (junk : nat → Z) :
  ∃ d', DeviceArray.remove junk (DeviceArray.set_data [1; 2; 3]%Z) [] = Ok d' ∧
        DeviceArray.length d' = 0 ∧ DeviceArray.array d' = [].
Proof. eexists. split_and!; reflexivity. Qed.

Lemma remove_raises_iff (junk : nat → Z) d indices :
  (DeviceArray.remove junk d indices = Raise ValueError
   ↔ DeviceArray.length d < length indices) ∧
  (is_Ok (DeviceArray.remove junk d indices)
   ↔ length indices ≤ DeviceArray.length d).
Proof.
  unfold DeviceArray.remove. case_decide as Hlen.
  - split; [done|]. split; [intros [? [=]]|lia].
  - split; [split; [done|lia]|]. split; [lia|]. intros _. by eexists.
Qed.

(** ** Stores: loops over the properties *)

(** What a loop over the buffers leaves alone. *)
Definition same_fields (st s : DeviceHelper.t) : Prop :=
  DeviceHelper._particle_array s = DeviceHelper._particle_array st ∧
  DeviceHelper.properties s = DeviceHelper.properties st ∧
  DeviceHelper.constants s = DeviceHelper.constants st ∧
  DeviceHelper.num_real_particles s = DeviceHelper.num_real_particles st.

(** Every property has a buffer in [_data]. *)
Definition registered (st : DeviceHelper.t) : Prop :=
  Forall (λ p, is_Some (DeviceHelper._data st !! p))
         (DeviceHelper.properties st).

Lemma same_fields_refl st : same_fields st st.
Proof. done. Qed.

Lemma same_fields_trans st s1 s2 :
  same_fields st s1 → same_fields s1 s2 → same_fields st s2.
Proof.
  intros (? & ? & ? & ?) (? & ? & ? & ?). unfold same_fields.
  split_and!; congruence.
Qed.

Lemma same_fields_set_buffer st s p arr :
  same_fields st s → same_fields st (DeviceHelper.set_buffer s p arr).
Proof. done. Qed.

Lemma update_prop_registered s p arr :
  p ∈ DeviceHelper.properties s →
  DeviceHelper.update_prop s p arr = DeviceHelper.set_buffer s p arr.
Proof.
  intros Hp. unfold DeviceHelper.update_prop, DeviceHelper.set_buffer.
  by rewrite decide_True.
Qed.

Lemma getitem_Some {V} (d : gmap string V) key v :
  d !! key = Some v → getitem d key = Ok v.
Proof. unfold getitem. by intros ->. Qed.

Lemma getitem_Ok {V} (d : gmap string V) key v :
  getitem d key = Ok v → d !! key = Some v.
Proof. unfold getitem. by destruct (d !! key); intros [=]; subst. Qed.

Section BufferLoops.
Variable g : string → DeviceArray.t → result DeviceArray.t.
Variable body : string → DeviceHelper.t → result DeviceHelper.t.
Variable ps : list string.
Variable st : DeviceHelper.t.

Hypothesis body_eq : ∀ p s,
  p ∈ ps → DeviceHelper.properties s = DeviceHelper.properties st →
  body p s = (arr ← getitem (DeviceHelper._data s) p;
              arr' ← g p arr;
              Ok (DeviceHelper.set_buffer s p arr')).
Hypothesis ps_NoDup : NoDup ps.

(** The state of the loop when the properties [done] have been handled. *)
Definition loop_inv (done : list string) (s : DeviceHelper.t) : Prop :=
  same_fields st s ∧
  (∀ p, p ∈ done →
        ∃ a a', DeviceHelper._data st !! p = Some a ∧ g p a = Ok a' ∧
                DeviceHelper._data s !! p = Some a') ∧
  (∀ q, q ∉ done → DeviceHelper._data s !! q = DeviceHelper._data st !! q).

Lemma loop_inv_nil : loop_inv [] st.
Proof.
  split; [done|]. split; [|done]. intros p Hp. by apply elem_of_nil in Hp.
Qed.

Lemma loop_inv_step done x rest s1 s2 :
  ps = done ++ x :: rest → loop_inv done s1 → body x s1 = Ok s2 →
  loop_inv (done ++ [x]) s2.
Proof.
  intros Hps (Hsame & Hdone & Hrest) Hb.
  assert (x ∉ done) as Hx.
  { rewrite Hps in ps_NoDup. apply NoDup_app in ps_NoDup as (_ & Hd & _).
    intros Hin. apply (Hd x Hin). by left. }
  rewrite body_eq in Hb; [|rewrite Hps; set_solver|apply Hsame].
  apply bind_Ok in Hb as (arr & Harr%getitem_Ok & Hb).
  apply bind_Ok in Hb as (arr' & Hg & [= <-]).
  rewrite Hrest in Harr by done.
  split; [by apply same_fields_set_buffer|]. split.
  - intros p [Hp| ->%list_elem_of_singleton]%elem_of_app.
    + destruct (Hdone p Hp) as (a & a' & ? & ? & ?). exists a, a'.
      split_and!; [done..|]. simpl. rewrite lookup_insert_ne; [done|].
      by intros ->.
    + exists arr, arr'. split_and!; [done..|]. simpl.
      by rewrite lookup_insert_eq.
  - intros q Hq. simpl. rewrite lookup_insert_ne by set_solver.
    apply Hrest. set_solver.
Qed.

Lemma buffer_loop_inv st' :
  for_each ps body st = Ok st' → loop_inv ps st'.
Proof.
  apply for_each_inv; [apply loop_inv_nil|].
  intros done x rest s1 s2. apply loop_inv_step.
Qed.

Lemma buffer_loop_ok :
  (∀ p, p ∈ ps →
        ∃ a a', DeviceHelper._data st !! p = Some a ∧ g p a = Ok a') →
  ∃ st', for_each ps body st = Ok st' ∧ loop_inv ps st'.
Proof.
  intros Hg. apply for_each_ok; [apply loop_inv_nil|].
  intros done x rest s1 Hps Hinv.
  assert (∃ s2, body x s1 = Ok s2) as [s2 Hb].
  { destruct Hinv as (Hsame & Hdone & Hrest).
    assert (x ∉ done) as Hx.
    { rewrite Hps in ps_NoDup. apply NoDup_app in ps_NoDup as (_ & Hd & _).
      intros Hin. apply (Hd x Hin). by left. }
    assert (x ∈ ps) as Hin by (rewrite Hps; set_solver).
    destruct (Hg x Hin) as (a & a' & Ha & Ha').
    rewrite body_eq; [|done|apply Hsame].
    rewrite (getitem_Some _ _ a) by (by rewrite Hrest). simpl.
    rewrite Ha'. simpl. by eexists. }
  exists s2. split; [done|]. by eapply loop_inv_step.
Qed.

End BufferLoops.

(** A loop whose body replaces each buffer by a total function of it runs to
    its end when every property has a buffer, and neither adds nor drops a
    name of [_data]. *)
Lemma total_loop_ok (f : string → DeviceArray.t → DeviceArray.t)
    (body : string → DeviceHelper.t → result DeviceHelper.t) ps st :
  (∀ p s, body p s = (arr ← getitem (DeviceHelper._data s) p;
                      Ok (DeviceHelper.set_buffer s p (f p arr)))) →
  Forall (λ p, is_Some (DeviceHelper._data st !! p)) ps →
  ∃ st', for_each ps body st = Ok st' ∧ same_fields st st' ∧
         (∀ q, is_Some (DeviceHelper._data st' !! q)
               ↔ is_Some (DeviceHelper._data st !! q)) ∧
         (∀ p, p ∈ ps → ∃ a, DeviceHelper._data st' !! p = Some (f p a)) ∧
         (∀ q, q ∉ ps →
               DeviceHelper._data st' !! q = DeviceHelper._data st !! q).
Proof.
  intros Hbody Hreg.
  apply (for_each_ok
           (λ done s, same_fields st s ∧
              (∀ q, is_Some (DeviceHelper._data s !! q)
                    ↔ is_Some (DeviceHelper._data st !! q)) ∧
              (∀ p, p ∈ done →
                    ∃ a, DeviceHelper._data s !! p = Some (f p a)) ∧
              (∀ q, q ∉ ps →
                    DeviceHelper._data s !! q
                    = DeviceHelper._data st !! q))).
  { split_and!; [done|done| |done].
    intros p Hp. by apply elem_of_nil in Hp. }
  intros done x rest s1 Hps (Hsame & Hdom & Hdone & Hframe).
  assert (x ∈ ps) as Hx by (rewrite Hps; apply elem_of_app; right; by left).
  assert (is_Some (DeviceHelper._data s1 !! x)) as [arr Harr].
  { apply Hdom. rewrite Forall_forall in Hreg. by apply Hreg. }
  rewrite Hbody, (getitem_Some _ _ arr) by done. simpl.
  eexists. split; [done|]. split_and!; [done| | |].
  - intros q. simpl. destruct (decide (x = q)) as [<-|Hne].
    + rewrite lookup_insert_eq. split; [intros _|by eauto].
      apply Hdom. by eexists.
    + by rewrite lookup_insert_ne.
  - intros p Hp. simpl. destruct (decide (x = p)) as [<-|Hne].
    + rewrite lookup_insert_eq. by eexists.
    + rewrite lookup_insert_ne by done. apply Hdone.
      by apply elem_of_app in Hp as [Hp| ->%list_elem_of_singleton].
  - intros q Hq. simpl. rewrite lookup_insert_ne by (by intros ->).
    by apply Hframe.
Qed.

Lemma get_number_of_particles_ok st :
  registered st → is_Ok (DeviceHelper.get_number_of_particles st).
Proof.
  unfold registered, DeviceHelper.get_number_of_particles.
  destruct (DeviceHelper.properties st) as [|p ps]; [by eexists|].
  intros [arr Harr]%Forall_cons_1%proj1.
  rewrite (getitem_Some _ _ arr) by done. by eexists.
Qed.

Lemma align_ok st indices :
  registered st →
  ∃ st', DeviceHelper.align st indices = Ok st' ∧ same_fields st st' ∧
         (∀ q, is_Some (DeviceHelper._data st' !! q)
               ↔ is_Some (DeviceHelper._data st !! q)) ∧
         (∀ p, p ∈ DeviceHelper.properties st →
               ∃ a, DeviceHelper._data st' !! p
                    = Some (DeviceArray.align a indices)) ∧
         (∀ q, q ∉ DeviceHelper.properties st →
               DeviceHelper._data st' !! q = DeviceHelper._data st !! q).
Proof.
  intros Hreg. unfold DeviceHelper.align.
  by apply (total_loop_ok (λ _ arr, DeviceArray.align arr indices)).
Qed.

Lemma registered_same_fields st st' :
  same_fields st st' →
  (∀ q, is_Some (DeviceHelper._data st' !! q)
        ↔ is_Some (DeviceHelper._data st !! q)) →
  registered st → registered st'.
Proof.
  intros (_ & Hp & _) Hdom. unfold registered. rewrite Hp.
  intros Hreg. eapply Forall_impl; [exact Hreg|]. intros p. apply Hdom.
Qed.

Lemma align_particles_ok st :
  registered st → is_Some (DeviceHelper._data st !! "tag") →
  ∃ st', DeviceHelper.align_particles st = Ok st' ∧
         DeviceHelper._particle_array st' = DeviceHelper._particle_array st ∧
         DeviceHelper.properties st' = DeviceHelper.properties st ∧
         DeviceHelper.constants st' = DeviceHelper.constants st ∧
         (∀ q, is_Some (DeviceHelper._data st' !! q)
               ↔ is_Some (DeviceHelper._data st !! q)) ∧
         (∀ q, q ∉ DeviceHelper.properties st →
               DeviceHelper._data st' !! q = DeviceHelper._data st !! q).
Proof.
  intros Hreg [tag Htag]. unfold DeviceHelper.align_particles.
  rewrite (getitem_Some _ _ tag) by done. simpl.
  destruct (get_number_of_particles_ok st Hreg) as [n ->]. simpl.
  destruct (align_ok st (DeviceHelper.radix_sort (arange n)
                           (DeviceArray.array tag)) Hreg)
    as (st1 & -> & (Hpa & Hp & Hc & _) & Hdom & _ & Hframe). simpl.
  destruct (proj2 (Hdom "tag")) as [tag1 Htag1]; [by eexists|].
  rewrite (getitem_Some _ _ tag1) by done. simpl.
  eexists. split; [done|]. by split_and!.
Qed.

Section RemoveParticles.
Variable junk : nat → Z.

Lemma remove_particles_raises_iff st indices n :
  registered st → is_Some (DeviceHelper._data st !! "tag") →
  DeviceHelper.get_number_of_particles st = Ok n →
  (DeviceHelper.remove_particles junk st indices = Raise ValueError
   ↔ n < length indices) ∧
  (is_Ok (DeviceHelper.remove_particles junk st indices)
   ↔ length indices ≤ n).
Proof.
  intros Hreg Htag Hn. unfold DeviceHelper.remove_particles.
  rewrite Hn. simpl. case_decide as Hlen.
  { split; [done|]. split; [intros [? [=]]|lia]. }
  destruct (align_ok st (DeviceHelper.kept_indices junk n indices) Hreg)
    as (st1 & Hst1 & Hsame & Hdom & _).
  unfold DeviceHelper.align in Hst1. rewrite Hst1. simpl.
  assert (is_Ok (if decide (0 < length indices)
                 then DeviceHelper.align_particles st1 else Ok st1))
    as [st2 Hst2].
  { case_decide; [|by eexists].
    destruct (align_particles_ok st1) as (st2 & ? & _).
    - by apply (registered_same_fields st).
    - by apply Hdom.
    - by eexists. }
  rewrite Hst2.
  split; [split; [done|lia]|]. split; [lia|]. intros _. by eexists.
Qed.

End RemoveParticles.

(** C7. [remove] on a buffer and [remove_particles] on a store raise
    (a [ValueError]) exactly when more indices are given than the buffer
    has elements, or the store has particles; otherwise both return. The
    store is one in which every property has its buffer and the reserved
    property [tag] is present. *)
Theorem remove_rejects_too_many (junk : nat → Z) :
  (∀ d indices,
     (raises (DeviceArray.remove junk d indices)
      ↔ DeviceArray.length d < length indices) ∧
     (is_Ok (DeviceArray.remove junk d indices)
      ↔ length indices ≤ DeviceArray.length d)) ∧
  (∀ st indices,
     registered st → is_Some (DeviceHelper._data st !! "tag") →
     ∃ n, DeviceHelper.get_number_of_particles st = Ok n ∧
          (raises (DeviceHelper.remove_particles junk st indices)
           ↔ n < length indices) ∧
          (is_Ok (DeviceHelper.remove_particles junk st indices)
           ↔ length indices ≤ n)).
Proof.
  split.
  - intros d indices.
    destruct (remove_raises_iff junk d indices) as [Hr Hok].
    split; [|done]. rewrite <- Hr. split; [|by eexists].
    intros Hraise. apply Hr. rewrite <- Nat.nle_gt, <- Hok.
    by intros Hno%is_Ok_not_raises.
  - intros st indices Hreg Htag.
    destruct (get_number_of_particles_ok st Hreg) as [n Hn]. exists n.
    destruct (remove_particles_raises_iff junk st indices n Hreg Htag Hn)
      as [Hr Hok].
    split; [done|]. split; [|done]. rewrite <- Hr. split; [|by eexists].
    intros Hraise. apply Hr. rewrite <- Nat.nle_gt, <- Hok.
    by intros Hno%is_Ok_not_raises.
Qed.

(** ** A store of three particles *)

(** The host array of the examples: the properties [x], [y] and [tag] of
    three particles, the last of which is a ghost, and one constant. *)
Definition example_host : ParticleArray.t :=
  {| ParticleArray.name := "fluid";
     ParticleArray.properties :=
       [("x", [1; 2; 3]%Z); ("y", [4; 5; 6]%Z); ("tag", [0; 0; 1]%Z)];
     ParticleArray.constants := [("c", [42]%Z)];
     ParticleArray.default_values :=
       <["x" := 0%Z]> (<["y" := 7%Z]> (<["tag" := 0%Z]> ∅));
     ParticleArray.output_property_arrays := ["x"] |}.

(** The store that [DeviceHelper(example_host)] builds. *)
Definition example_store : DeviceHelper.t :=
  {| DeviceHelper._particle_array := example_host;
     DeviceHelper._data :=
       <["x" := DeviceArray.set_data [1; 2; 3]%Z]>
         (<["y" := DeviceArray.set_data [4; 5; 6]%Z]>
            (<["tag" := DeviceArray.set_data [0; 0; 1]%Z]>
               (<["c" := DeviceArray.set_data [42]%Z]> ∅)));
     DeviceHelper.properties := ["x"; "y"; "tag"];
     DeviceHelper.constants := ["c"];
     DeviceHelper.num_real_particles := None |}.

Lemma example_store_init (junk : nat → Z) :
  DeviceHelper.__init__ junk example_host = Ok example_store.
Proof. vm_compute. reflexivity. Qed.

Lemma example_store_registered : registered example_store.
Proof. repeat constructor; by eexists. Qed.

Lemma example_store_tag : is_Some (DeviceHelper._data example_store !! "tag").
Proof. by eexists. Qed.

(** ** Stores: [extend] with nothing to add *)

(** C10. [extend(num_particles)] with [num_particles ≤ 0] returns at once:
    the store, and with it the length and the contents of every buffer, is
    as before, and nothing is raised. *)
Theorem extend_nonpositive (junk : nat → Z) (st : DeviceHelper.t)
    (num_particles : Z) :
  (num_particles ≤ 0)%Z →
  DeviceHelper.extend junk st num_particles = Ok st.
Proof. intros Hle. unfold DeviceHelper.extend. by rewrite decide_True. Qed.

Lemma extend_nonpositive_witness :
  (-3 ≤ 0)%Z ∧ DeviceHelper.extend (λ _, 0%Z) example_store (-3) = Ok example_store.
Proof.
  assert (-3 ≤ 0)%Z as Hle by lia.
  split; [exact Hle|]. exact (extend_nonpositive (λ _, 0%Z) example_store (-3) Hle).
Defined.

Lemma remove_rejects_too_many_witness :
  registered example_store ∧
  is_Some (DeviceHelper._data example_store !! "tag") ∧
  ∃ n, DeviceHelper.get_number_of_particles example_store = Ok n ∧
       (raises (DeviceHelper.remove_particles (λ _, 0%Z) example_store
                  [0; 1; 2; 0])
        ↔ n < 4) ∧
       (is_Ok (DeviceHelper.remove_particles (λ _, 0%Z) example_store
                 [0; 1; 2; 0])
        ↔ 4 ≤ n).
Proof.
  split; [exact example_store_registered|].
  split; [exact example_store_tag|].
  exact (proj2 (remove_rejects_too_many (λ _, 0%Z)) example_store
           [0; 1; 2; 0] example_store_registered example_store_tag).
Defined.

(** ** Stores: every property buffer has the same length *)

(** Every property has a buffer that satisfies the class invariant and has
    [n] elements. *)
Definition all_of_length (n : nat) (st : DeviceHelper.t) : Prop :=
  Forall (λ p, ∃ a, DeviceHelper._data st !! p = Some a ∧
                    DeviceArray.wf a ∧ DeviceArray.length a = n)
         (DeviceHelper.properties st).

Definition consistent (st : DeviceHelper.t) : Prop :=
  ∃ n, all_of_length n st.

Lemma consistent_same_length st p q a b :
  consistent st →
  p ∈ DeviceHelper.properties st → q ∈ DeviceHelper.properties st →
  DeviceHelper._data st !! p = Some a → DeviceHelper._data st !! q = Some b →
  DeviceArray.length a = DeviceArray.length b.
Proof.
  intros [n Hn] Hp Hq Ha Hb. unfold all_of_length in Hn.
  rewrite Forall_forall in Hn.
  destruct (Hn p Hp) as (a' & Ha' & _ & Hla).
  destruct (Hn q Hq) as (b' & Hb' & _ & Hlb). congruence.
Qed.

(** A loop over properties whose body, given a buffer that satisfies [P],
    leaves one that satisfies [Q], and touches nothing else. *)
Lemma post_loop (P Q : DeviceArray.t → Prop)
    (body : string → DeviceHelper.t → result DeviceHelper.t) ps st st' :
  (∀ a, Q a → P a) →
  (∀ p a, p ∈ ps → DeviceHelper._data st !! p = Some a → P a) →
  (∀ p s s2,
     p ∈ ps → same_fields st s → body p s = Ok s2 →
     ∃ a, DeviceHelper._data s !! p = Some a ∧
          (P a →
           same_fields st s2 ∧
           (∀ q, q ≠ p →
                 DeviceHelper._data s2 !! q = DeviceHelper._data s !! q) ∧
           ∃ a', DeviceHelper._data s2 !! p = Some a' ∧ Q a')) →
  for_each ps body st = Ok st' →
  same_fields st st' ∧
  (∀ p, p ∈ ps → ∃ a', DeviceHelper._data st' !! p = Some a' ∧ Q a') ∧
  (∀ q, q ∉ ps → DeviceHelper._data st' !! q = DeviceHelper._data st !! q).
Proof.
  intros HQP HP Hbody.
  apply (for_each_inv
           (λ done s,
              same_fields st s ∧
              (∀ p, p ∈ done →
                    ∃ a', DeviceHelper._data s !! p = Some a' ∧ Q a') ∧
              (∀ q, q ∉ done →
                    DeviceHelper._data s !! q = DeviceHelper._data st !! q))).
  { split_and!; [done| |done]. intros p Hp. by apply elem_of_nil in Hp. }
  intros done x rest s1 s2 Hps (Hsame & Hdone & Hrest) Hb.
  assert (x ∈ ps) as Hx by (rewrite Hps; apply elem_of_app; right; by left).
  destruct (Hbody x s1 s2 Hx Hsame Hb) as (a & Ha & Hpost).
  assert (P a) as HPa.
  { destruct (decide (x ∈ done)) as [Hin|Hnot].
    - destruct (Hdone x Hin) as (a' & Ha' & HQa'). apply HQP. congruence.
    - apply (HP x); [done|]. by rewrite <- Hrest. }
  destruct (Hpost HPa) as (Hsame2 & Hframe & a' & Ha' & HQa').
  split_and!; [done| |].
  - intros p [Hp| ->%list_elem_of_singleton]%elem_of_app; [|by eauto].
    destruct (decide (p = x)) as [->|Hne]; [by eauto|].
    rewrite Hframe by done. by apply Hdone.
  - intros q Hq. rewrite Hframe.
    + apply Hrest. intros Hin. apply Hq, elem_of_app. by left.
    + intros ->. apply Hq, elem_of_app. right. by left.
Qed.

Lemma all_of_length_same_fields n st st' :
  same_fields st st' →
  (∀ p, p ∈ DeviceHelper.properties st →
        ∃ a, DeviceHelper._data st' !! p = Some a ∧
             DeviceArray.wf a ∧ DeviceArray.length a = n) →
  all_of_length n st'.
Proof.
  intros (_ & Hp & _) Hall. unfold all_of_length. rewrite Hp.
  by apply Forall_forall.
Qed.

(** The loop of [align] and of [remove_particles]. *)
Lemma align_loop_post st indices st' :
  for_each (DeviceHelper.properties st)
    (λ prop st,
       arr ← getitem (DeviceHelper._data st) prop;
       Ok (DeviceHelper.set_buffer st prop (DeviceArray.align arr indices)))
    st = Ok st' →
  same_fields st st' ∧ all_of_length (length indices) st'.
Proof.
  intros Hrun.
  apply (post_loop (λ _, True)
           (λ a, DeviceArray.wf a ∧ DeviceArray.length a = length indices))
    in Hrun as (Hsame & Hall & _); [|done|done|].
  { split; [done|]. by apply (all_of_length_same_fields _ st). }
  intros p s s2 _ Hsame (arr & Harr%getitem_Ok & [= <-])%bind_Ok.
  exists arr. split; [done|]. intros _. split_and!; [done| |].
  - intros q Hq. simpl. by rewrite lookup_insert_ne.
  - eexists. simpl. rewrite lookup_insert_eq. split; [done|].
    split; [apply wf_align|apply length_align].
Qed.

Lemma align_particles_consistent st st' :
  DeviceHelper.align_particles st = Ok st' → consistent st'.
Proof.
  unfold DeviceHelper.align_particles.
  intros (tag & _ & (n & _ & (st1 & Hal & Hrest)%bind_Ok)%bind_Ok)%bind_Ok.
  apply bind_Ok in Hrest as (tag1 & _ & [= <-]).
  apply align_loop_post in Hal as [_ Hall]. by eexists.
Qed.

Section Consistency.
Variable junk : nat → Z.

Lemma get_number_of_particles_all_of_length n st m :
  all_of_length n st → DeviceHelper.properties st ≠ [] →
  DeviceHelper.get_number_of_particles st = Ok m → m = n.
Proof.
  unfold all_of_length, DeviceHelper.get_number_of_particles.
  destruct (DeviceHelper.properties st) as [|p ps]; [done|].
  intros (a & Ha & Hwf & Hlen)%Forall_cons_1%proj1 _.
  rewrite (getitem_Some _ _ a) by done. simpl. intros [= <-].
  by rewrite length_array.
Qed.

Lemma extend_consistent st num_particles st' :
  consistent st →
  DeviceHelper.extend junk st num_particles = Ok st' → consistent st'.
Proof.
  intros [n Hn]. unfold DeviceHelper.extend. case_decide as Hle.
  { intros [= <-]. by exists n. }
  intros (old_size & Hold & Hrun)%bind_Ok.
  set (new_size := old_size + Z.to_nat num_particles) in *.
  exists new_size.
  apply (post_loop DeviceArray.wf
           (λ a, DeviceArray.wf a ∧ DeviceArray.length a = new_size))
    in Hrun as (Hsame & Hall & _).
  - by apply (all_of_length_same_fields _ st).
  - by intros a [? _].
  - intros p a Hp Ha. unfold all_of_length in Hn.
    rewrite Forall_forall in Hn. destruct (Hn p Hp) as (a' & ? & ? & _).
    congruence.
  - intros p s s2 Hp Hsf Hb. pose proof Hsf as (_ & Hprops & _).
    apply bind_Ok in Hb as (arr & Harr%getitem_Ok & Hb).
    apply bind_Ok in Hb as (arr1 & Hres & Hb).
    apply bind_Ok in Hb as (default & _ & [= <-]).
    exists arr. split; [done|]. intros Hwf.
    destruct (resize_spec junk arr new_size Hwf)
      as (arr1' & Hres' & Hwf1 & Hl1 & _).
    rewrite Hres in Hres'. injection Hres' as <-.
    rewrite update_prop_registered by (by rewrite Hprops).
    split_and!; [done| |].
    + intros q Hq. simpl. by rewrite lookup_insert_ne.
    + eexists. simpl. rewrite lookup_insert_eq. split; [done|].
      split; [by apply wf_fill_array_from|done].
Qed.

Lemma remove_particles_consistent st indices st' :
  DeviceHelper.remove_particles junk st indices = Ok st' → consistent st'.
Proof.
  unfold DeviceHelper.remove_particles.
  intros (n & _ & Hrun)%bind_Ok. case_decide; [done|].
  apply bind_Ok in Hrun as (st1 & [_ Hall]%align_loop_post & Hrun).
  case_decide.
  - by apply align_particles_consistent in Hrun.
  - injection Hrun as <-. by eexists.
Qed.

Lemma remove_tagged_particles_consistent st tag st' :
  consistent st →
  DeviceHelper.remove_tagged_particles junk st tag = Ok st' → consistent st'.
Proof.
  intros Hst. unfold DeviceHelper.remove_tagged_particles.
  destruct (DeviceHelper._data st !! "tag") as [tag_buffer|]; [|done].
  case_decide.
  - by intros [= <-].
  - apply remove_particles_consistent.
Qed.

Lemma append_parray_consistent st parray st' :
  consistent st →
  DeviceHelper.append_parray junk st parray = Ok st' → consistent st'.
Proof.
  intros Hst. unfold DeviceHelper.append_parray.
  intros (parray_gpu & _ & (k & _ & Hrun)%bind_Ok)%bind_Ok.
  case_decide as Hk; [by injection Hrun as <-|].
  apply bind_Ok in Hrun as (old & _ & Hrun).
  apply bind_Ok in Hrun as (st1 & _ & Hrun).
  apply bind_Ok in Hrun as (st2 & _ & Hrun).
  apply bind_Ok in Hrun as (st3 & _ & Hrun).
  rewrite decide_True in Hrun by lia.
  by apply align_particles_consistent in Hrun.
Qed.

(** The documented precondition of [add_particles]: all properties should
    have same length arrays. *)
Definition same_length_arrays (particle_props : list (string * list Z))
  : Prop :=
  match particle_props with
  | [] => True
  | (_, first_values) :: _ =>
      Forall (λ kv, length kv.2 = length first_values) particle_props
  end.

Lemma kw_lookup_Some {V} key (kw : list (string * V)) v :
  kw_lookup key kw = Some v → (key, v) ∈ kw.
Proof.
  induction kw as [|[k w] kw IH]; simpl; [done|].
  case_decide as Hk.
  - intros [= ->]. subst. by left.
  - intros Hv. right. by apply IH.
Qed.

Lemma add_particles_consistent st particle_props st' :
  consistent st → same_length_arrays particle_props →
  DeviceHelper.add_particles junk st particle_props = Ok st' →
  consistent st'.
Proof.
  intros [n Hn] Hsame. unfold DeviceHelper.add_particles.
  destruct particle_props as [|[prop0 first_values] kw]; [intros [= <-]; by exists n|].
  set (particle_props := (prop0, first_values) :: kw) in *.
  intros (_ & _ & (old & Hold & (st1 & Hloop & Hrun)%bind_Ok)%bind_Ok)%bind_Ok.
  case_decide as Hk; [by apply align_particles_consistent in Hrun|].
  injection Hrun as <-. exists n.
  destruct (decide (DeviceHelper.properties st = [])) as [Hnil|Hne].
  { rewrite Hnil in Hloop. injection Hloop as <-. done. }
  apply (get_number_of_particles_all_of_length n) in Hold; [|done..].
  subst old.
  apply (post_loop
           (λ a, DeviceArray.wf a ∧ DeviceArray.length a = n)
           (λ a, DeviceArray.wf a ∧ DeviceArray.length a = n))
    in Hloop as (Hsf & Hall & _).
  - by apply (all_of_length_same_fields _ st).
  - done.
  - intros p a Hp Ha. unfold all_of_length in Hn.
    rewrite Forall_forall in Hn. destruct (Hn p Hp) as (a' & ? & ? & ?).
    split; congruence.
  - intros p s s2 Hp Hsf Hb. pose proof Hsf as (_ & Hprops & _).
    apply bind_Ok in Hb as (arr & Harr%getitem_Ok & Hb).
    apply bind_Ok in Hb as (arr1 & Harr1 & [= <-]).
    exists arr. split; [done|]. intros [Hwf Hlen].
    rewrite update_prop_registered by (by rewrite Hprops).
    split_and!; [done| |].
    + intros q Hq. simpl. by rewrite lookup_insert_ne.
    + eexists. simpl. rewrite lookup_insert_eq. split; [done|].
      destruct (kw_lookup p particle_props) as [s_arr|] eqn:Hkw.
      * apply kw_lookup_Some in Hkw. simpl in Hsame.
        rewrite Forall_forall in Hsame. specialize (Hsame _ Hkw).
        simpl in Hsame.
        destruct (extend_wf junk arr s_arr arr1 Hwf Harr1) as (? & ? & _).
        split; [done|]. lia.
      * apply bind_Ok in Harr1 as (arr2 & Hres & Hb).
        apply bind_Ok in Hb as (default & _ & [= <-]).
        destruct (resize_spec junk arr (length first_values + n) Hwf)
          as (arr2' & Hres' & Hwf2 & Hl2 & _).
        rewrite Hres in Hres'. injection Hres' as <-.
        split; [by apply wf_fill_array_from|]. simpl. lia.
Qed.

(** The structural operations, as calls on a store. *)
Inductive store_call : Type :=
  | AddParticles (particle_props : list (string * list Z))
  | RemoveParticles (indices : list nat)
  | RemoveTaggedParticles (tag : Z)
  | ExtendBy (num_particles : Z)
  | AppendParray (parray : DeviceHelper.parray).

Definition store_do (c : store_call) (st : DeviceHelper.t)
  : result DeviceHelper.t :=
  match c with
  | AddParticles particle_props =>
      DeviceHelper.add_particles junk st particle_props
  | RemoveParticles indices => DeviceHelper.remove_particles junk st indices
  | RemoveTaggedParticles tag =>
      DeviceHelper.remove_tagged_particles junk st tag
  | ExtendBy num_particles => DeviceHelper.extend junk st num_particles
  | AppendParray parray => DeviceHelper.append_parray junk st parray
  end.

(** What a call must satisfy beyond returning: the arrays given to
    [add_particles] have one length. *)
Definition documented (c : store_call) : Prop :=
  match c with
  | AddParticles particle_props => same_length_arrays particle_props
  | _ => True
  end.

Lemma store_do_consistent c st st' :
  consistent st → documented c → store_do c st = Ok st' → consistent st'.
Proof.
  intros Hst Hdoc. destruct c; simpl.
  - by apply add_particles_consistent.
  - apply remove_particles_consistent.
  - by apply remove_tagged_particles_consistent.
  - by apply extend_consistent.
  - by apply append_parray_consistent.
Qed.

End Consistency.

(** C8. After any sequence of [add_particles], [remove_particles],
    [remove_tagged_particles], [extend] and [append_parray] calls that each
    return, the arrays of every [add_particles] call having one length, all
    property buffers of a store that was consistent at the start have the
    same length. *)
Theorem structural_calls_consistent (junk : nat → Z)
    (calls : list store_call) (st st' : DeviceHelper.t) :
  consistent st → Forall documented calls →
  for_each calls (store_do junk) st = Ok st' →
  consistent st' ∧
  ∀ p q a b,
    p ∈ DeviceHelper.properties st' → q ∈ DeviceHelper.properties st' →
    DeviceHelper._data st' !! p = Some a →
    DeviceHelper._data st' !! q = Some b →
    DeviceArray.length a = DeviceArray.length b.
Proof.
  intros Hst Hdoc Hrun.
  assert (consistent st') as Hst'.
  { apply (for_each_inv (λ _ s, consistent s) (store_do junk) calls st st');
      [done| |done].
    intros done c rest s1 s2 Hcalls Hs1 Hc.
    apply (store_do_consistent junk c s1 s2); [done| |done].
    rewrite Forall_forall in Hdoc. apply Hdoc. rewrite Hcalls.
    apply elem_of_app. right. by left. }
  split; [done|]. intros p q a b. by apply consistent_same_length.
Qed.

Lemma example_store_consistent : consistent example_store.
Proof.
  exists 3. repeat constructor; eexists; (split; [reflexivity|]); by split.
Qed.

(** A run of all five operations on the store of three particles. *)
Definition example_calls : list store_call :=
  [ ExtendBy 2;
    AddParticles [("x", [9; 9]%Z)];
    RemoveParticles [0];
    RemoveTaggedParticles 1;
    AppendParray {| DeviceHelper.host := example_host;
                    DeviceHelper.gpu := None |} ].

Lemma example_calls_documented : Forall documented example_calls.
Proof. repeat constructor. Qed.

Lemma structural_calls_consistent_witness :
  consistent example_store ∧
  Forall documented example_calls ∧
  ∃ st', for_each example_calls (store_do (λ _, 0%Z)) example_store = Ok st' ∧
         consistent st' ∧
         getattr st' "x" = Some [2; 0; 0; 9; 9; 1; 2; 3]%Z ∧
         getattr st' "y" = Some [5; 7; 7; 7; 7; 4; 5; 6]%Z ∧
         getattr st' "tag" = Some [0; 0; 0; 0; 0; 0; 0; 1]%Z.
Proof.
  split; [exact example_store_consistent|].
  split; [exact example_calls_documented|].
  assert (∃ st', for_each example_calls (store_do (λ _, 0%Z)) example_store
                 = Ok st' ∧
                 getattr st' "x" = Some [2; 0; 0; 9; 9; 1; 2; 3]%Z ∧
                 getattr st' "y" = Some [5; 7; 7; 7; 7; 4; 5; 6]%Z ∧
                 getattr st' "tag" = Some [0; 0; 0; 0; 0; 0; 0; 1]%Z)
    as (st' & Hrun & Hx & Hy & Htag).
  { eexists. split; [vm_compute; reflexivity|].
    vm_compute. split; [reflexivity|]. split; reflexivity. }
  exists st'. split; [exact Hrun|]. split.
  - exact (proj1 (structural_calls_consistent (λ _, 0%Z) example_calls
                    example_store st' example_store_consistent
                    example_calls_documented Hrun)).
  - split; [exact Hx|]. split; [exact Hy|exact Htag].
Defined.

(** ** Stores: [align_particles] on a store of real particles only *)

(** A host array of three real particles. *)
Definition all_real_host : ParticleArray.t :=
  {| ParticleArray.name := "fluid";
     ParticleArray.properties :=
       [("x", [1; 2; 3]%Z); ("y", [4; 5; 6]%Z); ("tag", [0; 0; 0]%Z)];
     ParticleArray.constants := [];
     ParticleArray.default_values :=
       <["x" := 0%Z]> (<["y" := 7%Z]> (<["tag" := 0%Z]> ∅));
     ParticleArray.output_property_arrays := ["x"] |}.

(** The store that [DeviceHelper(all_real_host)] builds. *)
Definition all_real_store : DeviceHelper.t :=
  {| DeviceHelper._particle_array := all_real_host;
     DeviceHelper._data :=
       <["x" := DeviceArray.set_data [1; 2; 3]%Z]>
         (<["y" := DeviceArray.set_data [4; 5; 6]%Z]>
            (<["tag" := DeviceArray.set_data [0; 0; 0]%Z]> ∅));
     DeviceHelper.properties := ["x"; "y"; "tag"];
     DeviceHelper.constants := [];
     DeviceHelper.num_real_particles := None |}.

Lemma all_real_store_init (junk : nat → Z) :
  DeviceHelper.__init__ junk all_real_host = Ok all_real_store.
Proof. vm_compute. reflexivity. Qed.

(** C1. The kernel that counts the real particles writes the index of the
    step from tag 0 to another tag into a cell that starts at 0. When every
    particle is real there is no such step: on three particles with the tags
    [0; 0; 0], [align_particles] leaves [num_real_particles = 0], where the
    claim has 3, so that the particles at the indices
    [0, 1, 2 ≥ num_real_particles] have tag 0. *)
Theorem align_particles_all_real :
  ∃ st',
    DeviceHelper.align_particles all_real_store = Ok st' ∧
    getattr st' "tag" = Some [0; 0; 0]%Z ∧
    DeviceHelper.num_real_particles st' = Some 0.
Proof. eexists. split_and!; vm_compute; reflexivity. Qed.

(** ** Stores: [append_parray] with a property that only the other has *)

(** A host array of one particle with a property [z] that the store of the
    examples does not have. *)
Definition other_host : ParticleArray.t :=
  {| ParticleArray.name := "other";
     ParticleArray.properties := [("tag", [0]%Z); ("z", [5]%Z)];
     ParticleArray.constants := [];
     ParticleArray.default_values := <["tag" := 0%Z]> (<["z" := 3%Z]> ∅);
     ParticleArray.output_property_arrays := [] |}.

(** C4. For a property that only the other store has, [append_parray] reads
    the dtype from [self._data[prop_name]], the store that lacks the
    property: the call raises [KeyError] and no buffer is registered, where
    the claim has a new buffer of the merged length. *)
Theorem append_parray_new_property (junk : nat → Z) :
  ∃ other,
    DeviceHelper.__init__ junk other_host = Ok other ∧
    DeviceHelper.get_number_of_particles other = Ok 1 ∧
    "z" ∈ DeviceHelper.properties other ∧
    ("z" ∉ DeviceHelper.properties example_store) ∧
    DeviceHelper.append_parray junk example_store
      {| DeviceHelper.host := other_host; DeviceHelper.gpu := Some other |}
    = Raise KeyError.
Proof.
  eexists. split; [vm_compute; reflexivity|].
  split; [reflexivity|]. split; [|split].
  - apply list_elem_of_In. simpl. auto.
  - intros Hin%list_elem_of_In. simpl in Hin.
    by destruct Hin as [?|[?|[?|[]]]].
  - vm_compute. reflexivity.
Qed.

(** ** Stores: [add_particles] *)

(** Every property has a buffer of [n] elements without spare capacity. *)
Definition full_of_length (n : nat) (st : DeviceHelper.t) : Prop :=
  Forall (λ p, ∃ a, DeviceHelper._data st !! p = Some a ∧
                    DeviceArray.wf a ∧ DeviceArray.length a = n ∧
                    DeviceArray.alloc a = n)
         (DeviceHelper.properties st).

(** The [k] entries that [add_particles] appends to property [p]: the values
    given for it, or else its default value [k] times. *)
Definition new_tail (st : DeviceHelper.t)
    (particle_props : list (string * list Z)) (k : nat) (p : string)
  : list Z :=
  match kw_lookup p particle_props with
  | Some values => values
  | None =>
      replicate k
        (ParticleArray.default_values (DeviceHelper._particle_array st) !!! p)
  end.

(** The statement of the claim on one call that returned [st']: every
    property buffer is [k] longer and its last [k] entries are the new
    ones. *)
Definition tails_appended (st : DeviceHelper.t)
    (particle_props : list (string * list Z)) (k : nat)
    (st' : DeviceHelper.t) : Prop :=
  ∀ p a, p ∈ DeviceHelper.properties st →
         DeviceHelper._data st !! p = Some a →
         ∃ a', DeviceHelper._data st' !! p = Some a' ∧
               DeviceArray.length a' = DeviceArray.length a + k ∧
               drop (DeviceArray.length a) (DeviceArray.array a')
               = new_tail st particle_props k p.

Section AddParticles.
Variable junk : nat → Z.

Lemma check_properties_ok st (names : list string) :
  Forall (λ p, p ∈ DeviceHelper.properties st) names →
  for_each names (λ prop _, DeviceHelper._check_property st prop) tt = Ok tt.
Proof.
  induction 1 as [|p names Hp _ IH]; [done|]. simpl.
  assert (DeviceHelper._check_property st p = Ok tt) as ->; [|done].
  unfold DeviceHelper._check_property. by rewrite decide_True.
Qed.

(** What the loop of [add_particles] does to the buffer of one property. *)
Definition grow (st : DeviceHelper.t)
    (particle_props : list (string * list Z)) (old new : nat) (prop : string)
    (arr : DeviceArray.t) : result DeviceArray.t :=
  match kw_lookup prop particle_props with
  | Some s_arr => DeviceArray.extend junk arr s_arr
  | None =>
      arr ← DeviceArray.resize junk arr new;
      default ← getitem (ParticleArray.default_values
                           (DeviceHelper._particle_array st)) prop;
      Ok (DeviceArray.fill_array_from arr old default)
  end.

Lemma grow_spec st particle_props k n p a :
  DeviceArray.wf a → DeviceArray.length a = n → DeviceArray.alloc a = n →
  0 < k →
  (∀ v, kw_lookup p particle_props = Some v → length v = k) →
  (kw_lookup p particle_props = None →
   is_Some (ParticleArray.default_values (DeviceHelper._particle_array st)
              !! p)) →
  ∃ a', grow st particle_props n (k + n) p a = Ok a' ∧
        DeviceArray.wf a' ∧
        DeviceArray.length a' = n + k ∧
        DeviceArray.array a'
        = DeviceArray.array a ++ new_tail st particle_props k p.
Proof.
  intros Hwf Hlen Halloc Hk Hgiven Hdefault. unfold grow, new_tail.
  destruct (kw_lookup p particle_props) as [v|].
  - specialize (Hgiven v eq_refl).
    destruct (extend_spec junk a v) as (a' & -> & Hwf' & Hl' & Hfit & _);
      [done|by destruct v; [simpl in Hgiven; lia|]|].
    exists a'. destruct Hfit as [_ Harr]; [lia|].
    split_and!; [done|done|lia|done].
  - destruct (Hdefault eq_refl) as [x Hx].
    destruct (resize_spec junk a (k + n)) as (a1 & -> & Hwf1 & Hl1 & _ & Hd1);
      [done|].
    simpl. rewrite (getitem_Some _ _ x) by done. simpl.
    rewrite (lookup_total_correct _ _ _ Hx).
    destruct (fill_array_from_spec a1 n x) as (Hwf2 & Hl2 & Harr2);
      [done|lia|].
    eexists. split_and!; [done|done|lia|].
    rewrite Harr2, Hl1. replace (k + n - n) with k by lia. f_equal.
    unfold DeviceArray.array. rewrite Hl1, Hd1, Hlen.
    destruct Hwf as [Ha _].
    rewrite take_take, Nat.min_l by lia.
    rewrite take_app_le by lia. done.
Qed.

End AddParticles.

(** ** The radix sort on the tags *)

(** One stable pass on a digit in [0, 4): the four buckets in order. *)
Definition buckets {A} (digit : A → Z) (l : list A) : list A :=
  mjoin ((λ d : Z, filter (λ x, digit x = d) l) <$> [0; 1; 2; 3]%Z).

Lemma land_3_mod (t : Z) : Z.land t 3 = (t `mod` 4)%Z.
Proof. change 3%Z with (Z.ones 2). by rewrite Z.land_ones by lia. Qed.

Lemma land_3_cases (t : Z) :
  Z.land t 3 = 0%Z ∨ Z.land t 3 = 1%Z ∨ Z.land t 3 = 2%Z ∨ Z.land t 3 = 3%Z.
Proof.
  rewrite land_3_mod. pose proof (Z.mod_pos_bound t 4) as Hb. lia.
Qed.

Lemma land_3_small (t : Z) : (0 ≤ t < 4)%Z → Z.land t 3 = t.
Proof. intros Ht. rewrite land_3_mod. apply Z.mod_small. lia. Qed.

Lemma buckets_cons {A} (digit : A → Z) x l :
  (digit x = 0 ∨ digit x = 1 ∨ digit x = 2 ∨ digit x = 3)%Z →
  buckets digit (x :: l) ≡ₚ x :: buckets digit l.
Proof.
  unfold buckets. simpl. rewrite !app_nil_r.
  intros [Hd|[Hd|[Hd|Hd]]];
    rewrite !filter_cons, !Hd; simpl;
    repeat (case_decide; [lia || done|]);
    repeat (case_decide; [|lia || done]).
  - done.
  - by rewrite <- Permutation_middle.
  - rewrite app_assoc, <- Permutation_middle. by rewrite <- app_assoc.
  - rewrite !app_assoc, <- Permutation_middle. by rewrite <- !app_assoc.
Qed.

Lemma buckets_perm {A} (digit : A → Z) l :
  Forall (λ x, digit x = 0 ∨ digit x = 1 ∨ digit x = 2 ∨ digit x = 3)%Z l →
  buckets digit l ≡ₚ l.
Proof.
  induction 1 as [|x l Hx _ IH]; [done|].
  rewrite buckets_cons by done. by rewrite IH.
Qed.

Lemma filter_zip_diag {A} (P : A → Prop) (Q : A * A → Prop)
    `{!∀ x, Decision (P x)} `{!∀ it, Decision (Q it)} (l : list A) :
  (∀ x y, Q (x, y) ↔ P x) →
  (filter Q (zip l l)).*2 = filter P l.
Proof.
  intros HQP. induction l as [|x l IH]; [done|]. simpl.
  rewrite !filter_cons.
  destruct (decide (Q (x, x))) as [HQ|HQ], (decide (P x)) as [HP|HP].
  - rewrite fmap_cons. simpl. by f_equal.
  - by apply HQP in HQ.
  - by apply (HQP x x) in HP.
  - done.
Qed.

Lemma radix_sort_arange n tags :
  DeviceHelper.radix_sort (arange n) tags
  = buckets (λ i, Z.land (tags !!! i) 3) (seq 0 n).
Proof.
  unfold DeviceHelper.radix_sort, buckets, arange. rewrite length_seq.
  rewrite !fmap_cons, !fmap_nil.
  repeat f_equal; by apply filter_zip_diag.
Qed.

Lemma radix_sort_perm n tags :
  DeviceHelper.radix_sort (arange n) tags ≡ₚ seq 0 n.
Proof.
  rewrite radix_sort_arange. apply buckets_perm, Forall_forall.
  intros i _. apply land_3_cases.
Qed.

Lemma length_radix_sort n tags :
  length (DeviceHelper.radix_sort (arange n) tags) = n.
Proof. by rewrite radix_sort_perm, length_seq. Qed.

Lemma cl_take_arange l : cl_take l (arange (length l)) = l.
Proof.
  unfold cl_take, arange. apply list_eq. intros i.
  rewrite list_lookup_fmap.
  destruct (decide (i < length l)) as [Hlt|Hge].
  - rewrite lookup_seq_lt by done. simpl.
    destruct (lookup_lt_is_Some_2 l i Hlt) as [x Hx].
    by rewrite Hx, (list_lookup_total_correct _ _ _ Hx).
  - rewrite lookup_seq_ge by lia. simpl.
    by rewrite lookup_ge_None_2 by lia.
Qed.

Lemma align_exact st indices :
  NoDup (DeviceHelper.properties st) → registered st →
  ∃ st', DeviceHelper.align st indices = Ok st' ∧ same_fields st st' ∧
         (∀ p a, p ∈ DeviceHelper.properties st →
                 DeviceHelper._data st !! p = Some a →
                 DeviceHelper._data st' !! p
                 = Some (DeviceArray.align a indices)) ∧
         (∀ q, q ∉ DeviceHelper.properties st →
               DeviceHelper._data st' !! q = DeviceHelper._data st !! q).
Proof.
  intros Hnd Hreg. unfold DeviceHelper.align.
  destruct (buffer_loop_ok (λ _ a, Ok (DeviceArray.align a indices))
              (λ prop st,
                 arr ← getitem (DeviceHelper._data st) prop;
                 Ok (DeviceHelper.set_buffer st prop
                       (DeviceArray.align arr indices)))
              (DeviceHelper.properties st) st)
    as (st' & Hrun & Hsame & Hdone & Hrest); [done|done| |].
  { intros p Hp. unfold registered in Hreg. rewrite Forall_forall in Hreg.
    destruct (Hreg p Hp) as [a Ha]. by exists a, (DeviceArray.align a indices). }
  exists st'. split_and!; [done|done| |done].
  intros p a Hp Ha. destruct (Hdone p Hp) as (a0 & a' & Ha0 & [= <-] & Ha').
  congruence.
Qed.

Lemma align_particles_exact st tag m :
  NoDup (DeviceHelper.properties st) → registered st →
  DeviceHelper._data st !! "tag" = Some tag →
  DeviceHelper.get_number_of_particles st = Ok m →
  let sorted_indices :=
    DeviceHelper.radix_sort (arange m) (DeviceArray.array tag) in
  ∃ st', DeviceHelper.align_particles st = Ok st' ∧
         DeviceHelper.properties st' = DeviceHelper.properties st ∧
         DeviceHelper.constants st' = DeviceHelper.constants st ∧
         (∀ p a, p ∈ DeviceHelper.properties st →
                 DeviceHelper._data st !! p = Some a →
                 DeviceHelper._data st' !! p
                 = Some (DeviceArray.align a sorted_indices)) ∧
         (∀ q, q ∉ DeviceHelper.properties st →
               DeviceHelper._data st' !! q = DeviceHelper._data st !! q) ∧
         ∃ tag', DeviceHelper._data st' !! "tag" = Some tag' ∧
                 DeviceHelper.num_real_particles st'
                 = Some (DeviceHelper.get_num_real_particles
                           (DeviceArray.array tag') 0).
Proof.
  intros Hnd Hreg Htag Hm sorted_indices.
  unfold DeviceHelper.align_particles.
  rewrite (getitem_Some _ _ tag) by done. simpl. rewrite Hm. simpl.
  fold sorted_indices.
  destruct (align_exact st sorted_indices Hnd Hreg)
    as (st1 & -> & (_ & Hp & Hc & _) & Hdone & Hrest). simpl.
  assert (is_Some (DeviceHelper._data st1 !! "tag")) as [tag1 Htag1].
  { destruct (decide ("tag" ∈ DeviceHelper.properties st)) as [Hin|Hnot].
    - rewrite (Hdone "tag" tag) by done. by eexists.
    - rewrite Hrest by done. by eexists. }
  rewrite (getitem_Some _ _ tag1) by done. simpl.
  eexists. split; [done|]. split_and!; [done..|]. by exists tag1.
Qed.

Section AddParticlesSpec.
Variable junk : nat → Z.
Variable st : DeviceHelper.t.
Variable particle_props : list (string * list Z).
Variable k n : nat.

Hypothesis names_distinct : NoDup (DeviceHelper.properties st).
Hypothesis has_tag : "tag" ∈ DeviceHelper.properties st.
Hypothesis full : full_of_length n st.
Hypothesis given : particle_props ≠ [].
Hypothesis given_ok :
  Forall (λ kv, kv.1 ∈ DeviceHelper.properties st ∧ length kv.2 = k)
         particle_props.
Hypothesis nonempty : 0 < k.
Hypothesis defaults :
  Forall (λ p, kw_lookup p particle_props = None →
               is_Some (ParticleArray.default_values
                          (DeviceHelper._particle_array st) !! p))
         (DeviceHelper.properties st).

Lemma full_lookup p :
  p ∈ DeviceHelper.properties st →
  ∃ a, DeviceHelper._data st !! p = Some a ∧ DeviceArray.wf a ∧
       DeviceArray.length a = n ∧ DeviceArray.alloc a = n.
Proof. intros Hp. unfold full_of_length in full. by rewrite Forall_forall in full; apply full. Qed.

Lemma full_number : DeviceHelper.get_number_of_particles st = Ok n.
Proof.
  unfold DeviceHelper.get_number_of_particles.
  destruct (DeviceHelper.properties st) as [|p0 ps] eqn:Hps.
  { by apply elem_of_nil in has_tag. }
  destruct (full_lookup p0) as (a & Ha & Hwf & Hl & _).
  { rewrite Hps. by left. }
  rewrite (getitem_Some _ _ a) by done. simpl.
  rewrite length_array by done. by rewrite Hl.
Qed.

Lemma grow_ok p a :
  p ∈ DeviceHelper.properties st → DeviceHelper._data st !! p = Some a →
  ∃ a', grow junk st particle_props n (k + n) p a = Ok a' ∧
        DeviceArray.wf a' ∧
        DeviceArray.length a' = n + k ∧
        DeviceArray.array a'
        = DeviceArray.array a ++ new_tail st particle_props k p.
Proof.
  intros Hp Ha. destruct (full_lookup p Hp) as (a0 & Ha0 & Hwf & Hl & Hal).
  assert (a0 = a) as -> by congruence.
  apply grow_spec; [done..| |].
  - intros v Hv%kw_lookup_Some. rewrite Forall_forall in given_ok.
    by destruct (given_ok _ Hv).
  - rewrite Forall_forall in defaults. by apply defaults.
Qed.

(** The store once the loop of [add_particles] has run: every buffer has
    its new entries at the end. *)
Lemma add_particles_loop :
  ∃ st1,
    for_each (DeviceHelper.properties st)
      (λ prop st0,
         arr ← getitem (DeviceHelper._data st0) prop;
         arr ← match kw_lookup prop particle_props with
               | Some s_arr => DeviceArray.extend junk arr s_arr
               | None =>
                   arr ← DeviceArray.resize junk arr (k + n);
                   default ← getitem (ParticleArray.default_values
                                        (DeviceHelper._particle_array st))
                               prop;
                   Ok (DeviceArray.fill_array_from arr n default)
               end;
         Ok (DeviceHelper.update_prop st0 prop arr))
      st = Ok st1 ∧
    same_fields st st1 ∧
    (∀ p a, p ∈ DeviceHelper.properties st →
            DeviceHelper._data st !! p = Some a →
            ∃ a', DeviceHelper._data st1 !! p = Some a' ∧
                  DeviceArray.wf a' ∧
                  DeviceArray.length a' = n + k ∧
                  DeviceArray.array a'
                  = DeviceArray.array a ++ new_tail st particle_props k p) ∧
    (∀ q, q ∉ DeviceHelper.properties st →
          DeviceHelper._data st1 !! q = DeviceHelper._data st !! q).
Proof.
  match goal with
  | |- ∃ st1, for_each _ ?body st = _ ∧ _ =>
      destruct (buffer_loop_ok (grow junk st particle_props n (k + n)) body
                  (DeviceHelper.properties st) st)
        as (st1 & Hrun & Hsame & Hdone & Hrest)
  end.
  - intros p s Hp Hprops. unfold grow.
    destruct (getitem (DeviceHelper._data s) p) as [arr|]; [|done]. simpl.
    match goal with
    | |- ?m ≫= _ = _ => destruct m as [arr'|]; [|done]
    end.
    simpl. by rewrite update_prop_registered by (by rewrite Hprops).
  - done.
  - intros p Hp. destruct (full_lookup p Hp) as (a & Ha & _).
    destruct (grow_ok p a Hp Ha) as (a' & Ha' & _). by exists a, a'.
  - exists st1. split_and!; [done|done| |done].
    intros p a Hp Ha.
    destruct (Hdone p Hp) as (a0 & a' & Ha0 & Hg & Ha').
    assert (a0 = a) as -> by congruence.
    destruct (grow_ok p a Hp Ha) as (a'' & Hg' & Hwf & Hl & Harr).
    assert (a'' = a') as -> by congruence.
    by exists a'.
Qed.


(** C5, as amended. On a store whose property buffers have [n] elements and
    no spare capacity, and which has a default value for every property not
    given, [add_particles] with arrays of length [k > 0] for registered
    properties returns; every property buffer then holds [n + k] elements,
    namely its old elements followed by its [k] new ones (the values given,
    or else its default value), rearranged by [align_particles]: gathered
    by the stable sort of the indices on the tags so extended. When that
    sort moves nothing, the new entries are the tail of every buffer. *)
Theorem add_particles_grows_then_aligns :
  ∃ st' tag,
    DeviceHelper._data st !! "tag" = Some tag ∧
    let sorted_indices :=
      DeviceHelper.radix_sort (arange (n + k))
        (DeviceArray.array tag ++ new_tail st particle_props k "tag") in
    DeviceHelper.add_particles junk st particle_props = Ok st' ∧
    DeviceHelper.properties st' = DeviceHelper.properties st ∧
    (∀ p a, p ∈ DeviceHelper.properties st →
            DeviceHelper._data st !! p = Some a →
            ∃ a', DeviceHelper._data st' !! p = Some a' ∧
                  DeviceArray.length a' = n + k ∧
                  DeviceArray.array a'
                  = cl_take (DeviceArray.array a
                               ++ new_tail st particle_props k p)
                      sorted_indices) ∧
    (sorted_indices = arange (n + k) →
     tails_appended st particle_props k st').
Proof.
  destruct (full_lookup "tag" has_tag) as (tag & Htag & Hwftag & Hltag & _).
  destruct add_particles_loop
    as (st1 & Hloop & (Hpa & Hprops & Hconsts & _) & Hgrown & _).
  destruct (Hgrown "tag" tag has_tag Htag)
    as (tag1 & Htag1 & Hwftag1 & Hltag1 & Harrtag1).
  assert (registered st1) as Hreg1.
  { unfold registered. rewrite Hprops. apply Forall_forall. intros p Hp.
    destruct (full_lookup p Hp) as (a & Ha & _).
    destruct (Hgrown p a Hp Ha) as (a' & Ha' & _). by eexists. }
  assert (DeviceHelper.get_number_of_particles st1 = Ok (n + k)) as Hnum1.
  { destruct (get_number_of_particles_ok st1 Hreg1) as [m Hm].
    rewrite Hm. f_equal.
    apply (get_number_of_particles_all_of_length (n + k) st1); [| |done].
    - unfold all_of_length. rewrite Hprops. apply Forall_forall.
      intros p Hp. destruct (full_lookup p Hp) as (a & Ha & _).
      destruct (Hgrown p a Hp Ha) as (a' & Ha' & ? & ? & _). by exists a'.
    - rewrite Hprops. intros Hnil. rewrite Hnil in has_tag.
      by apply elem_of_nil in has_tag. }
  destruct (align_particles_exact st1 tag1 (n + k))
    as (st2 & Halign & Hprops2 & _ & Haligned & _ & _);
    [by rewrite Hprops|done..|].
  rewrite Harrtag1 in Haligned.
  set (sorted_indices :=
         DeviceHelper.radix_sort (arange (n + k))
           (DeviceArray.array tag ++ new_tail st particle_props k "tag")) in *.
  assert (∀ p a, p ∈ DeviceHelper.properties st →
            DeviceHelper._data st !! p = Some a →
            ∃ a', DeviceHelper._data st2 !! p = Some a' ∧
                  DeviceArray.length a' = n + k ∧
                  DeviceArray.array a'
                  = cl_take (DeviceArray.array a
                               ++ new_tail st particle_props k p)
                      sorted_indices) as Hfinal.
  { intros p a Hp Ha. destruct (Hgrown p a Hp Ha) as (a' & Ha' & _ & _ & Harr).
    eexists. split; [apply Haligned; [by rewrite Hprops|done]|].
    split.
    - rewrite length_align. apply length_radix_sort.
    - unfold DeviceArray.align. by rewrite array_set_data, Harr. }
  exists st2, tag. split; [done|]. split_and!.
  - unfold DeviceHelper.add_particles. pose proof full_number as Hnum.
    destruct particle_props as [|[prop0 first_values] kw]; [done|].
    assert (length first_values = k) as Hk.
    { rewrite Forall_forall in given_ok.
      destruct (given_ok (prop0, first_values)) as [_ Hk]; [|done].
      by left. }
    rewrite check_properties_ok.
    2:{ apply Forall_fmap. eapply Forall_impl; [exact given_ok|].
        by intros kv [Hin _]. }
    simpl. rewrite Hnum. simpl. rewrite Hk. simpl in Hloop.
    rewrite Hloop. simpl.
    by rewrite decide_True by done.
  - by rewrite Hprops2.
  - done.
  - intros Hid p a Hp Ha. fold sorted_indices in Hid.
    destruct (Hfinal p a Hp Ha) as (a' & Ha' & Hl & Harr).
    destruct (full_lookup p Hp) as (a0 & Ha0 & Hwf0 & Hl0 & _).
    assert (a0 = a) as -> by congruence.
    exists a'. split_and!; [done|lia|].
    destruct (grow_ok p a Hp Ha) as (g & _ & Hwfg & Hlg & Harrg).
    assert (length (DeviceArray.array a ++ new_tail st particle_props k p)
            = n + k) as Hlen.
    { rewrite <- Harrg. rewrite length_array by done. done. }
    rewrite Harr, Hid, <- Hlen, cl_take_arange.
    rewrite drop_app_length'; [done|]. symmetry. by apply length_array.
Qed.

End AddParticlesSpec.

(** Closed facts on concrete stores, by evaluation. *)
Local Ltac by_evaluation :=
  apply (bool_decide_unpack _); vm_compute; exact I.

(** C5, as stated, on the store of three particles whose last one is a
    ghost: [add_particles(x=[9, 9])] returns, but [align_particles] has moved
    the ghost behind the new particles, so the last two entries of [x] are
    [9; 3] and those of [y] are [7; 6]. *)
Lemma add_particles_moves_tails :
  ∃ st',
    DeviceHelper.add_particles (λ _, 0%Z) example_store [("x", [9; 9]%Z)]
    = Ok st' ∧
    getattr st' "x" = Some [1; 2; 9; 9; 3]%Z ∧
    getattr st' "y" = Some [4; 5; 7; 7; 6]%Z ∧
    ¬ tails_appended example_store [("x", [9; 9]%Z)] 2 st'.
Proof.
  eexists. split; [vm_compute; reflexivity|].
  split; [vm_compute; reflexivity|]. split; [vm_compute; reflexivity|].
  intros Htails.
  destruct (Htails "y" (DeviceArray.set_data [4; 5; 6]%Z))
    as (a' & Ha' & _ & Hdrop); [by_evaluation|reflexivity|].
  vm_compute in Ha'. injection Ha' as <-. vm_compute in Hdrop.
  discriminate Hdrop.
Qed.

Lemma all_real_store_full : full_of_length 3 all_real_store.
Proof.
  repeat constructor; eexists; (split; [reflexivity|]); by split_and!.
Qed.

(** Scenario B of the specification: three real particles, two more given
    by [x = [9, 9]] only. *)
Lemma add_particles_grows_then_aligns_witness :
  full_of_length 3 all_real_store ∧ 0 < 2 ∧
  ∃ st',
    DeviceHelper.add_particles (λ _, 0%Z) all_real_store [("x", [9; 9]%Z)]
    = Ok st' ∧
    tails_appended all_real_store [("x", [9; 9]%Z)] 2 st'.
Proof.
  assert (NoDup (DeviceHelper.properties all_real_store)) as H1
    by by_evaluation.
  assert ("tag" ∈ DeviceHelper.properties all_real_store) as H2
    by by_evaluation.
  assert ([("x", [9; 9]%Z)] ≠ []) as H4 by discriminate.
  assert (Forall (λ kv : string * list Z,
                    kv.1 ∈ DeviceHelper.properties all_real_store
                    ∧ length kv.2 = 2) [("x", [9; 9]%Z)]) as H5.
  { repeat constructor. }
  assert (0 < 2) as H6 by lia.
  assert (Forall (λ p, kw_lookup p [("x", [9; 9]%Z)] = None →
                       is_Some (ParticleArray.default_values
                                  (DeviceHelper._particle_array all_real_store)
                                  !! p))
                 (DeviceHelper.properties all_real_store)) as H7.
  { repeat constructor; intros _; by eexists. }
  destruct (add_particles_grows_then_aligns (λ _, 0%Z) all_real_store
              [("x", [9; 9]%Z)] 2 3 H1 H2 all_real_store_full H4 H5 H6 H7)
    as (st' & tag & Htag & Hadd & _ & _ & Htails).
  split; [exact all_real_store_full|]. split; [exact H6|].
  exists st'. split; [exact Hadd|]. apply Htails.
  vm_compute in Htag. injection Htag as <-. vm_compute. reflexivity.
Defined.

(** ** Stores: [extract_particles] *)

(** A container without properties and constants, for what
    [ParticleArray()] returns. *)
Definition empty_host : ParticleArray.t :=
  {| ParticleArray.name := "";
     ParticleArray.properties := [];
     ParticleArray.constants := [];
     ParticleArray.default_values := ∅;
     ParticleArray.output_property_arrays := [] |}.

Lemma extract_particles_no_indices (junk : nat → Z) fresh st props :
  DeviceHelper.extract_particles junk fresh st [] props
  = DeviceHelper.__init__ junk fresh.
Proof.
  unfold DeviceHelper.extract_particles.
  by destruct (DeviceHelper.__init__ junk fresh).
Qed.

(** C6, as stated, with no indices: [extract_particles] returns the freshly
    made store before it reaches the loop over the constants, so the
    constant [c] of the source is not in the result. *)
Lemma extract_particles_drops_constants :
  ∃ result,
    DeviceHelper.extract_particles (λ _, 0%Z) empty_host example_store []
      None = Ok result ∧
    "c" ∈ DeviceHelper.constants example_store ∧
    DeviceHelper.constants result = [] ∧
    DeviceHelper._data result !! "c" = None.
Proof.
  eexists. split; [vm_compute; reflexivity|].
  split; [by_evaluation|]. split; reflexivity.
Qed.

Section ExtractParticles.
Variable junk : nat → Z.
Variable fresh : ParticleArray.t.
Variable st : DeviceHelper.t.
Variable indices : list nat.
Variable props : option (list string).
Variable result0 : DeviceHelper.t.

(** The properties to extract. *)
Definition prop_names : list string :=
  match props with
  | None => DeviceHelper.properties st
  | Some props => props
  end.

Hypothesis some_indices : indices ≠ [].
Hypothesis fresh_store : DeviceHelper.__init__ junk fresh = Ok result0.
Hypothesis fresh_registered : registered result0.
Hypothesis props_ok :
  Forall (λ p, is_Some (DeviceHelper._data st !! p) ∧
               is_Some (ParticleArray.default_values
                          (DeviceHelper._particle_array st) !! p))
         prop_names.
Hypothesis constants_ok :
  Forall (λ c, is_Some (DeviceHelper._data st !! c))
         (DeviceHelper.constants st).
Hypothesis no_clash :
  Forall (λ c, (c ∉ prop_names) ∧ (c ∉ DeviceHelper.properties result0))
         (DeviceHelper.constants st).
Hypothesis tag_extracted :
  "tag" ∈ prop_names ∨ is_Some (DeviceHelper._data result0 !! "tag").

Lemma copy_values_ok src_arr :
  ∃ dst, DeviceArray.copy_values src_arr indices
           (DeviceArray.array (DeviceArray.__init__ junk (length indices)))
         = Ok dst.
Proof.
  unfold DeviceArray.copy_values.
  assert (length (DeviceArray.array
                    (DeviceArray.__init__ junk (length indices)))
          = length indices) as Hlen.
  { rewrite length_array by apply wf_init. done. }
  rewrite setitem_slice_upto; [by eexists|lia|apply length_cl_take].
Qed.

(** The store after the loop over the properties to extract. *)
Definition props_copied (done : list string) (r : DeviceHelper.t) : Prop :=
  DeviceHelper.constants r = DeviceHelper.constants result0 ∧
  (∀ q, q ∈ DeviceHelper.properties r
        ↔ q ∈ DeviceHelper.properties result0 ∨ q ∈ done) ∧
  (∀ q, is_Some (DeviceHelper._data r !! q)
        ↔ is_Some (DeviceHelper._data result0 !! q) ∨ q ∈ done).

(** The store after the loop over the constants of the source. *)
Definition constants_copied (r1 : DeviceHelper.t) (done : list string)
    (r : DeviceHelper.t) : Prop :=
  DeviceHelper.properties r = DeviceHelper.properties r1 ∧
  (∀ c, c ∈ done →
        c ∈ DeviceHelper.constants r ∧
        ∃ a, DeviceHelper._data st !! c = Some a ∧
             DeviceHelper._data r !! c = Some (DeviceArray.copy a)) ∧
  (∀ q, is_Some (DeviceHelper._data r1 !! q) →
        is_Some (DeviceHelper._data r !! q)).

Lemma props_loop_ok :
  ∃ r1,
    for_each prop_names
      (λ prop_name result_gpu,
         src_arr ← getitem (DeviceHelper._data st) prop_name;
         let dst_arr := DeviceArray.__init__ junk (len indices) in
         dst ← DeviceArray.copy_values src_arr indices
                 (DeviceArray.array dst_arr);
         let dst_arr := DeviceArray.store_array dst_arr dst in
         prop_default ←
           getitem (ParticleArray.default_values
                      (DeviceHelper._particle_array st)) prop_name;
         let result_gpu :=
           {| DeviceHelper._particle_array :=
                ParticleArray.add_property
                  (DeviceHelper._particle_array result_gpu)
                  prop_name prop_default;
              DeviceHelper._data := DeviceHelper._data result_gpu;
              DeviceHelper.properties := DeviceHelper.properties result_gpu;
              DeviceHelper.constants := DeviceHelper.constants result_gpu;
              DeviceHelper.num_real_particles :=
                DeviceHelper.num_real_particles result_gpu |} in
         Ok (DeviceHelper.update_prop result_gpu prop_name dst_arr))
      result0 = Ok r1 ∧
    props_copied prop_names r1.
Proof.
  apply for_each_ok.
  { split_and!; [done|..]; intros q; split; try (intros [?|[]%elem_of_nil]);
      by auto. }
  intros done x rest r Hps (Hc & Hp & Hd).
  assert (x ∈ prop_names) as Hx
    by (rewrite Hps; apply elem_of_app; right; by left).
  pose proof props_ok as Hok. rewrite Forall_forall in Hok.
  destruct (Hok x Hx) as [[src Hsrc] [default Hdefault]].
  rewrite (getitem_Some _ _ src) by done. simpl.
  destruct (copy_values_ok src) as [dst ->]. simpl.
  rewrite (getitem_Some _ _ default) by done. simpl.
  eexists. split; [done|]. split_and!.
  - done.
  - intros q. simpl. rewrite elem_of_app, list_elem_of_singleton.
    case_decide as Hin; [|rewrite elem_of_app, list_elem_of_singleton];
      rewrite Hp; [|tauto].
    split; [tauto|]. intros [?|[?| ->]]; [tauto..|]. by apply Hp.
  - intros q. simpl. rewrite elem_of_app, list_elem_of_singleton.
    destruct (decide (x = q)) as [<-|Hne].
    + rewrite lookup_insert_eq. split; [tauto|by eauto].
    + rewrite lookup_insert_ne by done. rewrite Hd.
      split; [tauto|]. intros [?|[?|?]]; [tauto..|]. by subst.
Qed.

Lemma constants_loop_ok r1 :
  ∃ r2,
    for_each (DeviceHelper.constants st)
      (λ const result_gpu,
         arr ← getitem (DeviceHelper._data st) const;
         Ok (DeviceHelper.update_const result_gpu const
               (DeviceArray.copy arr)))
      r1 = Ok r2 ∧
    constants_copied r1 (DeviceHelper.constants st) r2.
Proof.
  apply for_each_ok.
  { split_and!; [done| |done]. by intros c []%elem_of_nil. }
  intros done x rest r Hcs (Hp & Hdone & Hdom).
  assert (x ∈ DeviceHelper.constants st) as Hx
    by (rewrite Hcs; apply elem_of_app; right; by left).
  pose proof constants_ok as Hok. rewrite Forall_forall in Hok.
  destruct (Hok x Hx) as [arr Harr].
  rewrite (getitem_Some _ _ arr) by done. simpl.
  eexists. split; [done|]. split_and!.
  - done.
  - intros c [Hc| ->%list_elem_of_singleton]%elem_of_app.
    + destruct (Hdone c Hc) as (Hin & a & Ha & Hcopy). split.
      * simpl. case_decide; [done|]. apply elem_of_app. by left.
      * exists a. split; [done|]. simpl.
        destruct (decide (x = c)) as [->|Hne].
        -- rewrite lookup_insert_eq. congruence.
        -- by rewrite lookup_insert_ne.
    + split.
      * simpl. case_decide; [done|]. apply elem_of_app. right.
        by apply list_elem_of_singleton.
      * exists arr. split; [done|]. simpl. by rewrite lookup_insert_eq.
  - intros q Hq. simpl. destruct (decide (x = q)) as [->|Hne].
    + rewrite lookup_insert_eq. by eexists.
    + rewrite lookup_insert_ne by done. by apply Hdom.
Qed.

(** C6, as amended. With no indices [extract_particles] returns the freshly
    made store as it is, and copies nothing. With indices, on a store that
    has a buffer and a default value for every property to extract and a
    buffer for every constant, whose constants are not named like a property
    of the result, and with [tag] among the properties of the result, the
    call returns and every constant of the source is a constant of the
    result, bound to a copy of its buffer. *)
Theorem extract_particles_constants :
  (∀ props', DeviceHelper.extract_particles junk fresh st [] props'
             = Ok result0) ∧
  ∃ result,
    DeviceHelper.extract_particles junk fresh st indices props = Ok result ∧
    ∀ c a, c ∈ DeviceHelper.constants st →
           DeviceHelper._data st !! c = Some a →
           c ∈ DeviceHelper.constants result ∧
           DeviceHelper._data result !! c = Some (DeviceArray.copy a).
Proof.
  split.
  { intros props'. by rewrite extract_particles_no_indices. }
  destruct props_loop_ok as (r1 & Hr1 & Hc1 & Hp1 & Hd1).
  destruct (constants_loop_ok r1) as (r2 & Hr2 & Hp2 & Hcopied & Hd2).
  assert (registered r2) as Hreg2.
  { unfold registered. rewrite Hp2. apply Forall_forall. intros p Hp.
    apply Hd2, Hd1. apply Hp1 in Hp as [Hp|Hp]; [|by right].
    left. unfold registered in fresh_registered.
    rewrite Forall_forall in fresh_registered. by apply fresh_registered. }
  assert (is_Some (DeviceHelper._data r2 !! "tag")) as Htag2.
  { apply Hd2, Hd1. destruct tag_extracted; [by right|by left]. }
  destruct (align_particles_ok r2 Hreg2 Htag2)
    as (r3 & Hr3 & _ & Hp3 & Hc3 & _ & Hframe).
  eexists. split.
  - unfold DeviceHelper.extract_particles. rewrite fresh_store. simpl.
    rewrite decide_False by (by destruct indices).
    unfold prop_names in Hr1. simpl in Hr1. rewrite Hr1. simpl.
    rewrite Hr2. simpl. rewrite Hr3. simpl. done.
  - intros c a Hc Ha. simpl. rewrite Hc3.
    destruct (Hcopied c Hc) as (Hin & a' & Ha' & Hcopy).
    split; [done|]. rewrite Hframe; [congruence|].
    rewrite Hp2. intros [Hp|Hp]%Hp1.
    + pose proof no_clash as Hno. rewrite Forall_forall in Hno.
      by destruct (Hno c Hc).
    + pose proof no_clash as Hno. rewrite Forall_forall in Hno.
      by destruct (Hno c Hc).
Qed.

End ExtractParticles.

(** The store that [DeviceHelper(empty_host)] builds. *)
Definition empty_store : DeviceHelper.t :=
  {| DeviceHelper._particle_array := empty_host;
     DeviceHelper._data := ∅;
     DeviceHelper.properties := [];
     DeviceHelper.constants := [];
     DeviceHelper.num_real_particles := None |}.

(** Scenario C of the specification, on the store of three particles. *)
Lemma extract_particles_constants_witness :
  [2; 0] ≠ [] ∧
  DeviceHelper.__init__ (λ _, 0%Z) empty_host = Ok empty_store ∧
  ∃ result,
    DeviceHelper.extract_particles (λ _, 0%Z) empty_host example_store
      [2; 0] None = Ok result ∧
    "c" ∈ DeviceHelper.constants result ∧
    getattr result "c" = Some [42%Z].
Proof.
  assert ([2; 0] ≠ []) as H1 by discriminate.
  assert (DeviceHelper.__init__ (λ _, 0%Z) empty_host = Ok empty_store)
    as H2 by reflexivity.
  assert (registered empty_store) as H3 by constructor.
  assert (Forall (λ p, is_Some (DeviceHelper._data example_store !! p) ∧
                       is_Some (ParticleArray.default_values
                                  (DeviceHelper._particle_array example_store)
                                  !! p))
                 (prop_names example_store None)) as H4.
  { repeat constructor; by eexists. }
  assert (Forall (λ c, is_Some (DeviceHelper._data example_store !! c))
                 (DeviceHelper.constants example_store)) as H5.
  { repeat constructor; by eexists. }
  assert (Forall (λ c, (c ∉ prop_names example_store None) ∧
                       (c ∉ DeviceHelper.properties empty_store))
                 (DeviceHelper.constants example_store)) as H6
    by by_evaluation.
  assert ("tag" ∈ prop_names example_store None
          ∨ is_Some (DeviceHelper._data empty_store !! "tag")) as H7.
  { left. by_evaluation. }
  destruct (proj2 (extract_particles_constants (λ _, 0%Z) empty_host
                     example_store [2; 0] None empty_store
                     H1 H2 H3 H4 H5 H6 H7))
    as (result & Hrun & Hconsts).
  split; [exact H1|]. split; [exact H2|].
  exists result. split; [exact Hrun|].
  destruct (Hconsts "c" (DeviceArray.set_data [42%Z])) as [Hin Hc];
    [by_evaluation|reflexivity|].
  split; [exact Hin|]. unfold getattr. rewrite Hc. reflexivity.
Defined.

(** ** Stores: the partition that [align_particles] establishes *)

Lemma cl_take_app l i1 i2 : cl_take l (i1 ++ i2) = cl_take l i1 ++ cl_take l i2.
Proof. unfold cl_take. apply fmap_app. Qed.

(** Gathering the positions whose element satisfies [P] filters the list. *)
Lemma cl_take_filter (P : Z → Prop) (Q : nat → Prop)
    `{!∀ x, Decision (P x)} `{!∀ i, Decision (Q i)} (L pre l : list Z) :
  L = pre ++ l → (∀ i, Q i ↔ P (L !!! i)) →
  cl_take L (filter Q (seq (length pre) (length l))) = filter P l.
Proof.
  intros HL HQP. revert pre HL.
  induction l as [|x l IH]; intros pre HL; [done|].
  assert (L !!! length pre = x) as Hx.
  { apply list_lookup_total_correct. by rewrite HL, list_lookup_middle. }
  specialize (IH (pre ++ [x])). rewrite <- app_assoc in IH.
  rewrite length_app, Nat.add_1_r in IH. specialize (IH HL).
  simpl. rewrite !filter_cons.
  destruct (decide (Q (length pre))) as [HQ|HQ], (decide (P x)) as [HP|HP].
  - unfold cl_take at 1. rewrite fmap_cons, Hx. f_equal. apply IH.
  - apply HQP in HQ. by rewrite Hx in HQ.
  - rewrite <- Hx in HP. by apply HQP in HP.
  - apply IH.
Qed.

Lemma cl_take_buckets (digit : Z → Z) l :
  cl_take l (buckets (λ i, digit (l !!! i)) (seq 0 (length l)))
  = buckets digit l.
Proof.
  unfold buckets. rewrite !fmap_cons, !fmap_nil. simpl.
  rewrite !cl_take_app.
  repeat f_equal; by apply (cl_take_filter _ _ l []).
Qed.

(** The sorted tags: the real particles first. *)
Lemma buckets_tags (tags : list Z) :
  Forall (λ t, 0 ≤ t < 4)%Z tags →
  ∃ ghosts,
    buckets (λ t, Z.land t 3) tags
    = replicate (length (filter (λ t, t = 0%Z) tags)) 0%Z ++ ghosts ∧
    Forall (λ t, t ≠ 0%Z) ghosts ∧
    (Forall (λ t, t = 0%Z) tags ↔ ghosts = []).
Proof.
  intros Hdom.
  assert (buckets (λ t, Z.land t 3) tags ≡ₚ tags) as Hperm.
  { apply buckets_perm, Forall_forall. intros t _. apply land_3_cases. }
  revert Hperm. unfold buckets. rewrite !fmap_cons, !fmap_nil. simpl.
  intros Hperm.
  exists (filter (λ t, Z.land t 3 = 1%Z) tags
          ++ filter (λ t, Z.land t 3 = 2%Z) tags
          ++ filter (λ t, Z.land t 3 = 3%Z) tags ++ []).
  assert (filter (λ t, Z.land t 3 = 0%Z) tags
          = replicate (length (filter (λ t, t = 0%Z) tags)) 0%Z) as Hzeros.
  { clear Hperm. induction Hdom as [|t tags Ht _ IH]; [done|].
    rewrite !filter_cons, land_3_small by done.
    case_decide; simpl; by rewrite IH; subst. }
  rewrite Hzeros in Hperm. split_and!; [by rewrite Hzeros| |split].
  - rewrite app_nil_r, !Forall_app.
    split_and!; apply Forall_forall; intros t [Ht Hin]%list_elem_of_filter;
      rewrite Forall_forall in Hdom; specialize (Hdom t Hin);
      rewrite land_3_small in Ht by done; lia.
  - intros Hzero.
    assert (∀ d, d ≠ 0%Z → filter (λ t, Z.land t 3 = d) tags = []) as Hnone.
    { intros d Hd. clear Hperm Hzeros.
      induction Hzero as [|t tags -> _ IH]; [done|].
      rewrite filter_cons. simpl. rewrite decide_False by done.
      apply IH. by apply Forall_inv_tail in Hdom. }
    by rewrite !Hnone.
  - intros Hnil. rewrite Hnil, app_nil_r in Hperm. rewrite <- Hperm.
    apply Forall_forall. by intros t [-> _]%elem_of_replicate.
Qed.

(** The last work item that writes decides the cell. *)
Lemma foldl_last_write (cond : nat → Prop) `{!∀ i, Decision (cond i)}
    (c : nat) (l : list nat) (out : nat) :
  (∀ i, i ∈ l → cond i → i = c) →
  foldl (λ out i, if decide (cond i) then i else out) out l
  = if decide (c ∈ l ∧ cond c) then c else out.
Proof.
  revert out. induction l as [|x l IH]; intros out Hc.
  { rewrite decide_False; [done|]. by intros [[]%elem_of_nil _]. }
  simpl foldl. rewrite IH by (intros i Hi; apply Hc; by right).
  destruct (decide (cond x)) as [Hx|Hx].
  - assert (x = c) as -> by (apply Hc; [by left|done]).
    rewrite (decide_True (P := c ∈ c :: l ∧ cond c)) by (split; [by left|done]).
    by case_decide.
  - destruct (decide (c ∈ l ∧ cond c)) as [[Hin Hcc]|Hno].
    + by rewrite decide_True by (split; [by right|done]).
    + rewrite decide_False; [done|].
      intros [[->|Hin]%elem_of_cons Hcc]; [done|]. by apply Hno.
Qed.

Lemma get_num_real_particles_sorted (real : nat) (ghosts : list Z) :
  Forall (λ t, t ≠ 0%Z) ghosts →
  DeviceHelper.get_num_real_particles (replicate real 0%Z ++ ghosts) 0
  = if decide (ghosts = []) then 0 else real.
Proof.
  intros Hghosts. unfold DeviceHelper.get_num_real_particles.
  set (tags := replicate real 0%Z ++ ghosts).
  assert (∀ i, i < real → tags !!! i = 0%Z) as Hreal.
  { intros i Hi. apply list_lookup_total_correct. unfold tags.
    rewrite lookup_app_l by (by rewrite length_replicate).
    by apply lookup_replicate_2. }
  assert (∀ i, real ≤ i < length tags → tags !!! i ≠ 0%Z) as Hghost.
  { intros i [Hi Hlen]. unfold tags in *.
    rewrite length_app, length_replicate in Hlen.
    destruct (lookup_lt_is_Some_2 ghosts (i - real)) as [t Ht]; [lia|].
    rewrite (list_lookup_total_correct _ _ t).
    - rewrite Forall_forall in Hghosts. apply Hghosts.
      by eapply list_elem_of_lookup_2.
    - rewrite lookup_app_r by (rewrite length_replicate; lia).
      by rewrite length_replicate. }
  rewrite (foldl_last_write _ real).
  - destruct (decide (ghosts = [])) as [->|Hne].
    + case_decide as Hc; [|done]. destruct Hc as [Hin _].
      apply elem_of_seq in Hin. unfold tags in Hin.
      rewrite length_app, length_replicate in Hin. simpl in Hin. lia.
    + case_decide as Hc; [done|]. destruct real as [|real]; [done|].
      destruct Hc. split.
      * apply elem_of_seq. unfold tags.
        rewrite length_app, length_replicate. destruct ghosts; [done|].
        simpl. lia.
      * assert (S real < length tags) as Hlt.
        { unfold tags. rewrite length_app, length_replicate.
          destruct ghosts; [done|]. simpl. lia. }
        split_and!; [done| |].
        -- replace (S real - 1) with real by lia. rewrite (Hreal real) by lia.
           apply Hghost. lia.
        -- replace (S real - 1) with real by lia. apply Hreal. lia.
  - intros i Hi%elem_of_seq (Hi0 & Hstep & Hprev).
    destruct (decide (i - 1 < real)) as [Hlt|Hge].
    + destruct (decide (i < real)) as [Hlt'|Hge']; [|lia].
      rewrite (Hreal i), (Hreal (i - 1)) in Hstep by lia. done.
    + exfalso. apply (Hghost (i - 1)); [lia|done].
Qed.

(** On a consistent store whose tags are in the tag domain [0, 4),
    [align_particles] returns, brings the real particles to the front, and,
    unless every particle is real, counts them: the partition invariant
    holds for every store that has a ghost or no particle at all. When all
    particles are real the count is [0]. *)
Lemma align_particles_partition st tag n :
  NoDup (DeviceHelper.properties st) → all_of_length n st →
  "tag" ∈ DeviceHelper.properties st →
  DeviceHelper._data st !! "tag" = Some tag →
  Forall (λ t, 0 ≤ t < 4)%Z (DeviceArray.array tag) →
  ∃ st' tag' m,
    DeviceHelper.align_particles st = Ok st' ∧
    DeviceHelper._data st' !! "tag" = Some tag' ∧
    DeviceHelper.num_real_particles st' = Some m ∧
    DeviceArray.array tag' ≡ₚ DeviceArray.array tag ∧
    (¬ Forall (λ t, t = 0%Z) (DeviceArray.array tag) →
     ∀ i t, DeviceArray.array tag' !! i = Some t → (i < m ↔ t = 0%Z)) ∧
    (Forall (λ t, t = 0%Z) (DeviceArray.array tag) → m = 0).
Proof.
  intros Hnd Hall Hin Htag Hdom.
  assert (registered st) as Hreg.
  { eapply Forall_impl; [exact Hall|]. intros p (a & Ha & _). by eexists. }
  assert (length (DeviceArray.array tag) = n) as Hlen.
  { unfold all_of_length in Hall. rewrite Forall_forall in Hall.
    destruct (Hall "tag" Hin) as (a & Ha & Hwf & Hl).
    assert (a = tag) as -> by congruence. by rewrite length_array. }
  assert (DeviceHelper.get_number_of_particles st = Ok n) as Hnum.
  { destruct (get_number_of_particles_ok st Hreg) as [m Hm]. rewrite Hm.
    f_equal. apply (get_number_of_particles_all_of_length n st); [done| |done].
    intros Hnil. rewrite Hnil in Hin. by apply elem_of_nil in Hin. }
  destruct (align_particles_exact st tag n Hnd Hreg Htag Hnum)
    as (st' & Hrun & _ & _ & Haligned & _ & tag' & Htag' & Hreal).
  rewrite (Haligned "tag" tag Hin Htag) in Htag'. injection Htag' as <-.
  assert (DeviceArray.array
            (DeviceArray.align tag
               (DeviceHelper.radix_sort (arange n) (DeviceArray.array tag)))
          = buckets (λ t, Z.land t 3) (DeviceArray.array tag)) as Hsorted.
  { unfold DeviceArray.align. rewrite array_set_data, radix_sort_arange.
    rewrite <- Hlen. apply (cl_take_buckets (λ t, Z.land t 3)). }
  destruct (buckets_tags (DeviceArray.array tag) Hdom)
    as (ghosts & Hbuckets & Hghosts & Hnone).
  rewrite Hsorted, Hbuckets in Hreal.
  rewrite get_num_real_particles_sorted in Hreal by done.
  eexists st', _, _. split_and!; [done|by apply Haligned|done|..].
  - rewrite Hsorted. apply buckets_perm, Forall_forall.
    intros t _. apply land_3_cases.
  - intros Hsome i t. rewrite Hsorted, Hbuckets.
    rewrite decide_False by (by intros ?%Hnone).
    set (real := length (filter (λ t, t = 0%Z) (DeviceArray.array tag))).
    destruct (decide (i < real)) as [Hlt|Hge].
    + rewrite lookup_app_l by (by rewrite length_replicate).
      intros [-> _]%lookup_replicate. done.
    + rewrite lookup_app_r by (rewrite length_replicate; lia).
      intros Ht%list_elem_of_lookup_2. rewrite Forall_forall in Hghosts.
      specialize (Hghosts t Ht). split; [lia|done].
  - intros Hzero%Hnone. by rewrite decide_True.
Qed.

(** ** Stores: [append_parray] never adds a property *)

Lemma raises_bind {A B} (m : result A) (f : A → result B) :
  raises m → raises (m ≫= f).
Proof. intros [e ->]. by exists e. Qed.

(** A loop raises when its body raises on an item for as long as a
    condition holds that the body keeps on the other items. *)
Lemma for_each_raises {A S} `{!EqDecision A} (C : S → Prop)
    (body : A → S → result S) (x : A) (l : list A) (s : S) :
  (∀ s, C s → raises (body x s)) →
  (∀ y s s', y ≠ x → C s → body y s = Ok s' → C s') →
  x ∈ l → C s → raises (for_each l body s).
Proof.
  intros Hx Hkeep Hin. revert s.
  induction l as [|y l IH]; intros s Hs; [by apply elem_of_nil in Hin|].
  simpl. destruct (decide (y = x)) as [->|Hne].
  { by apply raises_bind, Hx. }
  destruct (body y s) as [s'|e] eqn:Hb; [|by exists e]. simpl.
  apply IH; [|by eapply Hkeep].
  by apply elem_of_cons in Hin as [->|Hin].
Qed.

Section AppendParray.
Variable junk : nat → Z.

Lemma extend_frame st num_particles st' :
  DeviceHelper.extend junk st num_particles = Ok st' →
  DeviceHelper.properties st' = DeviceHelper.properties st ∧
  ∀ q, q ∉ DeviceHelper.properties st →
       DeviceHelper._data st' !! q = DeviceHelper._data st !! q.
Proof.
  unfold DeviceHelper.extend. case_decide; [by intros [= <-]|].
  intros (old & _ & Hrun)%bind_Ok. revert Hrun.
  apply (for_each_inv
           (λ _ s, DeviceHelper.properties s = DeviceHelper.properties st ∧
                   ∀ q, q ∉ DeviceHelper.properties st →
                        DeviceHelper._data s !! q
                        = DeviceHelper._data st !! q)); [done|].
  intros done x rest s1 s2 Hps [Hp Hd] Hb.
  apply bind_Ok in Hb as (arr & _ & Hb).
  apply bind_Ok in Hb as (arr1 & _ & Hb).
  apply bind_Ok in Hb as (default & _ & [= <-]).
  assert (x ∈ DeviceHelper.properties st) as Hx
    by (rewrite Hps; apply elem_of_app; right; by left).
  rewrite update_prop_registered by (by rewrite Hp). split; [done|].
  intros q Hq. simpl. rewrite lookup_insert_ne by (by intros ->).
  by apply Hd.
Qed.

(** With a property [p] that the other store has and [self] has neither as
    a property nor under [_data], [append_parray] of a non-empty store
    raises. *)
Lemma append_parray_raises st parray other p k :
  DeviceHelper.gpu parray = Some other →
  DeviceHelper.get_number_of_particles other = Ok k → k ≠ 0 →
  p ∈ DeviceHelper.properties other →
  p ∉ DeviceHelper.properties st →
  DeviceHelper._data st !! p = None →
  raises (DeviceHelper.append_parray junk st parray).
Proof.
  intros Hgpu Hk Hk0 Hp Hnew Hnone. unfold DeviceHelper.append_parray.
  rewrite Hgpu. simpl. rewrite Hk. simpl. rewrite decide_False by done.
  destruct (DeviceHelper.get_number_of_particles st) as [old|e];
    [|by exists e].
  simpl.
  destruct (DeviceHelper.extend junk st (Z.of_nat k)) as [st1|e] eqn:Hext;
    [|by exists e].
  simpl. apply extend_frame in Hext as [Hprops Hdata].
  apply raises_bind.
  apply (for_each_raises
           (λ s, (p ∉ DeviceHelper.properties s)
                 ∧ DeviceHelper._data s !! p = None) _ p); [| |done|].
  - intros s [Hs Hd]. rewrite decide_False by done.
    apply raises_bind. unfold getitem. rewrite Hd. by exists KeyError.
  - intros y s s' Hy [Hs Hd]. case_decide as Hin.
    + intros (arr & _ & (src & _ & (a & _ & Hb)%bind_Ok)%bind_Ok)%bind_Ok.
      apply bind_Ok in Hb as (arr' & _ & [= <-]).
      split; [done|]. simpl. by rewrite lookup_insert_ne.
    + intros (_ & _ & (default & _ & Hb)%bind_Ok)%bind_Ok.
      apply bind_Ok in Hb as (dest & _ & Hb).
      apply bind_Ok in Hb as (src & _ & Hb).
      apply bind_Ok in Hb as (a & _ & Hb).
      apply bind_Ok in Hb as (dest' & _ & [= <-]).
      split.
      * simpl. rewrite decide_False by done.
        intros [?| ->%list_elem_of_singleton]%elem_of_app; done.
      * simpl. by rewrite !lookup_insert_ne.
  - split; [by rewrite Hprops|]. by rewrite Hdata.
Qed.

End AppendParray.

(** ** Buffers: the compaction of [remove] *)

(** The elements of [l] at the positions that are not in [R], in the order
    of [l]. *)
Definition without (l : list Z) (R : list nat) : list Z :=
  cl_take l (filter (λ i, i ∉ R) (seq 0 (length l))).

(** The mask after the kernel ["if_remove[indices[i]] = 1;"]. *)
Definition remove_mask (R : list nat) (n : nat) : list Z :=
  (λ i, if decide (i ∈ R) then 1%Z else 0%Z) <$> seq 0 n.

Definition Zsum (l : list Z) : Z := foldr Z.add 0%Z l.

Lemma Zsum_app l1 l2 : Zsum (l1 ++ l2) = (Zsum l1 + Zsum l2)%Z.
Proof. induction l1 as [|x l1 IH]; simpl; [done|]. rewrite IH. lia. Qed.

Lemma fill_if_remove_knl_lookup R (m : list Z) i :
  DeviceArray.fill_if_remove_knl R m !! i
  = if decide (i ∈ R ∧ i < length m) then Some 1%Z else m !! i.
Proof.
  unfold DeviceArray.fill_if_remove_knl. revert m.
  induction R as [|x R IH]; intros m.
  { rewrite decide_False; [done|]. by intros [[]%elem_of_nil _]. }
  simpl foldl. rewrite IH, length_insert.
  destruct (decide (i ∈ R ∧ i < length m)) as [[HR Hlt]|Hno].
  - rewrite decide_True; [done|]. split; [by right|done].
  - destruct (decide (x = i)) as [->|Hne].
    + destruct (decide (i < length m)) as [Hlt|Hge].
      * rewrite list_lookup_insert_eq by done.
        rewrite decide_True; [done|]. split; [by left|done].
      * rewrite list_insert_ge by lia. rewrite decide_False; [done|].
        intros [_ ?]. lia.
    + rewrite list_lookup_insert_ne by done. rewrite decide_False; [done|].
      intros [[->|HR]%elem_of_cons Hlt]; [done|]. by apply Hno.
Qed.

Lemma fill_if_remove_knl_zeros R n :
  DeviceArray.fill_if_remove_knl R (replicate n 0%Z) = remove_mask R n.
Proof.
  apply list_eq. intros i. rewrite fill_if_remove_knl_lookup.
  unfold remove_mask. rewrite list_lookup_fmap, length_replicate.
  destruct (decide (i < n)) as [Hlt|Hge].
  - rewrite lookup_seq_lt by done. simpl.
    rewrite lookup_replicate_2 by done.
    destruct (decide (i ∈ R)) as [HR|HR].
    + by rewrite decide_True.
    + rewrite decide_False; [done|]. by intros [? _].
  - rewrite lookup_seq_ge by lia. simpl.
    rewrite decide_False by (intros [_ ?]; lia).
    apply lookup_replicate_None. lia.
Qed.

Lemma array_fill d x :
  DeviceArray.wf d →
  DeviceArray.array (DeviceArray.fill d x)
  = replicate (DeviceArray.length d) x.
Proof.
  intros [Ha Hl]. unfold DeviceArray.array, DeviceArray.fill.
  cbn [DeviceArray._data DeviceArray.length]. unfold fill_slice.
  rewrite (Nat.min_l (DeviceArray.length d)) by lia.
  rewrite Nat.min_0_l, Nat.sub_0_r, take_0. simpl.
  by rewrite take_app_length' by (by rewrite length_replicate).
Qed.

Lemma array_fill_init (junk : nat → Z) n x :
  DeviceArray.array (DeviceArray.fill (DeviceArray.__init__ junk n) x)
  = replicate n x.
Proof. by rewrite array_fill by apply wf_init. Qed.

Lemma scan_from_lookup (l : list Z) acc i :
  i < length l →
  DeviceArray.scan_from acc l !!! i = (acc + Zsum (take (S i) l))%Z.
Proof.
  revert acc i. induction l as [|x l IH]; intros acc i Hi; simpl in *; [lia|].
  destruct i as [|i]; simpl.
  - unfold Zsum. simpl. lia.
  - rewrite IH by lia. unfold Zsum. simpl. lia.
Qed.

Lemma length_remove_mask R n : length (remove_mask R n) = n.
Proof. unfold remove_mask. by rewrite length_fmap, length_seq. Qed.

Lemma remove_mask_lookup R n i :
  i < n → remove_mask R n !!! i = if decide (i ∈ R) then 1%Z else 0%Z.
Proof.
  intros Hi. apply list_lookup_total_correct. unfold remove_mask.
  rewrite list_lookup_fmap, lookup_seq_lt by done. done.
Qed.

Lemma Zsum_remove_mask R n k :
  k ≤ n →
  Zsum (take k (remove_mask R n))
  = Z.of_nat (length (filter (λ i, i ∈ R) (seq 0 k))).
Proof.
  intros Hk. unfold remove_mask. rewrite <- fmap_take, take_seq.
  rewrite Nat.min_l by done. clear Hk.
  induction k as [|k IH]; [done|].
  rewrite seq_S, fmap_app, Zsum_app, filter_app, length_app, IH. simpl.
  rewrite filter_cons, filter_nil. case_decide; simpl; lia.
Qed.

Lemma length_filter_split (R : list nat) k :
  length (filter (λ i, i ∈ R) (seq 0 k))
  + length (filter (λ i, i ∉ R) (seq 0 k)) = k.
Proof.
  rewrite <- length_app, (filter_app_complement (λ i, i ∈ R) (seq 0 k)).
  apply length_seq.
Qed.

Lemma length_filter_removed (R : list nat) n :
  NoDup R → Forall (λ i, i < n) R →
  length (filter (λ i, i ∈ R) (seq 0 n)) = length R.
Proof.
  intros Hnd Hrange. apply Permutation_length, NoDup_Permutation.
  - apply NoDup_filter, NoDup_seq.
  - done.
  - intros i. rewrite list_elem_of_filter, elem_of_seq.
    rewrite Forall_forall in Hrange. split; [by intros [? _]|].
    intros Hi. split; [done|]. specialize (Hrange i Hi). lia.
Qed.

(** The output of the scan kernel once the work items below [m] have run:
    the survivors among the first [m] elements, then the old contents. *)
Lemma remove_knl_prefix R (arr : list Z) m :
  m ≤ length arr →
  let mask := remove_mask R (length arr) in
  let item := DeviceArray.inclusive_scan mask in
  let kept := cl_take arr (filter (λ i, i ∉ R) (seq 0 m)) in
  foldl (λ out i,
           if decide (mask !!! i = 0%Z)
           then <[i - Z.to_nat (item !!! i) := arr !!! i]> out
           else out)
        arr (seq 0 m)
  = kept ++ drop (length kept) arr.
Proof.
  intros Hm mask item. induction m as [|m IH]; [done|].
  rewrite seq_S, foldl_app, filter_app, cl_take_app. simpl foldl.
  rewrite IH by lia. clear IH. simpl. rewrite filter_cons, filter_nil.
  assert (mask !!! m = if decide (m ∈ R) then 1%Z else 0%Z) as ->
    by (apply remove_mask_lookup; lia).
  destruct (decide (m ∈ R)) as [HR|HR].
  - rewrite decide_False by done. rewrite decide_False by (by intros ?).
    simpl. by rewrite app_nil_r.
  - rewrite decide_True by done. rewrite decide_True by done.
    set (kept := cl_take arr (filter (λ i, i ∉ R) (seq 0 m))).
    assert (m - Z.to_nat (item !!! m) = length kept) as ->.
    { unfold item, DeviceArray.inclusive_scan.
      rewrite scan_from_lookup by (unfold mask; rewrite length_remove_mask; lia).
      unfold mask. rewrite Zsum_remove_mask by lia.
      rewrite seq_S, filter_app, length_app. simpl.
      rewrite filter_cons, filter_nil, decide_False by done. simpl.
      unfold kept. rewrite length_cl_take.
      pose proof (length_filter_split R m). lia. }
    assert (length kept ≤ m) as Hkept.
    { unfold kept. rewrite length_cl_take.
      pose proof (length_filter_split R m). lia. }
    destruct (lookup_lt_is_Some_2 arr (length kept)) as [x Hx]; [lia|].
    rewrite insert_app_r_alt, Nat.sub_diag by done.
    rewrite (drop_S _ _ _ Hx). simpl.
    rewrite <- app_assoc. simpl.
    do 2 f_equal. rewrite length_app. simpl. f_equal. lia.
Qed.

(** Compaction correctness: with at least one index, all indices distinct
    and in range, [remove] leaves the elements at the other positions, in
    their order, and the length shrinks by the number of indices. *)
Lemma remove_spec (junk : nat → Z) d indices :
  DeviceArray.wf d → indices ≠ [] → NoDup indices →
  Forall (λ i, i < DeviceArray.length d) indices →
  ∃ d', DeviceArray.remove junk d indices = Ok d' ∧
        DeviceArray.array d' = without (DeviceArray.array d) indices ∧
        DeviceArray.length d' = DeviceArray.length d - length indices.
Proof.
  intros Hwf Hne Hnd Hrange.
  pose proof (length_array d Hwf) as Hlen.
  assert (length indices ≤ DeviceArray.length d) as Hcount.
  { rewrite <- (length_filter_removed indices (DeviceArray.length d))
      by done.
    pose proof (length_filter_split indices (DeviceArray.length d)). lia. }
  unfold DeviceArray.remove. rewrite decide_False by lia.
  rewrite array_fill_init, fill_if_remove_knl_zeros.
  unfold DeviceArray.copy. rewrite array_set_data.
  unfold DeviceArray.remove_knl. rewrite length_remove_mask, <- Hlen.
  rewrite (remove_knl_prefix indices (DeviceArray.array d)) by done.
  fold (without (DeviceArray.array d) indices).
  assert (length (without (DeviceArray.array d) indices)
          = DeviceArray.length d - length indices) as Hkept.
  { unfold without. rewrite length_cl_take, Hlen.
    pose proof (length_filter_split indices (DeviceArray.length d)).
    rewrite length_filter_removed in * by done. lia. }
  eexists. split; [done|].
  assert (neg_bound
            (length (without (DeviceArray.array d) indices
                     ++ drop (length (without (DeviceArray.array d) indices))
                          (DeviceArray.array d)))
            (length indices)
          = length (without (DeviceArray.array d) indices)) as ->.
  { unfold neg_bound. rewrite decide_False by (by destruct indices).
    rewrite length_app, length_drop. lia. }
  rewrite take_app_length, array_set_data. split; [done|]. simpl. lia.
Qed.

(** * Further properties of the buffer *)

(** A buffer of three elements without spare capacity, and one of two
    elements in four cells. *)
Definition buffer_123 : DeviceArray.t := DeviceArray.set_data [1; 2; 3]%Z.
Definition buffer_spare : DeviceArray.t :=
  {| DeviceArray._data := [1; 2; 8; 9]%Z;
     DeviceArray.length := 2; DeviceArray.alloc := 4 |}.

Lemma buffer_123_wf : DeviceArray.wf buffer_123.
Proof. by split. Qed.

Lemma buffer_spare_wf : DeviceArray.wf buffer_spare.
Proof. split; simpl; lia. Qed.

(** X1. [reserve] never changes the logical contents nor the length: it
    returns the buffer as it is when the capacity suffices, and otherwise
    moves the cells to an allocation of exactly [size] cells. *)
Theorem reserve_keeps_contents (junk : nat → Z) d size :
  DeviceArray.wf d →
  ∃ d', DeviceArray.reserve junk d size = Ok d' ∧
        DeviceArray.wf d' ∧
        DeviceArray.length d' = DeviceArray.length d ∧
        DeviceArray.array d' = DeviceArray.array d ∧
        DeviceArray.alloc d' = DeviceArray.alloc d `max` size ∧
        (size ≤ DeviceArray.alloc d → d' = d).
Proof.
  intros Hwf.
  destruct (reserve_spec junk d size Hwf) as (d' & Hr & Hwf' & Hl & Ha & Hd).
  exists d'. split_and!; [done..| |done|].
  - unfold DeviceArray.array. rewrite Hl, Hd. destruct Hwf as [Hal Hle].
    by rewrite take_app_le by lia.
  - intros Hfit. unfold DeviceArray.reserve in Hr.
    rewrite decide_False in Hr by lia. by injection Hr.
Qed.

Lemma reserve_keeps_contents_witness :
  DeviceArray.wf buffer_123 ∧
  ∃ d', DeviceArray.reserve (λ _, 0%Z) buffer_123 5 = Ok d' ∧
        DeviceArray.array d' = [1; 2; 3]%Z ∧ DeviceArray.alloc d' = 5.
Proof.
  split; [exact buffer_123_wf|].
  destruct (reserve_keeps_contents (λ _, 0%Z) buffer_123 5 buffer_123_wf)
    as (d' & Hr & _ & _ & Harr & Hal & _).
  exists d'. split; [exact Hr|]. split; [exact Harr|exact Hal].
Defined.

(** X2. [resize] sets the length and never shrinks the allocation; the
    elements below both the old and the new length stay, and a [resize]
    within the capacity leaves every cell as it was, so that shrinking and
    growing back shows the old elements again. *)
Theorem resize_keeps_prefix (junk : nat → Z) d size :
  DeviceArray.wf d →
  ∃ d', DeviceArray.resize junk d size = Ok d' ∧
        DeviceArray.wf d' ∧
        DeviceArray.length d' = size ∧
        DeviceArray.alloc d' = DeviceArray.alloc d `max` size ∧
        take (DeviceArray.length d `min` size) (DeviceArray.array d')
        = take (DeviceArray.length d `min` size) (DeviceArray.array d) ∧
        (size ≤ DeviceArray.alloc d →
         DeviceArray._data d' = DeviceArray._data d).
Proof.
  intros Hwf.
  destruct (resize_spec junk d size Hwf) as (d' & Hr & Hwf' & Hl & Ha & Hd).
  exists d'. split_and!; [done..| |].
  - unfold DeviceArray.array. rewrite Hl, Hd. destruct Hwf as [Hal Hle].
    rewrite !take_take.
    rewrite (Nat.min_l _ size) by lia.
    rewrite (Nat.min_l _ (DeviceArray.length d)) by lia.
    by rewrite take_app_le by lia.
  - intros Hfit. rewrite Hd, drop_ge; [by rewrite app_nil_r|].
    rewrite length_empty. lia.
Qed.

Lemma resize_keeps_prefix_witness :
  DeviceArray.wf buffer_123 ∧
  ∃ d' d'',
    DeviceArray.resize (λ _, 0%Z) buffer_123 1 = Ok d' ∧
    DeviceArray.array d' = [1%Z] ∧
    DeviceArray.resize (λ _, 0%Z) d' 3 = Ok d'' ∧
    DeviceArray.array d'' = [1; 2; 3]%Z.
Proof.
  split; [exact buffer_123_wf|].
  destruct (resize_keeps_prefix (λ _, 0%Z) buffer_123 1 buffer_123_wf)
    as (d' & Hr & Hwf' & Hl & Hal & _ & Hdata).
  destruct (resize_keeps_prefix (λ _, 0%Z) d' 3 Hwf')
    as (d'' & Hr' & _ & Hl' & _ & _ & Hdata').
  exists d', d''. split; [exact Hr|].
  assert (DeviceArray._data d' = [1; 2; 3]%Z) as Hd
    by (apply Hdata; simpl; lia).
  assert (DeviceArray._data d'' = [1; 2; 3]%Z) as Hd'.
  { rewrite Hdata'; [exact Hd|]. rewrite Hal. simpl. lia. }
  split; [|split; [exact Hr'|]].
  - unfold DeviceArray.array. rewrite Hl, Hd. reflexivity.
  - unfold DeviceArray.array. rewrite Hl', Hd'. reflexivity.
Defined.

(** X3. On a buffer with at least one allocated cell [append] returns, the
    buffer shows its old elements followed by the value, and the capacity is
    doubled exactly when the buffer was full. *)
Theorem append_appends (junk : nat → Z) d value :
  DeviceArray.wf d → 0 < DeviceArray.alloc d →
  ∃ d', DeviceArray.append junk d value = Ok d' ∧
        DeviceArray.wf d' ∧
        DeviceArray.array d' = DeviceArray.array d ++ [value] ∧
        DeviceArray.length d' = DeviceArray.length d + 1 ∧
        DeviceArray.alloc d'
        = (if decide (DeviceArray.length d = DeviceArray.alloc d)
           then 2 * DeviceArray.length d else DeviceArray.alloc d).
Proof.
  intros Hwf Hpos.
  destruct (append_spec junk d value Hwf Hpos)
    as (d' & Hr & Hwf' & Hl & Hal & Harr).
  exists d'. split_and!; [done..|]. rewrite Hal. destruct Hwf as [_ Hle].
  repeat case_decide; lia.
Qed.

Lemma append_appends_witness :
  DeviceArray.wf buffer_123 ∧ 0 < DeviceArray.alloc buffer_123 ∧
  ∃ d', DeviceArray.append (λ _, 0%Z) buffer_123 4 = Ok d' ∧
        DeviceArray.array d' = [1; 2; 3; 4]%Z ∧ DeviceArray.alloc d' = 6.
Proof.
  assert (0 < DeviceArray.alloc buffer_123) as Hpos by (simpl; lia).
  split; [exact buffer_123_wf|]. split; [exact Hpos|].
  destruct (append_appends (λ _, 0%Z) buffer_123 4 buffer_123_wf Hpos)
    as (d' & Hr & _ & Harr & _ & Hal).
  exists d'. split; [exact Hr|]. split; [exact Harr|exact Hal].
Defined.

(** X4. Every sequence of [append], [extend] and [resize] calls that run to
    the end keeps [length ≤ alloc = len(_data)] and never shrinks the
    capacity; on a buffer made by the constructor a further [append]
    always returns. *)
Theorem growth_keeps_capacity_invariant (junk : nat → Z) calls d d' :
  DeviceArray.wf d → for_each calls (call junk) d = Ok d' →
  DeviceArray.wf d' ∧
  DeviceArray.alloc d ≤ DeviceArray.alloc d' ∧
  (0 < DeviceArray.alloc d →
   ∀ value, is_Ok (DeviceArray.append junk d' value)).
Proof.
  intros Hwf Hrun.
  destruct (capacity_invariant junk calls d d' Hwf Hrun) as [Hwf' Hal].
  split_and!; [done..|]. intros Hpos value.
  destruct (append_spec junk d' value Hwf') as (d'' & Hr & _); [lia|].
  by exists d''.
Qed.

Lemma growth_keeps_capacity_invariant_witness :
  DeviceArray.wf (DeviceArray.__init__ (λ _, 0%Z) 0) ∧
  ∃ d', for_each [Append 5; Resize 20; Extend [1; 2]%Z; Resize 3; Append 7]
          (call (λ _, 0%Z)) (DeviceArray.__init__ (λ _, 0%Z) 0) = Ok d' ∧
        DeviceArray.wf d' ∧ 16 ≤ DeviceArray.alloc d'.
Proof.
  split; [apply wf_init|].
  assert (∃ d', for_each
                  [Append 5; Resize 20; Extend [1; 2]%Z; Resize 3; Append 7]
                  (call (λ _, 0%Z)) (DeviceArray.__init__ (λ _, 0%Z) 0)
                = Ok d') as [d' Hrun].
  { eexists. vm_compute. reflexivity. }
  exists d'. split; [exact Hrun|].
  destruct (growth_keeps_capacity_invariant (λ _, 0%Z) _ _ d'
              (wf_init (λ _, 0%Z) 0) Hrun) as (Hwf & Hal & _).
  split; [exact Hwf|exact Hal].
Defined.

(** X5. [extend] with at least one value returns and adds their number to
    the length; when the capacity is not beyond the new length (the buffer
    grows or is filled exactly) it shows the old elements followed by the
    values and has no spare cell left. *)
Theorem extend_appends_without_spare (junk : nat → Z) d cl_arr :
  DeviceArray.wf d → cl_arr ≠ [] →
  ∃ d', DeviceArray.extend junk d cl_arr = Ok d' ∧
        DeviceArray.wf d' ∧
        DeviceArray.length d' = DeviceArray.length d + length cl_arr ∧
        (DeviceArray.alloc d ≤ DeviceArray.length d + length cl_arr →
         DeviceArray.alloc d' = DeviceArray.length d' ∧
         DeviceArray.array d' = DeviceArray.array d ++ cl_arr).
Proof.
  intros Hwf Hne.
  destruct (extend_spec junk d cl_arr Hwf Hne)
    as (d' & Hr & Hwf' & Hl & Hfit & _).
  by exists d'.
Qed.

Lemma extend_appends_without_spare_witness :
  DeviceArray.wf buffer_123 ∧ [8; 9]%Z ≠ [] ∧
  ∃ d', DeviceArray.extend (λ _, 0%Z) buffer_123 [8; 9]%Z = Ok d' ∧
        DeviceArray.array d' = [1; 2; 3; 8; 9]%Z.
Proof.
  assert ([8; 9]%Z ≠ []) as Hne by discriminate.
  split; [exact buffer_123_wf|]. split; [exact Hne|].
  destruct (extend_appends_without_spare (λ _, 0%Z) buffer_123 [8; 9]%Z
              buffer_123_wf Hne) as (d' & Hr & _ & _ & Hfit).
  exists d'. split; [exact Hr|]. apply Hfit. simpl. lia.
Defined.

(** X6. [extend] with no value writes to [self._data[-0:]], the whole
    allocation: it raises [ValueError] on every buffer that has cells, and
    changes nothing on a buffer without cells. *)
Theorem extend_nothing (junk : nat → Z) d :
  DeviceArray.wf d →
  (0 < DeviceArray.alloc d → DeviceArray.extend junk d [] = Raise ValueError) ∧
  (DeviceArray.alloc d = 0 → DeviceArray.extend junk d [] = Ok d).
Proof.
  intros [Ha Hl]. unfold DeviceArray.extend. simpl.
  rewrite decide_False by lia. simpl. unfold setitem_slice, neg_bound. simpl.
  rewrite Nat.min_id, Nat.sub_0_r. split; intros Hal.
  - rewrite decide_False by lia. done.
  - rewrite decide_True by lia. simpl. destruct d as [data length alloc].
    simpl in *. destruct data; [|simpl in *; lia].
    simpl. f_equal. f_equal; lia.
Qed.

Lemma extend_nothing_witness :
  DeviceArray.wf buffer_123 ∧
  DeviceArray.extend (λ _, 0%Z) buffer_123 [] = Raise ValueError ∧
  DeviceArray.extend (λ _, 0%Z) (DeviceArray.set_data []) []
  = Ok (DeviceArray.set_data []).
Proof.
  split; [exact buffer_123_wf|]. split.
  - apply (proj1 (extend_nothing (λ _, 0%Z) buffer_123 buffer_123_wf)).
    simpl. lia.
  - apply (proj2 (extend_nothing (λ _, 0%Z) (DeviceArray.set_data [])
                    (wf_set_data []))).
    reflexivity.
Defined.

(** X7. Compaction: with at least one index, all indices distinct and in
    range, [remove] leaves exactly the elements at the other positions, in
    their order, in a buffer without spare capacity whose length is the old
    one less the number of indices. *)
Theorem remove_compacts (junk : nat → Z) d indices :
  DeviceArray.wf d → indices ≠ [] → NoDup indices →
  Forall (λ i, i < DeviceArray.length d) indices →
  ∃ d', DeviceArray.remove junk d indices = Ok d' ∧
        DeviceArray.array d' = without (DeviceArray.array d) indices ∧
        DeviceArray.length d' = DeviceArray.length d - length indices ∧
        DeviceArray.alloc d' = DeviceArray.length d'.
Proof.
  intros Hwf Hne Hnd Hrange.
  destruct (remove_spec junk d indices Hwf Hne Hnd Hrange)
    as (d' & Hr & Harr & Hl).
  exists d'. split_and!; [done..|].
  unfold DeviceArray.remove in Hr. case_decide; [done|].
  by injection Hr as <-.
Qed.

Lemma remove_compacts_witness :
  DeviceArray.wf (DeviceArray.set_data [10; 11; 12; 13; 14]%Z) ∧
  NoDup [3; 1] ∧
  ∃ d', DeviceArray.remove (λ _, 0%Z)
          (DeviceArray.set_data [10; 11; 12; 13; 14]%Z) [3; 1] = Ok d' ∧
        DeviceArray.array d' = [10; 12; 14]%Z.
Proof.
  assert (NoDup [3; 1]) as Hnd by by_evaluation.
  assert (Forall (λ i, i < 5) [3; 1]) as Hrange by by_evaluation.
  assert ([3; 1] ≠ []) as Hne by discriminate.
  split; [apply wf_set_data|]. split; [exact Hnd|].
  destruct (remove_compacts (λ _, 0%Z)
              (DeviceArray.set_data [10; 11; 12; 13; 14]%Z) [3; 1]
              (wf_set_data _) Hne Hnd Hrange) as (d' & Hr & Harr & _).
  exists d'. split; [exact Hr|]. rewrite Harr. reflexivity.
Defined.

Lemma length_filter_members (R : list nat) n :
  length (filter (λ i, i ∈ R) (seq 0 n)) ≤ length R.
Proof.
  apply submseteq_length, NoDup_submseteq.
  - apply NoDup_filter, NoDup_seq.
  - by intros i [? _]%list_elem_of_filter.
Qed.

(** X8. With indices in range that need not be distinct, as long as there
    is one and they are not more than the elements, [remove] shortens the
    buffer by their number: it keeps the first [length - len(indices)] of
    the elements whose position is not among the indices. An index given
    twice so costs an element that was not to be removed. *)
Theorem remove_drops_by_count (junk : nat → Z) d indices :
  DeviceArray.wf d → indices ≠ [] →
  Forall (λ i, i < DeviceArray.length d) indices →
  length indices ≤ DeviceArray.length d →
  ∃ d', DeviceArray.remove junk d indices = Ok d' ∧
        DeviceArray.length d' = DeviceArray.length d - length indices ∧
        DeviceArray.array d'
        = take (DeviceArray.length d - length indices)
            (without (DeviceArray.array d) indices).
Proof.
  intros Hwf Hne _ Hcount.
  pose proof (length_array d Hwf) as Hlen.
  unfold DeviceArray.remove. rewrite decide_False by lia.
  rewrite array_fill_init, fill_if_remove_knl_zeros.
  unfold DeviceArray.copy. rewrite array_set_data.
  unfold DeviceArray.remove_knl. rewrite length_remove_mask, <- Hlen.
  rewrite (remove_knl_prefix indices (DeviceArray.array d)) by done.
  fold (without (DeviceArray.array d) indices).
  assert (DeviceArray.length d - length indices
          ≤ length (without (DeviceArray.array d) indices)) as Hkept.
  { unfold without. rewrite length_cl_take, Hlen.
    pose proof (length_filter_split indices (DeviceArray.length d)).
    pose proof (length_filter_members indices (DeviceArray.length d)). lia. }
  assert (length (without (DeviceArray.array d) indices)
          ≤ DeviceArray.length d) as Hkept'.
  { unfold without. rewrite length_cl_take, Hlen.
    pose proof (length_filter_split indices (DeviceArray.length d)). lia. }
  eexists. split; [done|].
  assert (neg_bound
            (length (without (DeviceArray.array d) indices
                     ++ drop (length (without (DeviceArray.array d) indices))
                          (DeviceArray.array d)))
            (length indices)
          = DeviceArray.length d - length indices) as ->.
  { unfold neg_bound. rewrite decide_False by (by destruct indices).
    rewrite length_app, length_drop. lia. }
  rewrite take_app_le by done. rewrite array_set_data, Hlen.
  split; [|done]. simpl. rewrite length_take. lia.
Qed.

Lemma remove_drops_by_count_witness :
  DeviceArray.wf buffer_123 ∧
  Forall (λ i, i < DeviceArray.length buffer_123) [0; 0] ∧
  ∃ d', DeviceArray.remove (λ _, 0%Z) buffer_123 [0; 0] = Ok d' ∧
        DeviceArray.array d' = [2%Z].
Proof.
  split; [exact buffer_123_wf|].
  assert ([0; 0] ≠ []) as Hne by discriminate.
  assert (Forall (λ i, i < DeviceArray.length buffer_123) [0; 0]) as Hrange
    by (repeat constructor; simpl; lia).
  assert (length [0; 0] ≤ DeviceArray.length buffer_123) as Hcount
    by (simpl; lia).
  split; [exact Hrange|].
  destruct (remove_drops_by_count (λ _, 0%Z) buffer_123 [0; 0]
              buffer_123_wf Hne Hrange Hcount) as (d' & Hr & _ & Harr).
  exists d'. split; [exact Hr|]. rewrite Harr. reflexivity.
Defined.

(** X9. [align] is a gather: the buffer then has one element per index, the
    element at position [i] is the old element at [indices[i]] whenever that
    is in range, and no spare capacity is left; indices that are a
    permutation of the positions only reorder the elements, and the indices
    [0, 1, ...] change nothing. *)
Theorem align_gathers d indices :
  DeviceArray.length (DeviceArray.align d indices) = length indices ∧
  DeviceArray.alloc (DeviceArray.align d indices) = length indices ∧
  (∀ i j, indices !! i = Some j → j < length (DeviceArray.array d) →
          DeviceArray.array (DeviceArray.align d indices) !! i
          = DeviceArray.array d !! j) ∧
  (indices ≡ₚ seq 0 (length (DeviceArray.array d)) →
   DeviceArray.array (DeviceArray.align d indices) ≡ₚ DeviceArray.array d) ∧
  DeviceArray.array
    (DeviceArray.align d (arange (length (DeviceArray.array d))))
  = DeviceArray.array d.
Proof.
  unfold DeviceArray.align. rewrite !array_set_data. simpl.
  rewrite length_cl_take. split_and!; [done..| | |].
  - intros i j Hi Hj. unfold cl_take. rewrite list_lookup_fmap, Hi. simpl.
    destruct (lookup_lt_is_Some_2 _ _ Hj) as [x Hx].
    by rewrite Hx, (list_lookup_total_correct _ _ _ Hx).
  - intros Hperm. unfold cl_take. rewrite Hperm.
    by rewrite <- (cl_take_arange (DeviceArray.array d)) at 2.
  - apply cl_take_arange.
Qed.

Lemma align_gathers_witness :
  [2; 0; 1] ≡ₚ seq 0 (length (DeviceArray.array buffer_123)) ∧
  DeviceArray.array (DeviceArray.align buffer_123 [2; 0; 1]) = [3; 1; 2]%Z ∧
  DeviceArray.array (DeviceArray.align buffer_123 [2; 0; 1])
  ≡ₚ DeviceArray.array buffer_123.
Proof.
  assert ([2; 0; 1] ≡ₚ seq 0 (length (DeviceArray.array buffer_123)))
    as Hperm.
  { change ([2; 0; 1] ≡ₚ [0; 1] ++ 2 :: []).
    apply Permutation_cons_app. reflexivity. }
  split; [exact Hperm|]. split; [reflexivity|].
  exact (proj1 (proj2 (proj2 (proj2 (align_gathers buffer_123 [2; 0; 1]))))
           Hperm).
Defined.

(** X10. [copy_values] writes the gathered elements to the first cells of
    the destination and leaves its other cells; a destination shorter than
    the indices is refused with [ValueError]. *)
Theorem copy_values_writes_prefix d indices dest :
  DeviceArray.copy_values d indices dest
  = if decide (length indices ≤ length dest)
    then Ok (cl_take (DeviceArray.array d) indices
             ++ drop (length indices) dest)
    else Raise ValueError.
Proof.
  unfold DeviceArray.copy_values. case_decide as Hfit.
  - apply setitem_slice_upto; [done|apply length_cl_take].
  - unfold setitem_slice. rewrite length_cl_take.
    rewrite decide_False; [done|]. lia.
Qed.

(** X11. [fill] overwrites the logical elements and nothing else: the spare
    cells, the length and the capacity stay. *)
Theorem fill_overwrites_logical d value :
  DeviceArray.wf d →
  DeviceArray.wf (DeviceArray.fill d value) ∧
  DeviceArray.array (DeviceArray.fill d value)
  = replicate (DeviceArray.length d) value ∧
  drop (DeviceArray.length d) (DeviceArray._data (DeviceArray.fill d value))
  = drop (DeviceArray.length d) (DeviceArray._data d) ∧
  DeviceArray.length (DeviceArray.fill d value) = DeviceArray.length d ∧
  DeviceArray.alloc (DeviceArray.fill d value) = DeviceArray.alloc d.
Proof.
  intros Hwf. split_and!; [by apply wf_fill|by apply array_fill| |done..].
  destruct Hwf as [Ha Hl]. unfold DeviceArray.fill, fill_slice. simpl.
  rewrite (Nat.min_l (DeviceArray.length d)) by lia.
  rewrite Nat.sub_0_r.
  by rewrite drop_app_length' by (by rewrite length_replicate).
Qed.

Lemma fill_overwrites_logical_witness :
  DeviceArray.wf buffer_spare ∧
  DeviceArray.array (DeviceArray.fill buffer_spare 0) = [0; 0]%Z ∧
  DeviceArray._data (DeviceArray.fill buffer_spare 0) = [0; 0; 8; 9]%Z.
Proof.
  split; [exact buffer_spare_wf|].
  destruct (fill_overwrites_logical buffer_spare 0 buffer_spare_wf)
    as (_ & Harr & _).
  split; [exact Harr|reflexivity].
Defined.

(** X12. [copy], [squeeze], [align] and [remove] hand back buffers made by
    [set_data], whose capacity is their length; [extend] after any of them
    therefore appends: on a copy it shows the elements of the original
    followed by the values. *)
Theorem extend_after_set_data (junk : nat → Z) data d cl_arr :
  cl_arr ≠ [] →
  (∃ d', DeviceArray.extend junk (DeviceArray.set_data data) cl_arr = Ok d' ∧
         DeviceArray.array d' = data ++ cl_arr) ∧
  (∃ d', DeviceArray.extend junk (DeviceArray.copy d) cl_arr = Ok d' ∧
         DeviceArray.array d' = DeviceArray.array d ++ cl_arr).
Proof.
  intros Hne.
  assert (∀ l, ∃ d', DeviceArray.extend junk (DeviceArray.set_data l) cl_arr
                     = Ok d' ∧ DeviceArray.array d' = l ++ cl_arr) as Hset.
  { intros l.
    destruct (extend_spec junk (DeviceArray.set_data l) cl_arr
                (wf_set_data l) Hne) as (d' & Hr & _ & _ & Hfit & _).
    exists d'. split; [done|]. destruct Hfit as [_ Harr]; [simpl; lia|].
    by rewrite Harr, array_set_data. }
  split; [apply Hset|]. unfold DeviceArray.copy. apply Hset.
Qed.

Lemma extend_after_set_data_witness :
  [7%Z] ≠ [] ∧
  ∃ d', DeviceArray.extend (λ _, 0%Z) (DeviceArray.copy buffer_spare) [7%Z]
        = Ok d' ∧
        DeviceArray.array d' = [1; 2; 7]%Z.
Proof.
  assert ([7%Z] ≠ []) as Hne by discriminate.
  split; [exact Hne|].
  destruct (proj2 (extend_after_set_data (λ _, 0%Z) [] buffer_spare [7%Z]
                     Hne)) as (d' & Hr & Harr).
  exists d'. split; [exact Hr|exact Harr].
Defined.

(** * Further properties of the store *)

(** ** Registering, looking up and removing a buffer *)

Lemma list_remove_last (name : string) (l : list string) :
  name ∉ l →
  match list_find (λ p, p = name) (l ++ [name]) with
  | Some (i, _) => delete i (l ++ [name])
  | None => l ++ [name]
  end = l.
Proof.
  induction l as [|x l IH]; intros Hnot.
  { simpl. by rewrite decide_True. }
  apply not_elem_of_cons in Hnot as [Hne Hnot]. specialize (IH Hnot).
  simpl. rewrite decide_False by done.
  destruct (list_find (λ p, p = name) (l ++ [name])) as [[i y]|]; simpl.
  - by f_equal.
  - exfalso. revert IH. clear. intros IH.
    assert (length (l ++ [name]) = length l) as Hlen by by rewrite IH.
    rewrite length_app in Hlen. simpl in Hlen. lia.
Qed.

(** X13. A buffer stored with [update_prop] is the one that
    [get_device_array] and the attribute of that name give back, the other
    names are not affected, a second [update_prop] of the name registers
    nothing more, and [remove_prop] undoes the [update_prop] of a name that
    was new. *)
Theorem update_prop_round_trip st name dev_array :
  DeviceHelper.get_device_array
    (DeviceHelper.update_prop st name dev_array) name = Ok (Some dev_array) ∧
  getattr (DeviceHelper.update_prop st name dev_array) name
  = Some (DeviceArray.array dev_array) ∧
  (∀ q, q ≠ name →
        DeviceHelper.get_device_array
          (DeviceHelper.update_prop st name dev_array) q
        = DeviceHelper.get_device_array st q) ∧
  DeviceHelper.update_prop
    (DeviceHelper.update_prop st name dev_array) name dev_array
  = DeviceHelper.update_prop st name dev_array ∧
  (name ∉ DeviceHelper.properties st →
   DeviceHelper._data st !! name = None →
   DeviceHelper.remove_prop
     (DeviceHelper.update_prop st name dev_array) name = st).
Proof.
  assert (name ∈ DeviceHelper.properties
                   (DeviceHelper.update_prop st name dev_array)) as Hin.
  { simpl. case_decide; [done|]. apply elem_of_app. right. by left. }
  split_and!.
  - unfold DeviceHelper.get_device_array.
    rewrite decide_True by (by left).
    simpl. by rewrite (getitem_Some _ _ dev_array) by apply lookup_insert_eq.
  - unfold getattr. simpl. by rewrite lookup_insert_eq.
  - intros q Hq. unfold DeviceHelper.get_device_array, getitem. simpl.
    rewrite lookup_insert_ne by done.
    assert (q ∈ (if decide (name ∈ DeviceHelper.properties st)
                 then DeviceHelper.properties st
                 else DeviceHelper.properties st ++ [name])
            ↔ q ∈ DeviceHelper.properties st) as Hiff.
    { case_decide; [done|]. rewrite elem_of_app, list_elem_of_singleton.
      split; [by intros [?|?]|by left]. }
    destruct (decide (q ∈ DeviceHelper.properties st
                      ∨ q ∈ DeviceHelper.constants st)) as [Hyes|Hno].
    + rewrite decide_True; [done|]. by rewrite Hiff.
    + rewrite decide_False; [done|]. by rewrite Hiff.
  - unfold DeviceHelper.update_prop at 1. rewrite decide_True by done.
    simpl. by rewrite insert_insert_eq.
  - intros Hnew Hnone. destruct st as [pa data props consts real].
    unfold DeviceHelper.remove_prop. simpl in *.
    rewrite decide_False by done. rewrite list_remove_last by done.
    by rewrite delete_insert_id.
Qed.

Lemma update_prop_round_trip_witness :
  ("u" ∉ DeviceHelper.properties example_store) ∧
  DeviceHelper._data example_store !! "u" = None ∧
  DeviceHelper.remove_prop
    (DeviceHelper.update_prop example_store "u" buffer_123) "u"
  = example_store.
Proof.
  assert ("u" ∉ DeviceHelper.properties example_store) as Hnew
    by by_evaluation.
  assert (DeviceHelper._data example_store !! "u" = None) as Hnone
    by (vm_compute; reflexivity).
  split; [exact Hnew|]. split; [exact Hnone|].
  exact (proj2 (proj2 (proj2 (proj2
           (update_prop_round_trip example_store "u" buffer_123))))
           Hnew Hnone).
Defined.

(** X14. [remove_prop] always drops the buffer of the name, and with it
    the property when the property names are distinct; it never touches the
    list of constants, so that [get_device_array] raises [KeyError] for a
    constant that was removed and returns [None] for a removed property. *)
Theorem remove_prop_unregisters st name :
  DeviceHelper._data (DeviceHelper.remove_prop st name) !! name = None ∧
  DeviceHelper.constants (DeviceHelper.remove_prop st name)
  = DeviceHelper.constants st ∧
  (name ∈ DeviceHelper.constants st →
   DeviceHelper.get_device_array (DeviceHelper.remove_prop st name) name
   = Raise KeyError) ∧
  (NoDup (DeviceHelper.properties st) →
   (name ∉ DeviceHelper.properties (DeviceHelper.remove_prop st name)) ∧
   (name ∉ DeviceHelper.constants st →
    DeviceHelper.get_device_array (DeviceHelper.remove_prop st name) name
    = Ok None)).
Proof.
  split_and!.
  - simpl. apply lookup_delete_eq.
  - done.
  - intros Hc. unfold DeviceHelper.get_device_array.
    rewrite decide_True by (by right). simpl.
    unfold getitem. by rewrite lookup_delete_eq.
  - intros Hnd.
    assert (name ∉ DeviceHelper.properties
                     (DeviceHelper.remove_prop st name)) as Hgone.
    { simpl.
      destruct (list_find (λ p, p = name) (DeviceHelper.properties st))
        as [[i y]|] eqn:Hfind.
      - apply list_find_Some in Hfind as (Hi & -> & _).
        intros (j & Hj)%list_elem_of_lookup.
        assert (DeviceHelper.properties st
                !! (if decide (j < i) then j else S j) = Some name) as Hj'.
        { case_decide.
          - by rewrite list_lookup_delete_lt in Hj.
          - by rewrite list_lookup_delete_ge in Hj by lia. }
        pose proof (NoDup_lookup _ _ _ _ Hnd Hi Hj') as Heq.
        case_decide; lia.
      - intros Hin. apply list_find_None in Hfind.
        rewrite Forall_forall in Hfind. by apply (Hfind name). }
    split; [done|]. intros Hc. unfold DeviceHelper.get_device_array.
    rewrite decide_False; [done|]. by intros [?|?].
Qed.

Lemma remove_prop_unregisters_witness :
  "c" ∈ DeviceHelper.constants example_store ∧
  NoDup (DeviceHelper.properties example_store) ∧
  DeviceHelper.get_device_array
    (DeviceHelper.remove_prop example_store "c") "c" = Raise KeyError ∧
  "x" ∉ DeviceHelper.properties (DeviceHelper.remove_prop example_store "x").
Proof.
  assert ("c" ∈ DeviceHelper.constants example_store) as Hc by by_evaluation.
  assert (NoDup (DeviceHelper.properties example_store)) as Hnd
    by by_evaluation.
  split; [exact Hc|]. split; [exact Hnd|]. split.
  - exact (proj1 (proj2 (proj2 (remove_prop_unregisters example_store "c")))
             Hc).
  - exact (proj1 (proj2 (proj2 (proj2
             (remove_prop_unregisters example_store "x"))) Hnd)).
Defined.

(** ** Building the store from the host array *)


Section Init.
Variable junk : nat → Z.



End Init.



(** ** Loops that change every property buffer *)

(** A loop over distinct names whose body replaces the buffer of its name
    by [g] of it, where [g] may depend on the fields that the loop leaves
    alone. *)
Lemma store_loop_ok (g : string → DeviceArray.t → result DeviceArray.t)
    (body : string → DeviceHelper.t → result DeviceHelper.t) ps st :
  (∀ p s, p ∈ ps → same_fields st s →
          body p s = (arr ← getitem (DeviceHelper._data s) p;
                      arr' ← g p arr;
                      Ok (DeviceHelper.set_buffer s p arr'))) →
  NoDup ps →
  (∀ p, p ∈ ps →
        ∃ a a', DeviceHelper._data st !! p = Some a ∧ g p a = Ok a') →
  ∃ st', for_each ps body st = Ok st' ∧ same_fields st st' ∧
         (∀ p a, p ∈ ps → DeviceHelper._data st !! p = Some a →
                 ∃ a', g p a = Ok a' ∧ DeviceHelper._data st' !! p = Some a') ∧
         (∀ q, q ∉ ps → DeviceHelper._data st' !! q = DeviceHelper._data st !! q).
Proof.
  intros Hbody Hnd Hg.
  apply (for_each_ok
           (λ done s,
              same_fields st s ∧
              (∀ p a, p ∈ done → DeviceHelper._data st !! p = Some a →
                      ∃ a', g p a = Ok a'
                            ∧ DeviceHelper._data s !! p = Some a') ∧
              (∀ q, q ∉ done →
                    DeviceHelper._data s !! q = DeviceHelper._data st !! q))).
  { split_and!; [done| |done]. intros p a Hp. by apply elem_of_nil in Hp. }
  intros done x rest s1 Hps (Hsame & Hdone & Hrest).
  assert (x ∉ done) as Hx.
  { rewrite Hps in Hnd. apply NoDup_app in Hnd as (_ & Hd & _).
    intros Hin. apply (Hd x Hin). by left. }
  assert (x ∈ ps) as Hin by (rewrite Hps; apply elem_of_app; right; by left).
  destruct (Hg x Hin) as (a & a' & Ha & Ha').
  rewrite Hbody by done.
  rewrite (getitem_Some _ _ a) by (by rewrite Hrest). simpl.
  rewrite Ha'. simpl. eexists. split; [done|]. split_and!; [done| |].
  - intros p b [Hp| ->%list_elem_of_singleton]%elem_of_app Hb.
    + destruct (Hdone p b Hp Hb) as (b' & Hgb & Hb'). exists b'.
      split; [done|]. simpl. rewrite lookup_insert_ne; [done|]. by intros ->.
    + exists a'. split; [congruence|]. simpl. by rewrite lookup_insert_eq.
  - intros q Hq. simpl. rewrite lookup_insert_ne.
    + apply Hrest. intros ?. apply Hq, elem_of_app. by left.
    + intros ->. apply Hq, elem_of_app. right. by left.
Qed.

Lemma all_of_length_lookup n st p :
  all_of_length n st → p ∈ DeviceHelper.properties st →
  ∃ a, DeviceHelper._data st !! p = Some a ∧ DeviceArray.wf a ∧
       DeviceArray.length a = n.
Proof. unfold all_of_length. rewrite Forall_forall. intros Hall. apply Hall. Qed.

Lemma all_of_length_number n st :
  all_of_length n st → DeviceHelper.properties st ≠ [] →
  DeviceHelper.get_number_of_particles st = Ok n.
Proof.
  intros Hall Hne.
  assert (registered st) as Hreg.
  { eapply Forall_impl; [exact Hall|]. intros p (a & Ha & _). by eexists. }
  destruct (get_number_of_particles_ok st Hreg) as [m Hm]. rewrite Hm.
  f_equal. by apply (get_number_of_particles_all_of_length n st).
Qed.

(** X16. On a store with distinct property names whose buffers all have
    [n] elements, [resize] gives every property buffer the new length and
    keeps the elements below the old and the new length; names, constants
    and every other buffer stay. *)
Theorem resize_every_property (junk : nat → Z) st n new_size :
  NoDup (DeviceHelper.properties st) → all_of_length n st →
  ∃ st', DeviceHelper.resize junk st new_size = Ok st' ∧
         same_fields st st' ∧ all_of_length new_size st' ∧
         (∀ p a, p ∈ DeviceHelper.properties st →
                 DeviceHelper._data st !! p = Some a →
                 ∃ a', DeviceHelper._data st' !! p = Some a' ∧
                       take (n `min` new_size) (DeviceArray.array a')
                       = take (n `min` new_size) (DeviceArray.array a)) ∧
         (∀ q, q ∉ DeviceHelper.properties st →
               DeviceHelper._data st' !! q = DeviceHelper._data st !! q).
Proof.
  intros Hnd Hall. unfold DeviceHelper.resize.
  destruct (store_loop_ok (λ _ a, DeviceArray.resize junk a new_size)
              (λ prop st,
                 arr ← getitem (DeviceHelper._data st) prop;
                 arr ← DeviceArray.resize junk arr new_size;
                 Ok (DeviceHelper.set_buffer st prop arr))
              (DeviceHelper.properties st) st)
    as (st' & Hrun & Hsame & Hdone & Hrest); [done|done| |].
  { intros p Hp. destruct (all_of_length_lookup n st p Hall Hp)
      as (a & Ha & Hwf & _).
    destruct (resize_spec junk a new_size Hwf) as (a' & Hr & _).
    by exists a, a'. }
  exists st'. split; [done|]. split; [done|].
  assert (∀ p a, p ∈ DeviceHelper.properties st →
                 DeviceHelper._data st !! p = Some a →
                 ∃ a', DeviceHelper._data st' !! p = Some a' ∧
                       DeviceArray.wf a' ∧
                       DeviceArray.length a' = new_size ∧
                       take (n `min` new_size) (DeviceArray.array a')
                       = take (n `min` new_size) (DeviceArray.array a))
    as Hres.
  { intros p a Hp Ha. destruct (Hdone p a Hp Ha) as (a' & Hr & Ha').
    destruct (all_of_length_lookup n st p Hall Hp) as (b & Hb & Hwf & Hn).
    assert (b = a) as -> by congruence.
    destruct (resize_spec junk a new_size Hwf)
      as (a'' & Hr' & Hwf' & Hl & _ & Hd).
    assert (a'' = a') as -> by congruence.
    exists a'. split_and!; [done..|].
    unfold DeviceArray.array. rewrite Hl, Hd, Hn. destruct Hwf as [Hal Hle].
    rewrite !take_take.
    rewrite (Nat.min_l _ new_size), (Nat.min_l _ n) by lia.
    by rewrite take_app_le by lia. }
  split_and!; [| |done].
  - apply (all_of_length_same_fields _ st); [done|].
    intros p Hp.
    destruct (all_of_length_lookup n st p Hall Hp) as (a & Ha & _).
    destruct (Hres p a Hp Ha) as (a' & ? & ? & ? & _). by exists a'.
  - intros p a Hp Ha. destruct (Hres p a Hp Ha) as (a' & ? & _ & _ & ?).
    by exists a'.
Qed.

Lemma resize_every_property_witness :
  NoDup (DeviceHelper.properties example_store) ∧
  all_of_length 3 example_store ∧
  ∃ st', DeviceHelper.resize (λ _, 0%Z) example_store 2 = Ok st' ∧
         all_of_length 2 st' ∧
         getattr st' "c" = Some [42%Z].
Proof.
  assert (NoDup (DeviceHelper.properties example_store)) as Hnd
    by by_evaluation.
  assert (all_of_length 3 example_store) as Hall.
  { repeat constructor; eexists; (split; [reflexivity|]);
      (split; [apply wf_set_data|reflexivity]). }
  assert ("c" ∉ DeviceHelper.properties example_store) as Hc
    by by_evaluation.
  split; [exact Hnd|]. split; [exact Hall|].
  destruct (resize_every_property (λ _, 0%Z) example_store 3 2 Hnd Hall)
    as (st' & Hrun & _ & Hall' & _ & Hrest).
  exists st'. split; [exact Hrun|]. split; [exact Hall'|].
  unfold getattr. rewrite (Hrest "c" Hc). reflexivity.
Defined.

(** [extend] by a positive number: the default values are appended to every
    property buffer. *)
Lemma extend_rows (junk : nat → Z) st n num_particles :
  (0 < num_particles)%Z →
  NoDup (DeviceHelper.properties st) → all_of_length n st →
  Forall (λ p, is_Some (ParticleArray.default_values
                          (DeviceHelper._particle_array st) !! p))
         (DeviceHelper.properties st) →
  ∃ st', DeviceHelper.extend junk st num_particles = Ok st' ∧
         same_fields st st' ∧
         all_of_length (n + Z.to_nat num_particles) st' ∧
         (∀ p a, p ∈ DeviceHelper.properties st →
                 DeviceHelper._data st !! p = Some a →
                 ∃ a', DeviceHelper._data st' !! p = Some a' ∧
                       DeviceArray.array a'
                       = DeviceArray.array a
                           ++ replicate (Z.to_nat num_particles)
                                (ParticleArray.default_values
                                   (DeviceHelper._particle_array st) !!! p)) ∧
         (∀ q, q ∉ DeviceHelper.properties st →
               DeviceHelper._data st' !! q = DeviceHelper._data st !! q).
Proof.
  intros Hpos Hnd Hall Hdefaults. unfold DeviceHelper.extend.
  rewrite decide_False by lia.
  destruct (DeviceHelper.properties st) as [|p0 ps] eqn:Hprops.
  { unfold DeviceHelper.get_number_of_particles. rewrite Hprops. simpl.
    exists st. split; [done|]. split; [done|].
    split_and!; [|by intros ? ? ?%elem_of_nil|done].
    unfold all_of_length. by rewrite Hprops. }
  rewrite <- Hprops in *.
  rewrite (all_of_length_number n st) by (by rewrite ?Hprops).
  simpl. set (k := Z.to_nat num_particles).
  set (pa := DeviceHelper._particle_array st).
  set (g := λ (p : string) (a : DeviceArray.t),
              arr ← DeviceArray.resize junk a (n + k);
              default ← getitem (ParticleArray.default_values pa) p;
              Ok (DeviceArray.fill_array_from arr n default)).
  assert (∀ p a, p ∈ DeviceHelper.properties st →
                 DeviceHelper._data st !! p = Some a →
                 ∃ a', g p a = Ok a' ∧ DeviceArray.wf a' ∧
                       DeviceArray.length a' = n + k ∧
                       DeviceArray.array a'
                       = DeviceArray.array a
                           ++ replicate k
                                (ParticleArray.default_values pa !!! p))
    as Hg.
  { intros p a Hp Ha.
    destruct (all_of_length_lookup n st p Hall Hp) as (b & Hb & Hwf & Hn).
    assert (b = a) as -> by congruence.
    rewrite Forall_forall in Hdefaults. destruct (Hdefaults p Hp) as [x Hx].
    destruct (resize_spec junk a (n + k) Hwf)
      as (a1 & Hr & Hwf1 & Hl1 & _ & Hd1).
    destruct (fill_array_from_spec a1 n x Hwf1) as (Hwf2 & Hl2 & Harr2);
      [lia|].
    unfold g. rewrite Hr. simpl. fold pa in Hx.
    rewrite (getitem_Some _ _ x) by done. simpl.
    rewrite (lookup_total_correct _ _ _ Hx).
    eexists. split; [done|]. split_and!; [done|lia|].
    rewrite Harr2, Hl1. replace (n + k - n) with k by lia. f_equal.
    unfold DeviceArray.array. rewrite Hl1, Hd1, Hn. destruct Hwf as [Hal Hle].
    rewrite take_take, Nat.min_l by lia. by rewrite take_app_le by lia. }
  destruct (store_loop_ok g
              (λ prop st,
                 arr ← getitem (DeviceHelper._data st) prop;
                 arr ← DeviceArray.resize junk arr (n + k);
                 default ←
                   getitem (ParticleArray.default_values
                              (DeviceHelper._particle_array st)) prop;
                 let arr := DeviceArray.fill_array_from arr n default in
                 Ok (DeviceHelper.update_prop st prop arr))
              (DeviceHelper.properties st) st)
    as (st' & Hrun & Hsame & Hdone & Hrest); [|done| |].
  { intros p s Hp (Hpa & Hps & _). unfold g, pa. rewrite Hpa.
    destruct (getitem (DeviceHelper._data s) p) as [arr|]; [|done]. simpl.
    destruct (DeviceArray.resize junk arr (n + k)) as [arr1|]; [|done]. simpl.
    destruct (getitem _ p) as [default|]; [|done]. simpl.
    by rewrite update_prop_registered by (by rewrite Hps). }
  { intros p Hp. destruct (all_of_length_lookup n st p Hall Hp)
      as (a & Ha & _).
    destruct (Hg p a Hp Ha) as (a' & ? & _). by exists a, a'. }
  exists st'. split; [done|]. split; [done|]. split_and!; [| |done].
  - apply (all_of_length_same_fields _ st); [done|].
    intros p Hp. destruct (all_of_length_lookup n st p Hall Hp)
      as (a & Ha & _).
    destruct (Hdone p a Hp Ha) as (a' & Hga & Ha').
    destruct (Hg p a Hp Ha) as (a'' & Hga' & Hwf & Hl & _).
    assert (a'' = a') as -> by congruence. by exists a'.
  - intros p a Hp Ha. destruct (Hdone p a Hp Ha) as (a' & Hga & Ha').
    destruct (Hg p a Hp Ha) as (a'' & Hga' & _ & _ & Harr).
    assert (a'' = a') as -> by congruence. by exists a'.
Qed.

(** X17. [extend] by a positive number appends that many default values to
    every property buffer, whatever its spare capacity, and does not align:
    names, constants, the other buffers and [num_real_particles] stay. The
    preconditions are distinct property names, buffers of one length and a
    default value for every property. *)
Theorem extend_appends_defaults (junk : nat → Z) st n num_particles :
  (0 < num_particles)%Z →
  NoDup (DeviceHelper.properties st) → all_of_length n st →
  Forall (λ p, is_Some (ParticleArray.default_values
                          (DeviceHelper._particle_array st) !! p))
         (DeviceHelper.properties st) →
  ∃ st', DeviceHelper.extend junk st num_particles = Ok st' ∧
         same_fields st st' ∧
         all_of_length (n + Z.to_nat num_particles) st' ∧
         (∀ p a, p ∈ DeviceHelper.properties st →
                 DeviceHelper._data st !! p = Some a →
                 ∃ a', DeviceHelper._data st' !! p = Some a' ∧
                       DeviceArray.array a'
                       = DeviceArray.array a
                           ++ replicate (Z.to_nat num_particles)
                                (ParticleArray.default_values
                                   (DeviceHelper._particle_array st) !!! p)) ∧
         (∀ q, q ∉ DeviceHelper.properties st →
               DeviceHelper._data st' !! q = DeviceHelper._data st !! q).
Proof. apply extend_rows. Qed.

Lemma example_store_all_of_length : all_of_length 3 example_store.
Proof.
  repeat constructor; eexists; (split; [reflexivity|]);
    (split; [apply wf_set_data|reflexivity]).
Qed.

Lemma example_store_defaults :
  Forall (λ p, is_Some (ParticleArray.default_values
                          (DeviceHelper._particle_array example_store) !! p))
         (DeviceHelper.properties example_store).
Proof. repeat constructor; by eexists. Qed.

Lemma extend_appends_defaults_witness :
  (0 < 2)%Z ∧
  NoDup (DeviceHelper.properties example_store) ∧
  all_of_length 3 example_store ∧
  ∃ st', DeviceHelper.extend (λ _, 0%Z) example_store 2 = Ok st' ∧
         getattr st' "y" = Some [4; 5; 6; 7; 7]%Z.
Proof.
  assert (0 < 2)%Z as Hpos by lia.
  assert (NoDup (DeviceHelper.properties example_store)) as Hnd
    by by_evaluation.
  assert ("y" ∈ DeviceHelper.properties example_store) as Hy
    by by_evaluation.
  split; [exact Hpos|]. split; [exact Hnd|].
  split; [exact example_store_all_of_length|].
  destruct (extend_appends_defaults (λ _, 0%Z) example_store 3 2 Hpos Hnd
              example_store_all_of_length example_store_defaults)
    as (st' & Hrun & _ & _ & Hvalues & _).
  exists st'. split; [exact Hrun|].
  destruct (Hvalues "y" (DeviceArray.set_data [4; 5; 6]%Z) Hy eq_refl)
    as (a' & Ha' & Harr).
  unfold getattr. rewrite Ha'. simpl. rewrite Harr. reflexivity.
Defined.

(** ** Sorting the particles by tag *)

(** X18. [align_particles] moves whole particles: on a store with distinct
    property names, buffers of one length [n] and a property [tag], it
    gathers every property buffer with one and the same permutation of the
    positions [0, ..., n-1], so that the values of a particle stay together
    and none is lost; names, constants and the other buffers stay. *)
Theorem align_particles_permutes_rows st tag n :
  NoDup (DeviceHelper.properties st) → all_of_length n st →
  "tag" ∈ DeviceHelper.properties st →
  DeviceHelper._data st !! "tag" = Some tag →
  ∃ st' sorted_indices,
    DeviceHelper.align_particles st = Ok st' ∧
    sorted_indices ≡ₚ seq 0 n ∧
    DeviceHelper.properties st' = DeviceHelper.properties st ∧
    DeviceHelper.constants st' = DeviceHelper.constants st ∧
    all_of_length n st' ∧
    (∀ p a, p ∈ DeviceHelper.properties st →
            DeviceHelper._data st !! p = Some a →
            ∃ a', DeviceHelper._data st' !! p = Some a' ∧
                  DeviceArray.array a'
                  = cl_take (DeviceArray.array a) sorted_indices ∧
                  DeviceArray.array a' ≡ₚ DeviceArray.array a) ∧
    (∀ q, q ∉ DeviceHelper.properties st →
          DeviceHelper._data st' !! q = DeviceHelper._data st !! q).
Proof.
  intros Hnd Hall Hin Htag.
  assert (registered st) as Hreg.
  { eapply Forall_impl; [exact Hall|]. intros p (a & Ha & _). by eexists. }
  assert (DeviceHelper.get_number_of_particles st = Ok n) as Hnum.
  { apply all_of_length_number; [done|]. intros Hnil. rewrite Hnil in Hin.
    by apply elem_of_nil in Hin. }
  destruct (align_particles_exact st tag n Hnd Hreg Htag Hnum)
    as (st' & Hrun & Hprops & Hconsts & Haligned & Hrest & _).
  set (sorted_indices :=
         DeviceHelper.radix_sort (arange n) (DeviceArray.array tag)) in *.
  assert (sorted_indices ≡ₚ seq 0 n) as Hperm by apply radix_sort_perm.
  exists st', sorted_indices. split_and!; [done..| | |done].
  - unfold all_of_length. rewrite Hprops. apply Forall_forall. intros p Hp.
    destruct (all_of_length_lookup n st p Hall Hp) as (a & Ha & _).
    exists (DeviceArray.align a sorted_indices).
    split; [by apply Haligned|]. split; [apply wf_align|].
    by rewrite length_align, Hperm, length_seq.
  - intros p a Hp Ha.
    exists (DeviceArray.align a sorted_indices).
    split; [by apply Haligned|].
    unfold DeviceArray.align. rewrite array_set_data. split; [done|].
    destruct (all_of_length_lookup n st p Hall Hp) as (b & Hb & Hwf & Hn).
    assert (b = a) as -> by congruence.
    unfold cl_take. rewrite Hperm, <- Hn, <- (length_array a Hwf).
    by rewrite <- (cl_take_arange (DeviceArray.array a)) at 2.
Qed.

Lemma align_particles_permutes_rows_witness :
  NoDup (DeviceHelper.properties example_store) ∧
  all_of_length 3 example_store ∧
  "tag" ∈ DeviceHelper.properties example_store ∧
  ∃ st', DeviceHelper.align_particles example_store = Ok st' ∧
         all_of_length 3 st'.
Proof.
  assert (NoDup (DeviceHelper.properties example_store)) as Hnd
    by by_evaluation.
  assert ("tag" ∈ DeviceHelper.properties example_store) as Htag
    by by_evaluation.
  split; [exact Hnd|]. split; [exact example_store_all_of_length|].
  split; [exact Htag|].
  destruct (align_particles_permutes_rows example_store
              (DeviceArray.set_data [0; 0; 1]%Z) 3 Hnd
              example_store_all_of_length Htag eq_refl)
    as (st' & sorted_indices & Hrun & _ & _ & _ & Hall & _).
  exists st'. split; [exact Hrun|exact Hall].
Defined.

(** X19. With tags in the tag domain [0, 4), [align_particles] leaves the
    same tags in another order, the real particles (tag 0) first; when at
    least one particle is not real, [num_real_particles] is the position of
    the first of them, that is the number of real particles. When every
    particle is real it is 0. *)
Theorem align_particles_real_first st tag n :
  NoDup (DeviceHelper.properties st) → all_of_length n st →
  "tag" ∈ DeviceHelper.properties st →
  DeviceHelper._data st !! "tag" = Some tag →
  Forall (λ t, 0 ≤ t < 4)%Z (DeviceArray.array tag) →
  ∃ st' tag' m,
    DeviceHelper.align_particles st = Ok st' ∧
    DeviceHelper._data st' !! "tag" = Some tag' ∧
    DeviceHelper.num_real_particles st' = Some m ∧
    DeviceArray.array tag' ≡ₚ DeviceArray.array tag ∧
    (¬ Forall (λ t, t = 0%Z) (DeviceArray.array tag) →
     m = length (filter (λ t, t = 0%Z) (DeviceArray.array tag)) ∧
     ∀ i t, DeviceArray.array tag' !! i = Some t → (i < m ↔ t = 0%Z)) ∧
    (Forall (λ t, t = 0%Z) (DeviceArray.array tag) → m = 0).
Proof.
  intros Hnd Hall Hin Htag Hdom.
  destruct (align_particles_partition st tag n Hnd Hall Hin Htag Hdom)
    as (st' & tag' & m & Hrun & Htag' & Hm & Hperm & Hsome & Hnone).
  exists st', tag', m. split_and!; [done..| |done].
  intros Hghost. specialize (Hsome Hghost). split; [|done].
  (* the zeros of a list are counted by the positions below [m] *)
  rewrite <- Hperm.
  assert (∀ l : list Z, ∀ k,
            (∀ i t, l !! i = Some t → (i + k < m ↔ t = 0%Z)) →
            m ≤ k + length l →
            m - k = length (filter (λ t, t = 0%Z) l)) as Hcount.
  { induction l as [|t l IH]; intros k Hl Hm'.
    { simpl in *. lia. }
    rewrite filter_cons. pose proof (Hl 0 t eq_refl) as H0. simpl in H0.
    assert (∀ i t', l !! i = Some t' → i + S k < m ↔ t' = 0%Z) as Hl'.
    { intros i t' Hi. rewrite <- (Hl (S i) t' Hi). lia. }
    simpl in Hm'. specialize (IH (S k) Hl').
    destruct (decide (t = 0%Z)) as [Ht|Ht].
    - apply H0 in Ht. simpl. rewrite <- IH; lia.
    - destruct (decide (k < m)) as [Hlt|Hge]; [by apply H0 in Hlt|].
      rewrite <- IH; lia. }
  assert (m ≤ length (DeviceArray.array tag')) as Hle.
  { destruct (decide (m ≤ length (DeviceArray.array tag'))) as [|Hgt];
      [done|]. exfalso. apply Hghost.
    rewrite <- Hperm. apply Forall_forall.
    intros t (i & Hi)%list_elem_of_lookup. apply (Hsome i t Hi).
    apply lookup_lt_Some in Hi. lia. }
  rewrite <- (Hcount (DeviceArray.array tag') 0); [lia| |lia].
  intros i t Hi. rewrite Nat.add_0_r. by apply Hsome.
Qed.

Lemma align_particles_real_first_witness :
  NoDup (DeviceHelper.properties example_store) ∧
  all_of_length 3 example_store ∧
  Forall (λ t, 0 ≤ t < 4)%Z [0; 0; 1]%Z ∧
  ∃ st', DeviceHelper.align_particles example_store = Ok st' ∧
         DeviceHelper.num_real_particles st' = Some 2.
Proof.
  assert (NoDup (DeviceHelper.properties example_store)) as Hnd
    by by_evaluation.
  assert ("tag" ∈ DeviceHelper.properties example_store) as Htag
    by by_evaluation.
  assert (Forall (λ t, 0 ≤ t < 4)%Z [0; 0; 1]%Z) as Hdom by by_evaluation.
  assert (¬ Forall (λ t, t = 0%Z) [0; 0; 1]%Z) as Hghost by by_evaluation.
  split; [exact Hnd|]. split; [exact example_store_all_of_length|].
  split; [exact Hdom|].
  destruct (align_particles_real_first example_store
              (DeviceArray.set_data [0; 0; 1]%Z) 3 Hnd
              example_store_all_of_length Htag eq_refl Hdom)
    as (st' & tag' & m & Hrun & _ & Hm & _ & Hsome & _).
  exists st'. split; [exact Hrun|].
  rewrite Hm. f_equal. exact (proj1 (Hsome Hghost)).
Defined.

(** ** Adding particles under an unknown name *)

(** X20. [add_particles] checks every given name before it changes a
    buffer: with a name that is not a property of the store it raises
    [AttributeError]. *)
Theorem add_particles_unknown_property (junk : nat → Z) st particle_props :
  ¬ Forall (λ p, p ∈ DeviceHelper.properties st) particle_props.*1 →
  DeviceHelper.add_particles junk st particle_props = Raise AttributeError.
Proof.
  intros Hunknown.
  assert (for_each particle_props.*1
            (λ prop _, DeviceHelper._check_property st prop) tt
          = Raise AttributeError) as Hcheck.
  { induction (particle_props.*1) as [|p names IH]; [by destruct Hunknown|].
    simpl. destruct (decide (p ∈ DeviceHelper.properties st)) as [Hp|Hp].
    - assert (DeviceHelper._check_property st p = Ok tt) as ->.
      { unfold DeviceHelper._check_property. by rewrite decide_True. }
      simpl. apply IH. intros Hall. apply Hunknown. by constructor.
    - assert (DeviceHelper._check_property st p = Raise AttributeError) as ->.
      { unfold DeviceHelper._check_property. by rewrite decide_False. }
      done. }
  unfold DeviceHelper.add_particles.
  destruct particle_props as [|[p0 v0] rest]; [by destruct Hunknown|].
  by rewrite Hcheck.
Qed.

Lemma add_particles_unknown_property_witness :
  ¬ Forall (λ p, p ∈ DeviceHelper.properties example_store)
      [("x", [9%Z]); ("z", [9%Z])].*1 ∧
  DeviceHelper.add_particles (λ _, 0%Z) example_store
    [("x", [9%Z]); ("z", [9%Z])] = Raise AttributeError.
Proof.
  assert (¬ Forall (λ p, p ∈ DeviceHelper.properties example_store)
              [("x", [9%Z]); ("z", [9%Z])].*1) as Hunknown by by_evaluation.
  split; [exact Hunknown|].
  exact (add_particles_unknown_property (λ _, 0%Z) example_store
           [("x", [9%Z]); ("z", [9%Z])] Hunknown).
Defined.

(** ** Appending a store with a property of its own *)

(** The store that [DeviceHelper(other_host)] builds. *)
Definition other_store : DeviceHelper.t :=
  {| DeviceHelper._particle_array := other_host;
     DeviceHelper._data :=
       <["tag" := DeviceArray.set_data [0]%Z]>
         (<["z" := DeviceArray.set_data [5]%Z]> ∅);
     DeviceHelper.properties := ["tag"; "z"];
     DeviceHelper.constants := [];
     DeviceHelper.num_real_particles := None |}.

(** X21. [append_parray] never adds a property: when the other store holds
    particles and has a property for which [self] has no buffer, the call
    raises instead of creating the buffer, because it reads the dtype from
    [self._data[prop_name]]. *)
Theorem append_parray_never_adds_property (junk : nat → Z) st parray other
    p k :
  DeviceHelper.gpu parray = Some other →
  DeviceHelper.get_number_of_particles other = Ok k → k ≠ 0 →
  p ∈ DeviceHelper.properties other →
  p ∉ DeviceHelper.properties st →
  DeviceHelper._data st !! p = None →
  raises (DeviceHelper.append_parray junk st parray).
Proof. apply append_parray_raises. Qed.

Lemma append_parray_never_adds_property_witness :
  DeviceHelper.get_number_of_particles other_store = Ok 1 ∧
  "z" ∈ DeviceHelper.properties other_store ∧
  ("z" ∉ DeviceHelper.properties example_store) ∧
  DeviceHelper._data example_store !! "z" = None ∧
  raises (DeviceHelper.append_parray (λ _, 0%Z) example_store
            {| DeviceHelper.host := other_host;
               DeviceHelper.gpu := Some other_store |}).
Proof.
  assert (DeviceHelper.get_number_of_particles other_store = Ok 1) as Hk
    by reflexivity.
  assert (1 ≠ 0) as Hk0 by lia.
  assert ("z" ∈ DeviceHelper.properties other_store) as Hz by by_evaluation.
  assert ("z" ∉ DeviceHelper.properties example_store) as Hnew
    by by_evaluation.
  assert (DeviceHelper._data example_store !! "z" = None) as Hnone
    by (vm_compute; reflexivity).
  split; [exact Hk|]. split; [exact Hz|]. split; [exact Hnew|].
  split; [exact Hnone|].
  exact (append_parray_never_adds_property (λ _, 0%Z) example_store
           {| DeviceHelper.host := other_host;
              DeviceHelper.gpu := Some other_store |}
           other_store "z" 1 eq_refl Hk Hk0 Hz Hnew Hnone).
Defined.

(** ** Removing particles *)

Section RemoveRows.
Variable junk : nat → Z.

(** The output of the scan kernel of [remove_particles] once the work items
    below [m] have run: the surviving positions below [m], then the old
    cells. *)
Lemma new_indices_prefix R n (new_indices : list Z) m :
  m ≤ n → length new_indices = n →
  let mask := remove_mask R n in
  let item := DeviceArray.inclusive_scan mask in
  let kept := filter (λ i, i ∉ R) (seq 0 m) in
  foldl (λ out i,
           if decide (mask !!! i = 0%Z)
           then <[i - Z.to_nat (item !!! i) := Z.of_nat i]> out
           else out)
        new_indices (seq 0 m)
  = (Z.of_nat <$> kept) ++ drop (length kept) new_indices.
Proof.
  intros Hm Hlen mask item. cbv zeta. induction m as [|m IH]; [done|].
  rewrite seq_S, foldl_app, filter_app, fmap_app. simpl foldl.
  rewrite IH by lia. clear IH. simpl. rewrite filter_cons, filter_nil.
  assert (mask !!! m = if decide (m ∈ R) then 1%Z else 0%Z) as ->
    by (apply remove_mask_lookup; lia).
  destruct (decide (m ∈ R)) as [HR|HR].
  - rewrite decide_False by done. rewrite decide_False by (by intros ?).
    rewrite fmap_nil. by rewrite !app_nil_r.
  - rewrite decide_True by done. rewrite decide_True by done.
    set (kept := filter (λ i, i ∉ R) (seq 0 m)).
    assert (m - Z.to_nat (item !!! m) = length (Z.of_nat <$> kept)) as ->.
    { unfold item, DeviceArray.inclusive_scan.
      rewrite scan_from_lookup by (unfold mask; rewrite length_remove_mask; lia).
      unfold mask. rewrite Zsum_remove_mask by lia.
      rewrite seq_S, filter_app, length_app. simpl.
      rewrite filter_cons, filter_nil, decide_False by done. simpl.
      rewrite length_fmap. unfold kept.
      pose proof (length_filter_split R m). lia. }
    assert (length kept ≤ m) as Hkept.
    { unfold kept. pose proof (length_filter_split R m). lia. }
    destruct (lookup_lt_is_Some_2 new_indices (length kept)) as [x Hx];
      [lia|].
    rewrite insert_app_r_alt, Nat.sub_diag by done.
    rewrite (drop_S _ _ _ Hx). simpl.
    rewrite <- app_assoc. simpl.
    do 2 f_equal. rewrite length_app. simpl. f_equal. lia.
Qed.

(** The index array that [remove_particles] aligns with: no index when no
    index is given, else the first [n - len(indices)] of the positions that
    are not among the indices. *)
Lemma kept_indices_spec n R :
  length R ≤ n →
  DeviceHelper.kept_indices junk n R
  = if decide (R = []) then []
    else take (n - length R) (filter (λ i, i ∉ R) (seq 0 n)).
Proof.
  intros Hcount. unfold DeviceHelper.kept_indices.
  rewrite array_fill_init, fill_if_remove_knl_zeros.
  unfold DeviceHelper.remove_knl. rewrite length_remove_mask.
  assert (length (DeviceArray.array (DeviceArray.__init__ junk n)) = n)
    as Hlen.
  { rewrite length_array by apply wf_init. done. }
  rewrite (new_indices_prefix R n) by done.
  set (kept := filter (λ i, i ∉ R) (seq 0 n)).
  assert (length kept ≤ n) as Hkept.
  { unfold kept. pose proof (length_filter_split R n). lia. }
  assert (n - length R ≤ length kept) as Hkept'.
  { unfold kept. pose proof (length_filter_split R n).
    pose proof (length_filter_members R n). lia. }
  assert (length ((Z.of_nat <$> kept)
                  ++ drop (length kept)
                       (DeviceArray.array (DeviceArray.__init__ junk n)))
          = n) as ->.
  { rewrite length_app, length_fmap, length_drop, Hlen. lia. }
  unfold neg_bound. case_decide as HR.
  - apply length_zero_iff_nil in HR. rewrite decide_True by done.
    by rewrite take_0.
  - rewrite decide_False by (by intros ->).
    rewrite take_app_le by (by rewrite length_fmap).
    rewrite <- fmap_take. generalize (take (n - length R) kept).
    induction l as [|i l IH]; [done|]. rewrite !fmap_cons, IH.
    by rewrite Nat2Z.id.
Qed.

Lemma kept_indices_distinct n R :
  R ≠ [] → NoDup R → Forall (λ i, i < n) R →
  DeviceHelper.kept_indices junk n R = filter (λ i, i ∉ R) (seq 0 n) ∧
  length R ≤ n.
Proof.
  intros Hne Hnd Hrange.
  pose proof (length_filter_split R n) as Hsplit.
  rewrite length_filter_removed in Hsplit by done.
  split; [|lia]. rewrite kept_indices_spec by lia.
  rewrite decide_False by done. apply take_ge. lia.
Qed.

End RemoveRows.

(** X22. [remove_particles] with no index removes every particle: on a
    store whose properties all have a buffer the call returns, every
    property buffer is then empty, and the particles are not aligned
    again. *)
Theorem remove_particles_no_indices (junk : nat → Z) st :
  registered st →
  ∃ st', DeviceHelper.remove_particles junk st [] = Ok st' ∧
         same_fields st st' ∧ all_of_length 0 st' ∧
         (∀ p, p ∈ DeviceHelper.properties st → getattr st' p = Some []) ∧
         (∀ q, q ∉ DeviceHelper.properties st →
               DeviceHelper._data st' !! q = DeviceHelper._data st !! q).
Proof.
  intros Hreg. unfold DeviceHelper.remove_particles.
  destruct (get_number_of_particles_ok st Hreg) as [n ->]. simpl.
  rewrite kept_indices_spec by (simpl; lia). rewrite decide_True by done.
  destruct (align_ok st [] Hreg) as (st1 & Hst1 & Hsame & _ & Hdone & Hrest).
  pose proof Hst1 as Hpost. unfold DeviceHelper.align in Hst1, Hpost.
  apply align_loop_post in Hpost as [_ Hall].
  rewrite Hst1. simpl. exists st1. split_and!; [done..| |done].
  intros p Hp. destruct (Hdone p Hp) as (a & Ha). unfold getattr.
  by rewrite Ha.
Qed.

Lemma remove_particles_no_indices_witness :
  registered example_store ∧
  ∃ st', DeviceHelper.remove_particles (λ _, 0%Z) example_store [] = Ok st' ∧
         getattr st' "x" = Some [].
Proof.
  assert ("x" ∈ DeviceHelper.properties example_store) as Hx
    by by_evaluation.
  split; [exact example_store_registered|].
  destruct (remove_particles_no_indices (λ _, 0%Z) example_store
              example_store_registered) as (st' & Hrun & _ & _ & Hempty & _).
  exists st'. split; [exact Hrun|exact (Hempty "x" Hx)].
Defined.

Lemma cl_take_perm (l : list Z) (indices : list nat) :
  indices ≡ₚ seq 0 (length l) → cl_take l indices ≡ₚ l.
Proof.
  intros Hperm. unfold cl_take. rewrite Hperm.
  by rewrite <- (cl_take_arange l) at 2.
Qed.

(** [align_particles] on a store with buffers of one length. *)
Lemma align_particles_rows st n :
  NoDup (DeviceHelper.properties st) → all_of_length n st →
  "tag" ∈ DeviceHelper.properties st →
  ∃ st' sorted_indices,
    DeviceHelper.align_particles st = Ok st' ∧
    sorted_indices ≡ₚ seq 0 n ∧
    DeviceHelper.properties st' = DeviceHelper.properties st ∧
    DeviceHelper.constants st' = DeviceHelper.constants st ∧
    (∀ p a, p ∈ DeviceHelper.properties st →
            DeviceHelper._data st !! p = Some a →
            DeviceHelper._data st' !! p
            = Some (DeviceArray.align a sorted_indices)) ∧
    (∀ q, q ∉ DeviceHelper.properties st →
          DeviceHelper._data st' !! q = DeviceHelper._data st !! q).
Proof.
  intros Hnd Hall Hin.
  destruct (all_of_length_lookup n st "tag" Hall Hin) as (tag & Htag & _).
  assert (registered st) as Hreg.
  { eapply Forall_impl; [exact Hall|]. intros p (a & Ha & _). by eexists. }
  assert (DeviceHelper.get_number_of_particles st = Ok n) as Hnum.
  { apply all_of_length_number; [done|]. intros Hnil. rewrite Hnil in Hin.
    by apply elem_of_nil in Hin. }
  destruct (align_particles_exact st tag n Hnd Hreg Htag Hnum)
    as (st' & Hrun & Hprops & Hconsts & Haligned & Hrest & _).
  exists st', (DeviceHelper.radix_sort (arange n) (DeviceArray.array tag)).
  split_and!; [done|apply radix_sort_perm|done..].
Qed.

Section RemoveParticlesRows.
Variable junk : nat → Z.

(** [remove_particles] with at least one index, all indices distinct and in
    range: the rows at the indices go, the others are aligned. *)
Lemma remove_particles_rows st n R :
  NoDup (DeviceHelper.properties st) → all_of_length n st →
  "tag" ∈ DeviceHelper.properties st →
  R ≠ [] → NoDup R → Forall (λ i, i < n) R →
  ∃ st' sorted_indices,
    DeviceHelper.remove_particles junk st R = Ok st' ∧
    sorted_indices ≡ₚ seq 0 (n - length R) ∧
    DeviceHelper.properties st' = DeviceHelper.properties st ∧
    DeviceHelper.constants st' = DeviceHelper.constants st ∧
    all_of_length (n - length R) st' ∧
    (∀ p a, p ∈ DeviceHelper.properties st →
            DeviceHelper._data st !! p = Some a →
            ∃ a', DeviceHelper._data st' !! p = Some a' ∧
                  DeviceArray.array a'
                  = cl_take (without (DeviceArray.array a) R) sorted_indices ∧
                  DeviceArray.array a' ≡ₚ without (DeviceArray.array a) R) ∧
    (∀ q, q ∉ DeviceHelper.properties st →
          DeviceHelper._data st' !! q = DeviceHelper._data st !! q).
Proof.
  intros Hnd Hall Hin Hne HndR Hrange.
  assert (registered st) as Hreg.
  { eapply Forall_impl; [exact Hall|]. intros p (a & Ha & _). by eexists. }
  assert (DeviceHelper.get_number_of_particles st = Ok n) as Hnum.
  { apply all_of_length_number; [done|]. intros Hnil. rewrite Hnil in Hin.
    by apply elem_of_nil in Hin. }
  destruct (kept_indices_distinct junk n R Hne HndR Hrange)
    as [Hkept Hcount].
  assert (length (filter (λ i, i ∉ R) (seq 0 n)) = n - length R) as Hlen.
  { pose proof (length_filter_split R n) as Hsplit.
    rewrite length_filter_removed in Hsplit by done. lia. }
  unfold DeviceHelper.remove_particles. rewrite Hnum. simpl.
  rewrite decide_False by lia. rewrite Hkept.
  set (kept := filter (λ i, i ∉ R) (seq 0 n)) in *.
  destruct (align_exact st kept Hnd Hreg)
    as (st1 & Hst1 & (_ & Hprops1 & Hconsts1 & _) & Hdone1 & Hrest1).
  unfold DeviceHelper.align in Hst1. rewrite Hst1. simpl.
  rewrite decide_True by (destruct R; [done|simpl; lia]).
  assert (all_of_length (n - length R) st1) as Hall1.
  { unfold all_of_length. rewrite Hprops1. apply Forall_forall. intros p Hp.
    destruct (all_of_length_lookup n st p Hall Hp) as (a & Ha & _).
    exists (DeviceArray.align a kept). split; [by apply Hdone1|].
    split; [apply wf_align|]. by rewrite length_align. }
  destruct (align_particles_rows st1 (n - length R))
    as (st' & sorted_indices & Hrun & Hperm & Hprops & Hconsts & Hdone
        & Hrest); [by rewrite Hprops1|done|by rewrite Hprops1|].
  exists st', sorted_indices.
  split_and!; [done|done|congruence|congruence| | |].
  - unfold all_of_length. rewrite Hprops, Hprops1. apply Forall_forall.
    intros p Hp. destruct (all_of_length_lookup n st p Hall Hp)
      as (a & Ha & _).
    exists (DeviceArray.align (DeviceArray.align a kept) sorted_indices).
    split; [apply Hdone; [by rewrite Hprops1|by apply Hdone1]|].
    split; [apply wf_align|]. by rewrite length_align, Hperm, length_seq.
  - intros p a Hp Ha.
    destruct (all_of_length_lookup n st p Hall Hp) as (b & Hb & Hwf & Hn).
    assert (b = a) as -> by congruence.
    assert (DeviceArray.array (DeviceArray.align a kept)
            = without (DeviceArray.array a) R) as Hwithout.
    { unfold DeviceArray.align, without. rewrite array_set_data.
      by rewrite length_array, Hn by done. }
    exists (DeviceArray.align (DeviceArray.align a kept) sorted_indices).
    split; [apply Hdone; [by rewrite Hprops1|by apply Hdone1]|].
    assert (DeviceArray.array
              (DeviceArray.align (DeviceArray.align a kept) sorted_indices)
            = cl_take (without (DeviceArray.array a) R) sorted_indices)
      as ->.
    { unfold DeviceArray.align at 1. by rewrite array_set_data, Hwithout. }
    split; [done|]. apply cl_take_perm.
    assert (length (without (DeviceArray.array a) R) = n - length R) as ->;
      [|done].
    unfold without. by rewrite length_cl_take, length_array, Hn by done.
  - intros q Hq. rewrite Hrest by (by rewrite Hprops1). by apply Hrest1.
Qed.

Lemma remove_indices_fold (P : nat → Prop) `{!∀ i, Decision (P i)}
    (l out : list nat) (h : nat) :
  h + length (filter P l) ≤ length out →
  foldl (λ '(indices, head) i,
           if decide (P i) then (<[head := i]> indices, head + 1)
           else (indices, head))
        (out, h) l
  = (take h out ++ filter P l ++ drop (h + length (filter P l)) out,
     h + length (filter P l)).
Proof.
  revert out h. induction l as [|x l IH]; intros out h Hfit.
  { simpl. rewrite Nat.add_0_r. by rewrite take_drop. }
  simpl foldl. rewrite filter_cons in *.
  destruct (decide (P x)) as [Hx|Hx]; simpl in *.
  - rewrite IH by (rewrite length_insert; lia).
    destruct (lookup_lt_is_Some_2 out h) as [y Hy]; [lia|].
    replace (h + 1) with (S h) by lia.
    rewrite (take_S_r _ _ x)
      by (apply list_lookup_insert_eq; by eapply lookup_lt_Some).
    rewrite take_insert_ge by lia.
    rewrite drop_insert_lt by lia.
    rewrite <- app_assoc. simpl.
    replace (h + S (length (filter P l)))
      with (S (h + length (filter P l))) by lia.
    done.
  - by rewrite IH by lia.
Qed.

Lemma count_tag (tag : Z) (l : list Z) :
  length (filter (λ b : bool, b = true)
            ((λ x, bool_decide (x = tag)) <$> l))
  = length (filter (λ i, l !!! i = tag) (seq 0 (length l))).
Proof.
  rewrite <- (length_cl_take l (filter _ (seq 0 (length l)))).
  rewrite (cl_take_filter (λ x, x = tag) (λ i, l !!! i = tag) l [] l)
    by done.
  induction l as [|x l IH]; [done|].
  rewrite fmap_cons, !filter_cons.
  destruct (decide (x = tag)) as [Hx|Hx].
  - rewrite bool_decide_eq_true_2 by done. rewrite decide_True by done.
    simpl. by rewrite IH.
  - rewrite bool_decide_eq_false_2 by done. rewrite decide_False by done.
    done.
Qed.

(** The particles that [remove_tagged_particles] hands to
    [remove_particles]: the positions that hold the tag, in ascending
    order. *)
Lemma remove_tagged_particles_indices st tag_buffer tag :
  DeviceHelper._data st !! "tag" = Some tag_buffer →
  let tags := DeviceArray.array tag_buffer in
  let R := filter (λ i, tags !!! i = tag) (seq 0 (length tags)) in
  DeviceHelper.remove_tagged_particles junk st tag
  = if decide (R = []) then Ok st
    else DeviceHelper.remove_particles junk st R.
Proof.
  intros Htag tags R. unfold DeviceHelper.remove_tagged_particles.
  rewrite Htag. fold tags. rewrite count_tag. fold R.
  destruct (decide (R = [])) as [HR|HR].
  { by rewrite HR, decide_True. }
  rewrite decide_False by (by intros ?%length_zero_iff_nil).
  f_equal. unfold DeviceHelper.remove_indices.
  rewrite (remove_indices_fold (λ i, tags !!! i = tag)).
  - fold R. simpl. rewrite drop_ge; [by rewrite app_nil_r|].
    by rewrite length_fmap, length_empty.
  - fold R. by rewrite length_fmap, length_empty.
Qed.

End RemoveParticlesRows.

(** X23. Removing particles by index: on a store with distinct property
    names, buffers of one length [n] and a property [tag], [remove_particles]
    with at least one index, all indices distinct and below [n], drops
    exactly the particles at the indices from every property and then
    reorders the remaining particles, as [align_particles] does, with one
    permutation for all properties. *)
Theorem remove_particles_removes_rows (junk : nat → Z) st n R :
  NoDup (DeviceHelper.properties st) → all_of_length n st →
  "tag" ∈ DeviceHelper.properties st →
  R ≠ [] → NoDup R → Forall (λ i, i < n) R →
  ∃ st' sorted_indices,
    DeviceHelper.remove_particles junk st R = Ok st' ∧
    sorted_indices ≡ₚ seq 0 (n - length R) ∧
    DeviceHelper.properties st' = DeviceHelper.properties st ∧
    DeviceHelper.constants st' = DeviceHelper.constants st ∧
    all_of_length (n - length R) st' ∧
    (∀ p a, p ∈ DeviceHelper.properties st →
            DeviceHelper._data st !! p = Some a →
            ∃ a', DeviceHelper._data st' !! p = Some a' ∧
                  DeviceArray.array a'
                  = cl_take (without (DeviceArray.array a) R) sorted_indices ∧
                  DeviceArray.array a' ≡ₚ without (DeviceArray.array a) R) ∧
    (∀ q, q ∉ DeviceHelper.properties st →
          DeviceHelper._data st' !! q = DeviceHelper._data st !! q).
Proof. apply remove_particles_rows. Qed.

Lemma remove_particles_removes_rows_witness :
  NoDup (DeviceHelper.properties example_store) ∧
  all_of_length 3 example_store ∧
  NoDup [1] ∧ Forall (λ i, i < 3) [1] ∧
  ∃ st', DeviceHelper.remove_particles (λ _, 0%Z) example_store [1] = Ok st' ∧
         all_of_length 2 st'.
Proof.
  assert (NoDup (DeviceHelper.properties example_store)) as Hnd
    by by_evaluation.
  assert ("tag" ∈ DeviceHelper.properties example_store) as Htag
    by by_evaluation.
  assert ([1] ≠ []) as Hne by discriminate.
  assert (NoDup [1]) as HndR by by_evaluation.
  assert (Forall (λ i, i < 3) [1]) as Hrange by by_evaluation.
  split; [exact Hnd|]. split; [exact example_store_all_of_length|].
  split; [exact HndR|]. split; [exact Hrange|].
  destruct (remove_particles_removes_rows (λ _, 0%Z) example_store 3 [1]
              Hnd example_store_all_of_length Htag Hne HndR Hrange)
    as (st' & sorted_indices & Hrun & _ & _ & _ & Hall & _).
  exists st'. split; [exact Hrun|exact Hall].
Defined.

(** X24. Removing particles by tag: when no particle has the tag the store
    is left as it is (not even aligned); otherwise every particle with the
    tag is removed from every property, no other particle is, and no
    particle with the tag remains. *)
Theorem remove_tagged_particles_removes (junk : nat → Z) st tag_buffer n
    tag :
  NoDup (DeviceHelper.properties st) → all_of_length n st →
  "tag" ∈ DeviceHelper.properties st →
  DeviceHelper._data st !! "tag" = Some tag_buffer →
  let tags := DeviceArray.array tag_buffer in
  let R := filter (λ i, tags !!! i = tag) (seq 0 n) in
  (R = [] → DeviceHelper.remove_tagged_particles junk st tag = Ok st) ∧
  (R ≠ [] →
   ∃ st' tag_buffer',
     DeviceHelper.remove_tagged_particles junk st tag = Ok st' ∧
     DeviceHelper.remove_particles junk st R = Ok st' ∧
     all_of_length (n - length R) st' ∧
     DeviceHelper._data st' !! "tag" = Some tag_buffer' ∧
     Forall (λ t, t ≠ tag) (DeviceArray.array tag_buffer') ∧
     (∀ p a, p ∈ DeviceHelper.properties st →
             DeviceHelper._data st !! p = Some a →
             ∃ a', DeviceHelper._data st' !! p = Some a' ∧
                   DeviceArray.array a' ≡ₚ without (DeviceArray.array a) R)).
Proof.
  intros Hnd Hall Hin Htag tags R.
  destruct (all_of_length_lookup n st "tag" Hall Hin) as (b & Hb & Hwf & Hn).
  assert (b = tag_buffer) as -> by congruence.
  assert (length tags = n) as Hlen by (unfold tags; by rewrite length_array).
  pose proof (remove_tagged_particles_indices junk st tag_buffer tag Htag)
    as Heq.
  cbv zeta in Heq. fold tags in Heq. rewrite Hlen in Heq. fold R in Heq.
  split; intros HR.
  { by rewrite Heq, decide_True. }
  rewrite Heq, decide_False by done.
  assert (NoDup R) as HndR by apply NoDup_filter, NoDup_seq.
  assert (Forall (λ i, i < n) R) as Hrange.
  { apply Forall_forall. intros i [_ Hi%elem_of_seq]%list_elem_of_filter.
    lia. }
  destruct (remove_particles_rows junk st n R Hnd Hall Hin HR HndR Hrange)
    as (st' & sorted_indices & Hrun & _ & _ & _ & Hall' & Hrows & _).
  destruct (Hrows "tag" tag_buffer Hin Htag) as (tag_buffer' & Htag' & _ & Hp).
  exists st', tag_buffer'. split_and!; [done..| |].
  - rewrite Hp. fold tags. unfold without, cl_take. rewrite Hlen.
    apply Forall_fmap, Forall_forall.
    intros i [Hi Hseq]%list_elem_of_filter. simpl. intros Ht. apply Hi.
    by apply list_elem_of_filter.
  - intros p a Hp' Ha. destruct (Hrows p a Hp' Ha) as (a' & Ha' & _ & Hperm).
    by exists a'.
Qed.

Lemma remove_tagged_particles_removes_witness :
  NoDup (DeviceHelper.properties example_store) ∧
  all_of_length 3 example_store ∧
  ∃ st', DeviceHelper.remove_tagged_particles (λ _, 0%Z) example_store 1
         = Ok st' ∧
         all_of_length 2 st' ∧
         DeviceHelper.remove_tagged_particles (λ _, 0%Z) example_store 2
         = Ok example_store.
Proof.
  assert (NoDup (DeviceHelper.properties example_store)) as Hnd
    by by_evaluation.
  assert ("tag" ∈ DeviceHelper.properties example_store) as Htag
    by by_evaluation.
  split; [exact Hnd|]. split; [exact example_store_all_of_length|].
  destruct (remove_tagged_particles_removes (λ _, 0%Z) example_store
              (DeviceArray.set_data [0; 0; 1]%Z) 3 1 Hnd
              example_store_all_of_length Htag eq_refl) as [_ Hsome].
  destruct (remove_tagged_particles_removes (λ _, 0%Z) example_store
              (DeviceArray.set_data [0; 0; 1]%Z) 3 2 Hnd
              example_store_all_of_length Htag eq_refl) as [Hnone _].
  destruct Hsome as (st' & tag' & Hrun & _ & Hall & _); [discriminate|].
  exists st'. split; [exact Hrun|]. split; [exact Hall|].
  apply Hnone. reflexivity.
Defined.

(** ** Sorting sorted particles *)








(** ** Appending a store whose properties are known *)

(** What [append_parray] appends to property [p]: the values of the other
    store when it has the property, else the default value [k] times. *)
Definition appended_tail (st other : DeviceHelper.t) (k : nat) (p : string)
  : list Z :=
  if decide (p ∈ DeviceHelper.properties other)
  then from_option DeviceArray.array [] (DeviceHelper._data other !! p)
  else replicate k
         (ParticleArray.default_values (DeviceHelper._particle_array st) !!! p).

Section AppendParrayMerge.
Variable junk : nat → Z.
Variable st other : DeviceHelper.t.
Variable n k : nat.

Hypothesis names_distinct : NoDup (DeviceHelper.properties st).
Hypothesis same_length : all_of_length n st.
Hypothesis has_tag : "tag" ∈ DeviceHelper.properties st.
Hypothesis defaults :
  Forall (λ p, is_Some (ParticleArray.default_values
                          (DeviceHelper._particle_array st) !! p))
         (DeviceHelper.properties st).
Hypothesis other_distinct : NoDup (DeviceHelper.properties other).
Hypothesis other_length : all_of_length k other.
Hypothesis other_nonempty : DeviceHelper.properties other ≠ [] ∧ 0 < k.
Hypothesis shared :
  Forall (λ p, p ∈ DeviceHelper.properties st)
         (DeviceHelper.properties other).
Hypothesis constants_known :
  Forall (λ c, c ∈ DeviceHelper.constants st) (DeviceHelper.constants other).

(** The store after [self.extend] and the loop over the properties of the
    other store. *)
Definition merged (st2 : DeviceHelper.t) : Prop :=
  same_fields st st2 ∧
  (∀ p a, p ∈ DeviceHelper.properties st →
          DeviceHelper._data st !! p = Some a →
          ∃ a2, DeviceHelper._data st2 !! p = Some a2 ∧ DeviceArray.wf a2 ∧
                DeviceArray.length a2 = n + k ∧
                DeviceArray.array a2
                = DeviceArray.array a ++ appended_tail st other k p) ∧
  (∀ q, q ∉ DeviceHelper.properties st →
        DeviceHelper._data st2 !! q = DeviceHelper._data st !! q).

Lemma constants_loop_known st2 :
  DeviceHelper.constants st2 = DeviceHelper.constants st →
  for_each (DeviceHelper.constants other)
    (λ const st,
       if decide (const ∈ DeviceHelper.constants st) then Ok st
       else
         arr ← DeviceHelper.get_device_array other const;
         match arr with
         | Some arr =>
             Ok (DeviceHelper.update_const st const (DeviceArray.copy arr))
         | None => Raise AttributeError
         end)
    st2 = Ok st2.
Proof.
  intros Hc. pose proof constants_known as Hknown. rewrite <- Hc in Hknown.
  revert Hknown. generalize (DeviceHelper.constants other).
  intros cs Hknown. induction Hknown as [|c cs Hin _ IH]; [done|].
  simpl. by rewrite decide_True by done.
Qed.

Lemma merge_loop_ok :
  ∃ st1 st2,
    DeviceHelper.extend junk st (Z.of_nat k) = Ok st1 ∧
    for_each (DeviceHelper.properties other)
      (λ prop_name st,
         if decide (prop_name ∈ DeviceHelper.properties st) then
           arr ← getitem (DeviceHelper._data st) prop_name;
           source ← DeviceHelper.get_device_array other prop_name;
           source_array ← DeviceHelper.array_of source;
           arr ← DeviceArray.set_array_from arr n source_array;
           Ok (DeviceHelper.set_buffer st prop_name arr)
         else
           _ ← getitem (DeviceHelper._data st) prop_name;
           let arr := DeviceArray.__init__ junk (k + n) in
           default ←
             getitem (ParticleArray.default_values
                        (DeviceHelper._particle_array other)) prop_name;
           let arr := DeviceArray.fill arr default in
           let st := DeviceHelper.update_prop st prop_name arr in
           dest ← getitem (DeviceHelper._data st) prop_name;
           source ← DeviceHelper.get_device_array other prop_name;
           source_array ← DeviceHelper.array_of source;
           dest ← DeviceArray.set_array_from dest n source_array;
           Ok (DeviceHelper.set_buffer st prop_name dest))
      st1 = Ok st2 ∧
    merged st2.
Proof.
  destruct (extend_rows junk st n (Z.of_nat k))
    as (st1 & Hext & Hsame1 & Hall1 & Hrows1 & Hrest1);
    [lia|done|done|done|].
  rewrite Nat2Z.id in Hall1, Hrows1.
  pose proof Hsame1 as (_ & Hprops1 & _).
  pose proof shared as Hshared. rewrite Forall_forall in Hshared.
  set (g := λ (p : string) (arr : DeviceArray.t),
              source ← DeviceHelper.get_device_array other p;
              source_array ← DeviceHelper.array_of source;
              DeviceArray.set_array_from arr n source_array).
  assert (∀ p a, p ∈ DeviceHelper.properties other →
                 DeviceHelper._data st !! p = Some a →
                 ∃ a1 a2, DeviceHelper._data st1 !! p = Some a1 ∧
                          g p a1 = Ok a2 ∧ DeviceArray.wf a2 ∧
                          DeviceArray.length a2 = n + k ∧
                          DeviceArray.array a2
                          = DeviceArray.array a ++ appended_tail st other k p)
    as Hg.
  { intros p a Hp Ha.
    destruct (all_of_length_lookup n st p same_length (Hshared p Hp))
      as (a0 & Ha0 & Hwf & Hn).
    assert (a0 = a) as -> by congruence.
    destruct (Hrows1 p a (Hshared p Hp) Ha) as (a1 & Ha1 & Harr1).
    destruct (all_of_length_lookup (n + k) st1 p Hall1) as (a1' & Ha1' & Hwf1 & Hl1);
      [rewrite Hprops1; by apply Hshared|].
    assert (a1' = a1) as -> by congruence.
    destruct (all_of_length_lookup k other p other_length Hp)
      as (b & Hb & Hwfb & Hk).
    destruct (set_array_from_spec a1 n (DeviceArray.array b) Hwf1)
      as (a2 & Hset & Hwf2 & Hl2 & Harr2);
      [lia|rewrite length_array by done; lia|].
    exists a1, a2. split; [done|]. split_and!; [|done|lia|].
    - unfold g, DeviceHelper.get_device_array.
      rewrite decide_True by (by left).
      rewrite (getitem_Some _ _ b) by done. by simpl.
    - rewrite Harr2, Harr1. unfold appended_tail.
      rewrite decide_True by done. rewrite Hb. simpl.
      rewrite take_app_length'; [done|]. by rewrite length_array. }
  destruct (store_loop_ok g
              (λ prop_name st,
                 if decide (prop_name ∈ DeviceHelper.properties st) then
                   arr ← getitem (DeviceHelper._data st) prop_name;
                   source ← DeviceHelper.get_device_array other prop_name;
                   source_array ← DeviceHelper.array_of source;
                   arr ← DeviceArray.set_array_from arr n source_array;
                   Ok (DeviceHelper.set_buffer st prop_name arr)
                 else
                   _ ← getitem (DeviceHelper._data st) prop_name;
                   let arr := DeviceArray.__init__ junk (k + n) in
                   default ←
                     getitem (ParticleArray.default_values
                                (DeviceHelper._particle_array other))
                       prop_name;
                   let arr := DeviceArray.fill arr default in
                   let st := DeviceHelper.update_prop st prop_name arr in
                   dest ← getitem (DeviceHelper._data st) prop_name;
                   source ← DeviceHelper.get_device_array other prop_name;
                   source_array ← DeviceHelper.array_of source;
                   dest ← DeviceArray.set_array_from dest n source_array;
                   Ok (DeviceHelper.set_buffer st prop_name dest))
              (DeviceHelper.properties other) st1)
    as (st2 & Hrun & Hsame2 & Hdone2 & Hrest2); [|done| |].
  { intros p s Hp (_ & Hps & _).
    rewrite decide_True by (rewrite Hps, Hprops1; by apply Hshared).
    unfold g. destruct (getitem (DeviceHelper._data s) p) as [arr|]; [|done].
    simpl. destruct (DeviceHelper.get_device_array other p) as [source|];
      [|done].
    simpl. by destruct (DeviceHelper.array_of source). }
  { intros p Hp.
    destruct (all_of_length_lookup n st p same_length (Hshared p Hp))
      as (a & Ha & _).
    destruct (Hg p a Hp Ha) as (a1 & a2 & ? & ? & _). by exists a1, a2. }
  exists st1, st2. split; [done|]. split; [done|]. split_and!.
  - by apply (same_fields_trans st st1).
  - intros p a Hp Ha.
    destruct (decide (p ∈ DeviceHelper.properties other)) as [Ho|Ho].
    + destruct (Hg p a Ho Ha) as (a1 & a2 & Ha1 & Hga & Hwf2 & Hl2 & Harr2).
      destruct (Hdone2 p a1 Ho Ha1) as (a2' & Hga' & Ha2).
      assert (a2' = a2) as -> by congruence. by exists a2.
    + destruct (Hrows1 p a Hp Ha) as (a1 & Ha1 & Harr1).
      destruct (all_of_length_lookup (n + k) st1 p Hall1)
        as (a1' & Ha1' & Hwf1 & Hl1); [by rewrite Hprops1|].
      assert (a1' = a1) as -> by congruence.
      exists a1. rewrite Hrest2 by done. split_and!; [done..|].
      rewrite Harr1. unfold appended_tail. by rewrite decide_False.
  - intros q Hq. rewrite Hrest2, Hrest1; [done..|].
    intros Ho. by apply Hq, Hshared.
Qed.

(** X26. Appending a store whose properties and constants this store knows:
    on a store with distinct property names, buffers of one length [n], a
    property [tag] and a default value for every property, [append_parray]
    of a store of [k > 0] particles appends to every property the values
    of the other store, or [k] default values when the other store lacks
    the property, and then reorders the [n + k] particles, as
    [align_particles] does, with one permutation for all properties. *)
Theorem append_parray_merges parray :
  DeviceHelper.gpu parray = Some other →
  ∃ st' sorted_indices,
    DeviceHelper.append_parray junk st parray = Ok st' ∧
    sorted_indices ≡ₚ seq 0 (n + k) ∧
    DeviceHelper.properties st' = DeviceHelper.properties st ∧
    DeviceHelper.constants st' = DeviceHelper.constants st ∧
    all_of_length (n + k) st' ∧
    (∀ p a, p ∈ DeviceHelper.properties st →
            DeviceHelper._data st !! p = Some a →
            ∃ a', DeviceHelper._data st' !! p = Some a' ∧
                  DeviceArray.array a'
                  = cl_take (DeviceArray.array a ++ appended_tail st other k p)
                      sorted_indices) ∧
    (∀ q, q ∉ DeviceHelper.properties st →
          DeviceHelper._data st' !! q = DeviceHelper._data st !! q).
Proof.
  intros Hgpu. destruct other_nonempty as [Hprops Hk].
  destruct merge_loop_ok
    as (st1 & st2 & Hext & Hloop & (_ & Hprops2 & Hconsts2 & _) & Hrows2
        & Hrest2).
  assert (all_of_length (n + k) st2) as Hall2.
  { unfold all_of_length. rewrite Hprops2. apply Forall_forall. intros p Hp.
    destruct (all_of_length_lookup n st p same_length Hp) as (a & Ha & _).
    destruct (Hrows2 p a Hp Ha) as (a2 & ? & ? & ? & _). by exists a2. }
  destruct (align_particles_rows st2 (n + k))
    as (st' & sorted_indices & Hrun & Hperm & Hprops' & Hconsts' & Hdone
        & Hrest); [by rewrite Hprops2|done|by rewrite Hprops2|].
  exists st', sorted_indices. split_and!; [|done|congruence|congruence| | |].
  - unfold DeviceHelper.append_parray. rewrite Hgpu. simpl.
    rewrite (all_of_length_number k other) by done. simpl.
    rewrite decide_False by lia.
    rewrite (all_of_length_number n st); [|done|].
    2:{ intros Hnil. rewrite Hnil in has_tag.
        by apply elem_of_nil in has_tag. }
    simpl. rewrite Hext. simpl. simpl in Hloop. rewrite Hloop. simpl.
    pose proof (constants_loop_known st2 Hconsts2) as Hknown.
    simpl in Hknown. rewrite Hknown. simpl.
    by rewrite decide_True by lia.
  - unfold all_of_length. rewrite Hprops', Hprops2. apply Forall_forall.
    intros p Hp.
    destruct (all_of_length_lookup n st p same_length Hp) as (a & Ha & _).
    destruct (Hrows2 p a Hp Ha) as (a2 & Ha2 & _).
    exists (DeviceArray.align a2 sorted_indices).
    split; [apply Hdone; [by rewrite Hprops2|done]|].
    split; [apply wf_align|]. by rewrite length_align, Hperm, length_seq.
  - intros p a Hp Ha.
    destruct (Hrows2 p a Hp Ha) as (a2 & Ha2 & _ & _ & Harr2).
    exists (DeviceArray.align a2 sorted_indices).
    split; [apply Hdone; [by rewrite Hprops2|done]|].
    unfold DeviceArray.align. by rewrite array_set_data, Harr2.
  - intros q Hq. rewrite Hrest by (by rewrite Hprops2). by apply Hrest2.
Qed.

End AppendParrayMerge.

(** A store of two particles with the properties [tag] and [x] only. *)
Definition shared_store : DeviceHelper.t :=
  {| DeviceHelper._particle_array := other_host;
     DeviceHelper._data :=
       <["tag" := DeviceArray.set_data [1; 0]%Z]>
         (<["x" := DeviceArray.set_data [8; 9]%Z]> ∅);
     DeviceHelper.properties := ["tag"; "x"];
     DeviceHelper.constants := [];
     DeviceHelper.num_real_particles := None |}.

Lemma append_parray_merges_witness :
  NoDup (DeviceHelper.properties example_store) ∧
  all_of_length 3 example_store ∧
  all_of_length 2 shared_store ∧
  ∃ st', DeviceHelper.append_parray (λ _, 0%Z) example_store
           {| DeviceHelper.host := other_host;
              DeviceHelper.gpu := Some shared_store |} = Ok st' ∧
         all_of_length 5 st'.
Proof.
  assert (NoDup (DeviceHelper.properties example_store)) as Hnd
    by by_evaluation.
  assert ("tag" ∈ DeviceHelper.properties example_store) as Htag
    by by_evaluation.
  assert (NoDup (DeviceHelper.properties shared_store)) as Hndo
    by by_evaluation.
  assert (all_of_length 2 shared_store) as Hallo.
  { repeat constructor; eexists; (split; [reflexivity|]);
      (split; [apply wf_set_data|reflexivity]). }
  assert (DeviceHelper.properties shared_store ≠ [] ∧ 0 < 2) as Hsome
    by (split; [discriminate|lia]).
  assert (Forall (λ p, p ∈ DeviceHelper.properties example_store)
            (DeviceHelper.properties shared_store)) as Hshared
    by by_evaluation.
  assert (Forall (λ c, c ∈ DeviceHelper.constants example_store)
            (DeviceHelper.constants shared_store)) as Hconsts
    by constructor.
  split; [exact Hnd|]. split; [exact example_store_all_of_length|].
  split; [exact Hallo|].
  destruct (append_parray_merges (λ _, 0%Z) example_store shared_store 3 2
              Hnd example_store_all_of_length Htag example_store_defaults
              Hndo Hallo Hsome Hshared Hconsts
              {| DeviceHelper.host := other_host;
                 DeviceHelper.gpu := Some shared_store |} eq_refl)
    as (st' & sorted_indices & Hrun & _ & _ & _ & Hall & _).
  exists st'. split; [exact Hrun|exact Hall].
Defined.

(** ** Extracting particles *)

Lemma ex_intro_and_l {A} {P : Prop} {Q : A → Prop} :
  P → (∃ x, Q x) → ∃ x, P ∧ Q x.
Proof. intros HP [x HQ]. by exists x. Qed.

Section ExtractRows.
Variable junk : nat → Z.
Variable fresh : ParticleArray.t.
Variable st : DeviceHelper.t.
Variable indices : list nat.
Variable props : option (list string).

Hypothesis fresh_empty :
  ParticleArray.properties fresh = [] ∧ ParticleArray.constants fresh = [].
Hypothesis some_indices : indices ≠ [].
Hypothesis names_distinct : NoDup (prop_names st props).
Hypothesis has_tag : "tag" ∈ prop_names st props.
Hypothesis props_ok :
  Forall (λ p, (∃ a, DeviceHelper._data st !! p = Some a ∧
                     Forall (λ i, i < length (DeviceArray.array a)) indices) ∧
               is_Some (ParticleArray.default_values
                          (DeviceHelper._particle_array st) !! p))
         (prop_names st props).
Hypothesis constants_ok :
  Forall (λ c, is_Some (DeviceHelper._data st !! c) ∧ c ∉ prop_names st props)
         (DeviceHelper.constants st).

(** The buffer that the loop over the properties makes for one of them. *)
Lemma extracted_buffer src_arr :
  ∃ dst,
    DeviceArray.copy_values src_arr indices
      (DeviceArray.array (DeviceArray.__init__ junk (length indices)))
    = Ok dst ∧
    let dst_arr :=
      DeviceArray.store_array (DeviceArray.__init__ junk (length indices))
        dst in
    DeviceArray.wf dst_arr ∧
    DeviceArray.length dst_arr = length indices ∧
    DeviceArray.array dst_arr = cl_take (DeviceArray.array src_arr) indices.
Proof.
  assert (length (DeviceArray.array
                    (DeviceArray.__init__ junk (length indices)))
          = length indices) as Hlen.
  { rewrite length_array by apply wf_init. done. }
  unfold DeviceArray.copy_values.
  rewrite setitem_slice_upto; [|lia|apply length_cl_take].
  rewrite drop_ge, app_nil_r by lia.
  eexists. split; [done|]. simpl. split_and!; [|done|].
  - apply wf_store_array; [apply wf_init|]. by rewrite length_cl_take.
  - apply array_store_array. by rewrite length_cl_take.
Qed.

(** The store after the loop over the properties to extract. *)
Definition rows_copied (done : list string) (r : DeviceHelper.t) : Prop :=
  DeviceHelper.properties r = done ∧ DeviceHelper.constants r = [] ∧
  ParticleArray.name (DeviceHelper._particle_array r)
  = ParticleArray.name fresh ∧
  (∀ p a, p ∈ done → DeviceHelper._data st !! p = Some a →
          (∃ a1, DeviceHelper._data r !! p = Some a1 ∧ DeviceArray.wf a1 ∧
                 DeviceArray.length a1 = length indices ∧
                 DeviceArray.array a1
                 = cl_take (DeviceArray.array a) indices) ∧
          ParticleArray.default_values (DeviceHelper._particle_array r) !! p
          = ParticleArray.default_values
              (DeviceHelper._particle_array st) !! p) ∧
  (∀ q, q ∉ done → DeviceHelper._data r !! q = None).

Lemma rows_loop_ok :
  ∃ r0 r1,
    DeviceHelper.__init__ junk fresh = Ok r0 ∧
    for_each (prop_names st props)
      (λ prop_name result_gpu,
         src_arr ← getitem (DeviceHelper._data st) prop_name;
         let dst_arr := DeviceArray.__init__ junk (len indices) in
         dst ← DeviceArray.copy_values src_arr indices
                 (DeviceArray.array dst_arr);
         let dst_arr := DeviceArray.store_array dst_arr dst in
         prop_default ←
           getitem (ParticleArray.default_values
                      (DeviceHelper._particle_array st)) prop_name;
         let result_gpu :=
           {| DeviceHelper._particle_array :=
                ParticleArray.add_property
                  (DeviceHelper._particle_array result_gpu)
                  prop_name prop_default;
              DeviceHelper._data := DeviceHelper._data result_gpu;
              DeviceHelper.properties := DeviceHelper.properties result_gpu;
              DeviceHelper.constants := DeviceHelper.constants result_gpu;
              DeviceHelper.num_real_particles :=
                DeviceHelper.num_real_particles result_gpu |} in
         Ok (DeviceHelper.update_prop result_gpu prop_name dst_arr))
      r0 = Ok r1 ∧
    rows_copied (prop_names st props) r1.
Proof.
  destruct fresh_empty as [Hp Hc].
  set (r0 := {| DeviceHelper._particle_array := fresh;
                DeviceHelper._data := ∅;
                DeviceHelper.properties := [];
                DeviceHelper.constants := [];
                DeviceHelper.num_real_particles := None |}).
  assert (DeviceHelper.__init__ junk fresh = Ok r0) as Hinit.
  { unfold DeviceHelper.__init__. by rewrite Hp, Hc. }
  exists r0. apply (ex_intro_and_l Hinit).
  apply for_each_ok.
  { split_and!; [done..| |done]. by intros p a []%elem_of_nil. }
  intros done x rest r Hps (Hprops & Hconsts & Hname & Hdone & Hrest).
  assert (x ∈ prop_names st props) as Hx
    by (rewrite Hps; apply elem_of_app; right; by left).
  assert (x ∉ done) as Hfresh.
  { pose proof names_distinct as Hnd. rewrite Hps in Hnd.
    apply NoDup_app in Hnd as (_ & Hd & _).
    intros Hin. apply (Hd x Hin). by left. }
  pose proof props_ok as Hok. rewrite Forall_forall in Hok.
  destruct (Hok x Hx) as [(src & Hsrc & _) [default Hdefault]].
  rewrite (getitem_Some _ _ src) by done. simpl.
  destruct (extracted_buffer src) as (dst & -> & Hwf & Hl & Harr). simpl.
  rewrite (getitem_Some _ _ default) by done. simpl.
  eexists. split; [done|]. split_and!.
  - simpl. rewrite decide_False by (by rewrite Hprops). by rewrite Hprops.
  - done.
  - done.
  - intros p a [Hp'| ->%list_elem_of_singleton]%elem_of_app Ha.
    + destruct (Hdone p a Hp' Ha) as [(a1 & Ha1 & ?) Hdef].
      assert (x ≠ p) as Hne by (by intros ->). split.
      * exists a1. simpl. by rewrite lookup_insert_ne.
      * simpl. by rewrite lookup_insert_ne.
    + assert (a = src) as -> by congruence. split.
      * eexists. simpl. rewrite lookup_insert_eq. by split_and!.
      * simpl. by rewrite lookup_insert_eq.
  - intros q Hq. simpl. rewrite lookup_insert_ne.
    + apply Hrest. intros ?. apply Hq, elem_of_app. by left.
    + intros ->. apply Hq, elem_of_app. right. by left.
Qed.

Lemma constants_loop_frame r1 :
  ∃ r2,
    for_each (DeviceHelper.constants st)
      (λ const result_gpu,
         arr ← getitem (DeviceHelper._data st) const;
         Ok (DeviceHelper.update_const result_gpu const
               (DeviceArray.copy arr)))
      r1 = Ok r2 ∧
    DeviceHelper.properties r2 = DeviceHelper.properties r1 ∧
    DeviceHelper._particle_array r2 = DeviceHelper._particle_array r1 ∧
    (∀ p, p ∈ prop_names st props →
          DeviceHelper._data r2 !! p = DeviceHelper._data r1 !! p).
Proof.
  apply (for_each_ok
           (λ _ r, DeviceHelper.properties r = DeviceHelper.properties r1 ∧
                   DeviceHelper._particle_array r
                   = DeviceHelper._particle_array r1 ∧
                   (∀ p, p ∈ prop_names st props →
                         DeviceHelper._data r !! p
                         = DeviceHelper._data r1 !! p))); [done|].
  intros done x rest r Hcs (Hp & Hpa & Hd).
  assert (x ∈ DeviceHelper.constants st) as Hx
    by (rewrite Hcs; apply elem_of_app; right; by left).
  pose proof constants_ok as Hok. rewrite Forall_forall in Hok.
  destruct (Hok x Hx) as [[arr Harr] Hclash].
  rewrite (getitem_Some _ _ arr) by done. simpl.
  eexists. split; [done|]. split_and!; [done..|].
  intros p Hp'. simpl. rewrite lookup_insert_ne by (by intros ->).
  by apply Hd.
Qed.

(** X27. Extraction copies rows: with at least one index, all indices in
    range, a freshly made empty container, distinct names to extract among
    which is [tag], a buffer and a default value for each of them, and no
    constant named like one of them, [extract_particles] returns a store whose properties are
    the names to extract, each holding the values at the indices, in the
    order of the indices and then reordered with one permutation for all,
    as [align_particles] does; the result has the name of the source and
    its default values. *)
Theorem extract_particles_copies_rows :
  ∃ result sorted_indices,
    DeviceHelper.extract_particles junk fresh st indices props = Ok result ∧
    sorted_indices ≡ₚ seq 0 (length indices) ∧
    DeviceHelper.properties result = prop_names st props ∧
    ParticleArray.name (DeviceHelper._particle_array result)
    = ParticleArray.name (DeviceHelper._particle_array st) ∧
    (∀ p a, p ∈ prop_names st props →
            DeviceHelper._data st !! p = Some a →
            (∃ a', DeviceHelper._data result !! p = Some a' ∧
                   DeviceArray.array a'
                   = cl_take (cl_take (DeviceArray.array a) indices)
                       sorted_indices) ∧
            ParticleArray.default_values
              (DeviceHelper._particle_array result) !! p
            = ParticleArray.default_values
                (DeviceHelper._particle_array st) !! p).
Proof.
  destruct rows_loop_ok
    as (r0 & r1 & Hr0 & Hr1 & Hprops1 & _ & _ & Hrows1 & _).
  destruct (constants_loop_frame r1) as (r2 & Hr2 & Hprops2 & Hpa2 & Hdata2).
  assert (all_of_length (length indices) r2) as Hall2.
  { unfold all_of_length. rewrite Hprops2, Hprops1. apply Forall_forall.
    intros p Hp. pose proof props_ok as Hok. rewrite Forall_forall in Hok.
    destruct (Hok p Hp) as [(a & Ha & _) _].
    destruct (Hrows1 p a Hp Ha) as [(a1 & Ha1 & ? & ? & _) _].
    exists a1. by rewrite Hdata2. }
  destruct (align_particles_rows r2 (length indices))
    as (r3 & sorted_indices & Hr3 & Hperm & Hprops3 & _ & Hdone3 & _);
    [by rewrite Hprops2, Hprops1|done|by rewrite Hprops2, Hprops1|].
  assert (DeviceHelper._particle_array r3 = DeviceHelper._particle_array r2)
    as Hpa3.
  { destruct (align_particles_ok r2) as (r3' & Hr3' & Hpa & _).
    - eapply Forall_impl; [exact Hall2|]. intros p (a & Ha & _). by eexists.
    - destruct (all_of_length_lookup (length indices) r2 "tag" Hall2)
        as (a & Ha & _); [by rewrite Hprops2, Hprops1|]. by eexists.
    - congruence. }
  eexists _, sorted_indices. split_and!; [|done|..].
  - unfold DeviceHelper.extract_particles. rewrite Hr0. simpl.
    rewrite decide_False by (by destruct indices).
    unfold prop_names in Hr1. simpl in Hr1. rewrite Hr1. simpl.
    rewrite Hr2. simpl. rewrite Hr3. simpl. done.
  - simpl. by rewrite Hprops3, Hprops2, Hprops1.
  - done.
  - intros p a Hp Ha. simpl. rewrite Hpa3, Hpa2.
    destruct (Hrows1 p a Hp Ha) as [(a1 & Ha1 & _ & _ & Harr1) Hdef].
    split; [|done].
    exists (DeviceArray.align a1 sorted_indices). split.
    + apply Hdone3; [by rewrite Hprops2, Hprops1|by rewrite Hdata2].
    + unfold DeviceArray.align. by rewrite array_set_data, Harr1.
Qed.

End ExtractRows.

Lemma extract_particles_copies_rows_witness :
  [2; 0] ≠ [] ∧
  NoDup (prop_names example_store (Some ["tag"; "y"])) ∧
  ∃ result,
    DeviceHelper.extract_particles (λ _, 0%Z) empty_host example_store
      [2; 0] (Some ["tag"; "y"]) = Ok result ∧
    DeviceHelper.properties result = ["tag"; "y"] ∧
    ParticleArray.name (DeviceHelper._particle_array result) = "fluid".
Proof.
  assert (ParticleArray.properties empty_host = []
          ∧ ParticleArray.constants empty_host = []) as Hfresh by done.
  assert ([2; 0] ≠ []) as Hsome by discriminate.
  assert (NoDup (prop_names example_store (Some ["tag"; "y"]))) as Hnd
    by by_evaluation.
  assert ("tag" ∈ prop_names example_store (Some ["tag"; "y"])) as Htag
    by by_evaluation.
  assert (Forall (λ p, (∃ a, DeviceHelper._data example_store !! p = Some a ∧
                             Forall (λ i, i < length (DeviceArray.array a))
                               [2; 0]) ∧
                       is_Some (ParticleArray.default_values
                                  (DeviceHelper._particle_array example_store)
                                  !! p))
            (prop_names example_store (Some ["tag"; "y"]))) as Hok.
  { apply Forall_cons. split; [|apply Forall_cons; split; [|constructor]].
    - split; [|by eexists]. eexists. split; [reflexivity|].
      repeat constructor; simpl; lia.
    - split; [|by eexists]. eexists. split; [reflexivity|].
      repeat constructor; simpl; lia. }
  assert (Forall (λ c, is_Some (DeviceHelper._data example_store !! c)
                       ∧ c ∉ prop_names example_store (Some ["tag"; "y"]))
            (DeviceHelper.constants example_store)) as Hconsts.
  { repeat constructor; [by eexists|by_evaluation]. }
  split; [exact Hsome|]. split; [exact Hnd|].
  destruct (extract_particles_copies_rows (λ _, 0%Z) empty_host
              example_store [2; 0] (Some ["tag"; "y"]) Hfresh Hsome Hnd Htag
              Hok Hconsts)
    as (result & sorted_indices & Hrun & _ & Hprops & Hname & _).
  exists result. split; [exact Hrun|]. split; [exact Hprops|exact Hname].
Defined.

(** ** The constants after [append_parray] *)

Lemma align_particles_constants st st' :
  DeviceHelper.align_particles st = Ok st' →
  DeviceHelper.constants st' = DeviceHelper.constants st.
Proof.
  unfold DeviceHelper.align_particles.
  intros (tag & _ & (n & _ & (st1 & Hal & Hrest)%bind_Ok)%bind_Ok)%bind_Ok.
  apply bind_Ok in Hrest as (tag1 & _ & [= <-]).
  apply align_loop_post in Hal as [(_ & _ & Hc & _) _]. done.
Qed.

(** X28. Whenever [append_parray] of a store that holds particles returns,
    the constants of the result are the constants this store had together
    with those of the other store: none is dropped and every constant of
    the other store is registered. *)
Theorem append_parray_registers_constants (junk : nat → Z) st parray other
    k st' :
  DeviceHelper.gpu parray = Some other →
  DeviceHelper.get_number_of_particles other = Ok k → k ≠ 0 →
  DeviceHelper.append_parray junk st parray = Ok st' →
  ∀ c, c ∈ DeviceHelper.constants st'
       ↔ c ∈ DeviceHelper.constants st ∨ c ∈ DeviceHelper.constants other.
Proof.
  intros Hgpu Hk Hk0. unfold DeviceHelper.append_parray.
  rewrite Hgpu. simpl. rewrite Hk. simpl. rewrite decide_False by done.
  intros (old & _ & Hrun)%bind_Ok.
  apply bind_Ok in Hrun as (st1 & Hext & Hrun).
  apply bind_Ok in Hrun as (st2 & Hloop & Hrun).
  apply bind_Ok in Hrun as (st3 & Hconsts & Hrun).
  rewrite decide_True in Hrun by lia.
  apply align_particles_constants in Hrun.
  assert (DeviceHelper.constants st1 = DeviceHelper.constants st) as Hc1.
  { revert Hext. unfold DeviceHelper.extend. case_decide; [by intros [= <-]|].
    intros (old_size & _ & Hfor)%bind_Ok. revert Hfor.
    apply (for_each_inv
             (λ _ s, DeviceHelper.constants s = DeviceHelper.constants st));
      [done|].
    intros done x rest s1 s2 _ Hs (arr & _ & Hb)%bind_Ok.
    apply bind_Ok in Hb as (arr1 & _ & Hb).
    by apply bind_Ok in Hb as (default & _ & [= <-]). }
  assert (DeviceHelper.constants st2 = DeviceHelper.constants st1) as Hc2.
  { revert Hloop.
    apply (for_each_inv
             (λ _ s, DeviceHelper.constants s = DeviceHelper.constants st1));
      [done|].
    intros done x rest s1 s2 _ Hs. case_decide.
    - intros (arr & _ & (src & _ & (a & _ & Hb)%bind_Ok)%bind_Ok)%bind_Ok.
      by apply bind_Ok in Hb as (arr' & _ & [= <-]).
    - intros (_ & _ & (default & _ & Hb)%bind_Ok)%bind_Ok.
      apply bind_Ok in Hb as (dest & _ & Hb).
      apply bind_Ok in Hb as (src & _ & Hb).
      apply bind_Ok in Hb as (a & _ & Hb).
      by apply bind_Ok in Hb as (dest' & _ & [= <-]). }
  assert (∀ c, c ∈ DeviceHelper.constants st3
               ↔ c ∈ DeviceHelper.constants st2
                 ∨ c ∈ DeviceHelper.constants other) as Hc3.
  { revert Hconsts.
    apply (for_each_inv
             (λ done s, ∀ c, c ∈ DeviceHelper.constants s
                             ↔ c ∈ DeviceHelper.constants st2 ∨ c ∈ done)).
    { intros c. split; [by left|]. by intros [?|[]%elem_of_nil]. }
    intros done x rest s1 s2 _ Hs. case_decide as Hx.
    - intros [= <-] c. rewrite elem_of_app, list_elem_of_singleton, Hs.
      split; [tauto|]. intros [?|[?| ->]]; [tauto..|]. by apply Hs.
    - intros (arr & _ & Hb)%bind_Ok. destruct arr as [arr|]; [|done].
      injection Hb as <-. intros c. simpl. rewrite decide_False by done.
      rewrite !elem_of_app, list_elem_of_singleton, Hs. tauto. }
  intros c. rewrite Hrun, Hc3, Hc2, Hc1. done.
Qed.

(** A store of one particle with a constant of its own. *)
Definition constant_store : DeviceHelper.t :=
  {| DeviceHelper._particle_array := other_host;
     DeviceHelper._data :=
       <["tag" := DeviceArray.set_data [1]%Z]>
         (<["g" := DeviceArray.set_data [9; 8]%Z]> ∅);
     DeviceHelper.properties := ["tag"];
     DeviceHelper.constants := ["g"];
     DeviceHelper.num_real_particles := None |}.

Lemma append_parray_registers_constants_witness :
  ∃ st',
    DeviceHelper.append_parray (λ _, 0%Z) example_store
      {| DeviceHelper.host := other_host;
         DeviceHelper.gpu := Some constant_store |} = Ok st' ∧
    ("g" ∈ DeviceHelper.constants st'
     ↔ "g" ∈ DeviceHelper.constants example_store
       ∨ "g" ∈ DeviceHelper.constants constant_store).
Proof.
  assert (DeviceHelper.get_number_of_particles constant_store = Ok 1) as Hk
    by reflexivity.
  assert (1 ≠ 0) as Hk0 by lia.
  destruct (DeviceHelper.append_parray (λ _, 0%Z) example_store
              {| DeviceHelper.host := other_host;
                 DeviceHelper.gpu := Some constant_store |})
    as [st'|e] eqn:Hrun; [|vm_compute in Hrun; discriminate Hrun].
  exists st'. split; [reflexivity|].
  exact (append_parray_registers_constants (λ _, 0%Z) example_store
           {| DeviceHelper.host := other_host;
              DeviceHelper.gpu := Some constant_store |}
           constant_store 1 st' eq_refl Hk Hk0 Hrun "g").
Defined.
